(** * Autobiography pipeline and audio chunking: a shallow embedding

    Source files covered:
    - [services/audio_transcriber.py]: [AudioTranscriber._split_audio],
      [AudioTranscriber._transcribe_large_file];
    - [autobiography_agents/orchestrator.py]: the three graph nodes,
      [should_continue], [create_orchestrator] and
      [run_autobiography_generation].

    Remote calls (speech-to-text, chat completions) are oracles: a call either
    returns a value or raises an exception, of which the code only ever uses
    [str(e)]. *)

From Stdlib Require Import DecimalString.
From stdpp Require Import base list strings numbers.
From stdpp Require gmap.

(** ** Exceptions *)

(** The result of a Python call: a returned value, or a raised [Exception]
    represented by its message [str(e)]. *)
Inductive outcome (A : Type) : Type :=
| Returned (a : A)
| Raised (msg : string).
Arguments Returned {A} a.
Arguments Raised {A} msg.

Definition bind_outcome {A B} (o : outcome A) (k : A → outcome B) : outcome B :=
  match o with
  | Returned a => k a
  | Raised msg => Raised msg
  end.

Notation "x ←! o ; k" := (bind_outcome o (fun x => k))
  (at level 20, o at level 100, k at level 200, right associativity,
   format "x  ←!  o ;  '/' k").

(** [try: body except Exception as e: handler(str(e))]. *)
Definition try_except {A} (body : outcome A) (handler : string → A) : A :=
  match body with
  | Returned a => a
  | Raised msg => handler msg
  end.

(** Python truthiness of a [str] and of an [Optional[str]]. *)
Definition truthy_str (s : string) : bool :=
  match s with
  | EmptyString => false
  | String _ _ => true
  end.

Definition truthy_opt_str (o : option string) : bool :=
  match o with
  | Some s => truthy_str s
  | None => false
  end.

(** The line feed of Python's ["\n"]. *)
Definition nl : string := String (Ascii.ascii_of_nat 10) EmptyString.

(** ** [asyncio.gather] *)

Module Asyncio.
Section Gather.
Context {A : Type}.

(** The awaited calls are numbered by their position in the argument list.
    A completion order lists positions in the order in which the calls
    finish.  Every awaited call finishes: the calls named by [order] finish
    first, in that order, and any call [order] does not name finishes
    afterwards.  A position is settled by its first completion only. *)
Definition completions (n : nat) (order : list nat) : list nat :=
  order ++ seq 0 n.

(** One call finishing: its outcome is stored in the slot of its own
    position, unless that slot is already settled. *)
Definition settle (outcomes : list (outcome A))
    (slots : list (option (outcome A))) (i : nat) : list (option (outcome A)) :=
  match slots !! i, outcomes !! i with
  | Some None, Some o => <[i := Some o]> slots
  | _, _ => slots
  end.

(** The slots once exactly the calls at the positions [finished] have
    finished. *)
Definition settled_by (outcomes : list (outcome A)) (finished : list nat)
    : list (option (outcome A)) :=
  imap (λ i o, if decide (i ∈ finished) then Some o else None) outcomes.

Definition run_slots (outcomes : list (outcome A)) (order : list nat)
    : list (option (outcome A)) :=
  foldl (settle outcomes) (replicate (length outcomes) None)
        (completions (length outcomes) order).

(** [asyncio.gather] with [return_exceptions=True]: the list of the
    calls' outcomes, exceptions included as values. *)
Definition gather_return_exceptions (outcomes : list (outcome A))
    (order : list nat) : list (outcome A) :=
  omap id (run_slots outcomes order).

(** [asyncio.gather] with its default [return_exceptions=False]: the first
    exception, in completion order, is raised to the awaiting caller; with
    none, the list of values. *)
Fixpoint first_raised (outcomes : list (outcome A)) (order : list nat)
    : option string :=
  match order with
  | [] => None
  | i :: rest =>
      match outcomes !! i with
      | Some (Raised msg) => Some msg
      | _ => first_raised outcomes rest
      end
  end.

Fixpoint values (outcomes : list (outcome A)) : list A :=
  match outcomes with
  | [] => []
  | Returned a :: rest => a :: values rest
  | Raised _ :: rest => values rest
  end.

Definition gather (outcomes : list (outcome A)) (order : list nat)
    : outcome (list A) :=
  match first_raised outcomes (completions (length outcomes) order) with
  | Some msg => Raised msg
  | None => Returned (values (gather_return_exceptions outcomes order))
  end.
End Gather.
End Asyncio.

(** ** [services/audio_transcriber.py] *)

Module AudioTranscriber.
Local Open Scope Z_scope.

Definition MAX_CHUNK_DURATION_MS : Z := 10 * 60 * 1000.
Definition OVERLAP_MS : Z := 5000.

(** A chunk [audio[start_ms:end_ms]] of the loaded recording, by its bounds in
    milliseconds.  The whole recording of length [d] is the chunk [(0, d)]. *)
Definition chunk : Type := Z * Z.

(** The [while] loop of [_split_audio]; [None] when [fuel] iterations do not
    reach the end of the loop. *)
Fixpoint split_loop (fuel : nat) (max_chunk overlap duration_ms start_ms : Z)
    (chunks : list chunk) : option (list chunk) :=
  match fuel with
  | O => None
  | S fuel' =>
      if start_ms <? duration_ms then
        let end_ms := Z.min (start_ms + max_chunk) duration_ms in
        let chunks := chunks ++ [(start_ms, end_ms)] in
        let start_ms := end_ms - overlap in
        if duration_ms - start_ms <? overlap * 2 then Some chunks
        else split_loop fuel' max_chunk overlap duration_ms start_ms chunks
      else Some chunks
  end.

Definition split (fuel : nat) (duration_ms max_chunk overlap : Z)
    : option (list chunk) :=
  if duration_ms <=? max_chunk then Some [(0, duration_ms)]
  else split_loop fuel max_chunk overlap duration_ms 0 [].

Definition _split_audio (fuel : nat) (duration_ms : Z) : option (list chunk) :=
  split fuel duration_ms MAX_CHUNK_DURATION_MS OVERLAP_MS.

(** The layout the splitter aims at, window by window: a window starts at the
    expected position and ends [max_chunk] later, clipped to the duration; the
    next window starts [overlap] before that end. *)
Fixpoint chained (max_chunk overlap duration_ms start_ms : Z)
    (chunks : list chunk) : Prop :=
  match chunks with
  | [] => True
  | (s, e) :: rest =>
      s = start_ms ∧ e = Z.min (s + max_chunk) duration_ms ∧
      chained max_chunk overlap duration_ms (e - overlap) rest
  end.

(** [_transcribe_large_file] after the recording is loaded: split, issue one
    [_transcribe_chunk(chunk, i, temp_dir)] per chunk, gather, join.  The
    speech-to-text call on chunk [i] is the oracle [transcribe_chunk i chunk].
    [None] only when [fuel] does not suffice for the split. *)
Definition _transcribe_large_file (pydub_available : bool)
    (transcribe_chunk : nat → chunk → outcome string)
    (fuel : nat) (duration_ms : Z) (order : list nat) : option (outcome string) :=
  if negb pydub_available then Some (Raised "pydub가 필요합니다: pip install pydub")
  else
    chunks ← _split_audio fuel duration_ms;
    let tasks := imap transcribe_chunk chunks in
    Some (results ←! Asyncio.gather tasks order;
          Returned (String.concat (nl +:+ nl) results)).

Definition SUPPORTED_FORMATS : list string :=
  [".mp3"; ".mp4"; ".mpeg"; ".mpga"; ".m4a"; ".wav"; ".webm"; ".ogg"; ".flac"].

(** What the code reads of the file at a path: the path as given, whether it
    exists, its [Path.suffix] and its size in bytes. *)
Record audio_file := {
  file_path : string;
  file_exists : bool;
  file_suffix : string;
  st_size : Z;
}.

Section Transcribe.
(** [str.lower], and the text of [', '.join(self.SUPPORTED_FORMATS)], which
    lists the set in the iteration order of the running interpreter. *)
Variable lower : string → string.
Variable formats_listing : string.

Definition _validate_file (file : audio_file) : outcome audio_file :=
  if negb (file_exists file) then
    Raised ("파일을 찾을 수 없습니다: " +:+ file_path file)
  else if negb (bool_decide (lower (file_suffix file) ∈ SUPPORTED_FORMATS)) then
    Raised ("지원하지 않는 형식입니다: " +:+ file_suffix file +:+ nl +:+
            "지원 형식: " +:+ formats_listing)
  else Returned file.

(** [file_size_mb > 25] for [file_size_mb = st_size / (1024 * 1024)]: the
    division by a power of two is exact, so the test is [st_size] exceeding
    25 * 1024 * 1024 bytes. *)
Definition over_25_mb (file : audio_file) : bool :=
  (25 * (1024 * 1024) <? st_size file)%Z.

(** [_transcribe_large_file] from its entry: the guard on [pydub], then
    [AudioSegment.from_file] and [len(audio)], whose outcome is [load_audio],
    then the code above. *)
Definition transcribe_large_file (pydub_available : bool)
    (load_audio : outcome Z)
    (transcribe_chunk : nat → chunk → outcome string)
    (fuel : nat) (order : list nat) : option (outcome string) :=
  if negb pydub_available then
    Some (Raised "pydub가 필요합니다: pip install pydub")
  else
    match load_audio with
    | Raised msg => Some (Raised msg)
    | Returned duration_ms =>
        _transcribe_large_file pydub_available transcribe_chunk fuel
          duration_ms order
    end.

(** [transcribe]; [single_call] is the outcome of [_transcribe_single_file],
    one speech-to-text call on the whole file. *)
Definition transcribe (pydub_available : bool) (file : audio_file)
    (single_call : outcome string) (load_audio : outcome Z)
    (transcribe_chunk : nat → chunk → outcome string)
    (fuel : nat) (order : list nat) : option (outcome string) :=
  match _validate_file file with
  | Raised msg => Some (Raised msg)
  | Returned path =>
      if over_25_mb path && pydub_available then
        transcribe_large_file pydub_available load_audio transcribe_chunk
          fuel order
      else Some single_call
  end.
End Transcribe.

End AudioTranscriber.

(** ** [autobiography_agents/orchestrator.py] *)

(** This module follows the state transitions of the pipeline for the runs
    in which the console takes every progress line and every failure is an
    instance of [Exception]; of an exception it keeps the message.  The
    [print] calls and the classes of the exceptions are followed in
    [OrchestratorIO] below, and [run_reading] shows that the two agree on
    these runs. *)

Module Orchestrator.

(** [life_stage_agents.LifeStorySection]. *)
Record LifeStorySection := {
  period : string;
  age_range : string;
  title : string;
  content : string;
  key_events : list string;
  emotions : list string;
  lessons_learned : option string;
  has_content : bool;
}.

Record Chapter := {
  ch_period : string;
  ch_title : string;
  ch_content : string;
}.

Record AutobiographyResult := {
  ab_title : string;
  ab_author_name : string;
  ab_prologue : string;
  ab_chapters : list Chapter;
  ab_epilogue : string;
  ab_key_themes : list string;
  ab_life_lessons : list string;
}.

Record AnalysisResult := {
  author_name : string;
  birth_year : option Z;
  current_age : option Z;
  summary : string;
  detected_periods : list string;
  main_themes : list string;
}.

Record AutobiographyState := {
  transcript : string;
  analysis : option AnalysisResult;
  childhood_chapter : option LifeStorySection;
  youth_chapter : option LifeStorySection;
  middle_age_chapter : option LifeStorySection;
  mature_chapter : option LifeStorySection;
  elderly_chapter : option LifeStorySection;
  final_autobiography : option AutobiographyResult;
  current_step : string;
  error : option string;
}.

(** *** Dictionary spreads [{**state, key: value, ...}] *)

(** [{**state, "error": msg, "current_step": "error"}]. *)
Definition spread_error (state : AutobiographyState) (msg : string)
    : AutobiographyState :=
  {| transcript := transcript state;
     analysis := analysis state;
     childhood_chapter := childhood_chapter state;
     youth_chapter := youth_chapter state;
     middle_age_chapter := middle_age_chapter state;
     mature_chapter := mature_chapter state;
     elderly_chapter := elderly_chapter state;
     final_autobiography := final_autobiography state;
     current_step := "error";
     error := Some msg |}.

(** [{**state, "analysis": a, "current_step": "chapters"}]. *)
Definition spread_analysis (state : AutobiographyState) (a : AnalysisResult)
    : AutobiographyState :=
  {| transcript := transcript state;
     analysis := Some a;
     childhood_chapter := childhood_chapter state;
     youth_chapter := youth_chapter state;
     middle_age_chapter := middle_age_chapter state;
     mature_chapter := mature_chapter state;
     elderly_chapter := elderly_chapter state;
     final_autobiography := final_autobiography state;
     current_step := "chapters";
     error := error state |}.

(** [{**state, "final_autobiography": r, "current_step": "complete"}]. *)
Definition spread_final (state : AutobiographyState) (r : AutobiographyResult)
    : AutobiographyState :=
  {| transcript := transcript state;
     analysis := analysis state;
     childhood_chapter := childhood_chapter state;
     youth_chapter := youth_chapter state;
     middle_age_chapter := middle_age_chapter state;
     mature_chapter := mature_chapter state;
     elderly_chapter := elderly_chapter state;
     final_autobiography := Some r;
     current_step := "complete";
     error := error state |}.

(** One entry [key: value] of the [chapters] dictionary written into the
    state.  The loop only ever builds the five keys below. *)
Definition set_chapter (state : AutobiographyState)
    (entry : string * option LifeStorySection) : AutobiographyState :=
  let '(key, value) := entry in
  {| transcript := transcript state;
     analysis := analysis state;
     childhood_chapter :=
       if String.eqb key "childhood_chapter" then value
       else childhood_chapter state;
     youth_chapter :=
       if String.eqb key "youth_chapter" then value else youth_chapter state;
     middle_age_chapter :=
       if String.eqb key "middle_age_chapter" then value
       else middle_age_chapter state;
     mature_chapter :=
       if String.eqb key "mature_chapter" then value else mature_chapter state;
     elderly_chapter :=
       if String.eqb key "elderly_chapter" then value
       else elderly_chapter state;
     final_autobiography := final_autobiography state;
     current_step := current_step state;
     error := error state |}.

Definition set_current_step (state : AutobiographyState) (step : string)
    : AutobiographyState :=
  {| transcript := transcript state;
     analysis := analysis state;
     childhood_chapter := childhood_chapter state;
     youth_chapter := youth_chapter state;
     middle_age_chapter := middle_age_chapter state;
     mature_chapter := mature_chapter state;
     elderly_chapter := elderly_chapter state;
     final_autobiography := final_autobiography state;
     current_step := step;
     error := error state |}.

(** [{**state, **chapters, "current_step": "integrate"}]. *)
Definition spread_chapters (state : AutobiographyState)
    (chapters : list (string * option LifeStorySection)) : AutobiographyState :=
  set_current_step (foldl set_chapter state chapters) "integrate".

(** *** The remote services of one run *)

Inductive life_stage := Childhood | Youth | MiddleAge | Mature | Elderly.

#[global] Instance life_stage_eq_dec : EqDecision life_stage.
Proof. solve_decision. Defined.

(** - [chat_model_init]: the message of the exception raised by constructing
      [ChatOpenAI(...)] in the [create_*] functions, [None] when construction
      succeeds;
    - [analyzer_ainvoke], [agent_ainvoke], [integrator_ainvoke]: the awaited
      [chain.ainvoke] calls, by their input;
    - [completion_order]: the order in which the five concurrent agent calls
      finish. *)
Record services := {
  chat_model_init : option string;
  analyzer_ainvoke : string → outcome AnalysisResult;
  agent_ainvoke : life_stage → string → outcome LifeStorySection;
  integrator_ainvoke : string → outcome AutobiographyResult;
  completion_order : list nat;
}.

(** The same services, except that the agent of [stage] answers [o]. *)
Definition with_agent (env : services) (stage : life_stage)
    (o : outcome LifeStorySection) : services :=
  {| chat_model_init := chat_model_init env;
     analyzer_ainvoke := analyzer_ainvoke env;
     agent_ainvoke := λ s transcript,
       if decide (s = stage) then o else agent_ainvoke env s transcript;
     integrator_ainvoke := integrator_ainvoke env;
     completion_order := completion_order env |}.

(** The same services with the five extraction calls finishing in the order
    [order]. *)
Definition with_completion_order (env : services) (order : list nat)
    : services :=
  {| chat_model_init := chat_model_init env;
     analyzer_ainvoke := analyzer_ainvoke env;
     agent_ainvoke := agent_ainvoke env;
     integrator_ainvoke := integrator_ainvoke env;
     completion_order := order |}.

(** *** Formatting helpers *)

(** [str(n)] for an [int]. *)
Definition str_int (n : Z) : string := NilZero.string_of_int (Z.to_int n).

(** [value or '불명'] for an [Optional[int]]: [None] and [0] are falsy. *)
Definition int_or (value : option Z) (default : string) : string :=
  match value with
  | Some n => if (n =? 0)%Z then default else str_int n
  | None => default
  end.

(** [value or default] for an [Optional[str]]. *)
Definition str_or (value : option string) (default : string) : string :=
  match value with
  | Some s => if truthy_str s then s else default
  | None => default
  end.

(** [sep.join(items)]. *)
Definition join (sep : string) (items : list string) : string :=
  String.concat sep items.

(** *** Graph nodes *)

(** A dictionary with string keys, in insertion order. *)
Fixpoint dict_get {V} (key : string) (d : list (string * V)) : option V :=
  match d with
  | [] => None
  | (k, v) :: rest => if String.eqb k key then Some v else dict_get key rest
  end.

Definition chapter_names : list string :=
  ["childhood"; "youth"; "middle_age"; "mature"; "elderly"].

Definition display_names : list string :=
  ["유년기"; "청년기"; "중년기"; "장년기"; "노년기"].

(** The rendering of one [(period, age_range, chapter)] triple by the loop of
    [integrate_node]. *)
Definition missing_info (period age_range : string) : string :=
  nl +:+ "## " +:+ period +:+ " (" +:+ age_range +:+ ")" +:+ nl +:+
  "해당 시기에 대한 정보가 부족합니다." +:+ nl.

Definition chapter_info (period age_range : string)
    (chapter : option LifeStorySection) : string :=
  match chapter with
  | Some chapter =>
      if has_content chapter then
        nl +:+ "## " +:+ period +:+ " (" +:+ age_range +:+ ")" +:+ nl +:+
        "제목: " +:+ title chapter +:+ nl +:+
        "내용: " +:+ content chapter +:+ nl +:+
        "주요 사건: " +:+ join ", " (key_events chapter) +:+ nl +:+
        "감정: " +:+ join ", " (emotions chapter) +:+ nl +:+
        "교훈: " +:+ str_or (lessons_learned chapter) "없음" +:+ nl
      else missing_info period age_range
  | None => missing_info period age_range
  end.

Definition chapter_data (state : AutobiographyState)
    : list (string * string * option LifeStorySection) :=
  [ ("유년기", "0-12세", childhood_chapter state);
    ("청년기", "13-29세", youth_chapter state);
    ("중년기", "30-49세", middle_age_chapter state);
    ("장년기", "50-64세", mature_chapter state);
    ("노년기", "65세 이상", elderly_chapter state) ].

Definition chapters_info (state : AutobiographyState) : list string :=
  (λ '(period, age_range, chapter), chapter_info period age_range chapter)
    <$> chapter_data state.

(** The five period slots of a state and the five periods with their age
    ranges, both in the order childhood, youth, middle age, mature age,
    elderly. *)
Definition period_slots (state : AutobiographyState)
    : list (option LifeStorySection) :=
  [ childhood_chapter state; youth_chapter state; middle_age_chapter state;
    mature_chapter state; elderly_chapter state ].

Definition canonical_periods : list (string * string) :=
  [ ("유년기", "0-12세"); ("청년기", "13-29세"); ("중년기", "30-49세");
    ("장년기", "50-64세"); ("노년기", "65세 이상") ].

Definition heading (period age_range : string) : string :=
  nl +:+ "## " +:+ period +:+ " (" +:+ age_range +:+ ")" +:+ nl.

(** A slot without usable content: no extraction, or one that reports
    [has_content = False]. *)
Definition absent (chapter : option LifeStorySection) : bool :=
  match chapter with
  | Some chapter => negb (has_content chapter)
  | None => true
  end.

(** What a period slot contributes to the integration request. *)
Definition slot_entry (p : string * string)
    (chapter : option LifeStorySection) : string :=
  if absent chapter then missing_info p.1 p.2
  else chapter_info p.1 p.2 chapter.

(** A failed branch leaves its slot empty. *)
Definition slot_of_outcome (o : outcome LifeStorySection)
    : option LifeStorySection :=
  match o with
  | Returned section => Some section
  | Raised _ => None
  end.

Definition integration_input (analysis : AnalysisResult)
    (chapters_info : list string) : string :=
  nl +:+ "다음 내용을 바탕으로 완성된 자서전을 작성해주세요." +:+ nl +:+
  nl +:+ "## 저자 정보" +:+ nl +:+
  "이름: " +:+ author_name analysis +:+ nl +:+
  "출생년도: " +:+ int_or (birth_year analysis) "불명" +:+ nl +:+
  "현재 나이: " +:+ int_or (current_age analysis) "불명" +:+ nl +:+
  nl +:+ "## 일대기 요약" +:+ nl +:+
  summary analysis +:+ nl +:+
  nl +:+ "## 감지된 인생 시기" +:+ nl +:+
  join ", " (detected_periods analysis) +:+ nl +:+
  nl +:+ "## 주요 테마" +:+ nl +:+
  join ", " (main_themes analysis) +:+ nl +:+
  nl +:+ "---" +:+ nl +:+
  join "" chapters_info +:+ nl +:+
  "---" +:+ nl +:+
  nl +:+ "위 내용을 하나의 완성된 자서전으로 통합해주세요." +:+ nl +:+
  "제목, 프롤로그, 각 챕터(period, title, content를 포함한 dict), 에필로그를 포함하여 완성도 높은 자서전을 작성하세요." +:+ nl.

(** *** What the integration request is expected to say

    The definitions of this part are not taken from the code.  They spell
    out, text by text, what the request must contain for each period slot,
    and the theorems compare the code's request with them. *)

(** The entry of a period without usable content: the period's heading,
    then the sentence that information on the period is insufficient. *)
Definition insufficient_information (period age_range : string) : string :=
  nl +:+ "## " +:+ period +:+ " (" +:+ age_range +:+ ")" +:+ nl +:+
  "해당 시기에 대한 정보가 부족합니다." +:+ nl.

(** The entry of a period with content: the period's heading, then title,
    content, key events, emotions and lessons of the extraction, one per
    line. *)
Definition full_extraction (period age_range : string)
    (chapter : LifeStorySection) : string :=
  nl +:+ "## " +:+ period +:+ " (" +:+ age_range +:+ ")" +:+ nl +:+
  "제목: " +:+ title chapter +:+ nl +:+
  "내용: " +:+ content chapter +:+ nl +:+
  "주요 사건: " +:+ String.concat ", " (key_events chapter) +:+ nl +:+
  "감정: " +:+ String.concat ", " (emotions chapter) +:+ nl +:+
  "교훈: " +:+
  match lessons_learned chapter with
  | Some (String c rest) => String c rest
  | _ => "없음"
  end +:+ nl.

Definition expected_entry (p : string * string)
    (slot : option LifeStorySection) : string :=
  match slot with
  | Some chapter =>
      if has_content chapter then full_extraction p.1 p.2 chapter
      else insufficient_information p.1 p.2
  | None => insufficient_information p.1 p.2
  end.

(** The request before and after the period entries. *)
Definition request_header (analysis : AnalysisResult) : string :=
  nl +:+ "다음 내용을 바탕으로 완성된 자서전을 작성해주세요." +:+ nl +:+
  nl +:+ "## 저자 정보" +:+ nl +:+
  "이름: " +:+ author_name analysis +:+ nl +:+
  "출생년도: " +:+ int_or (birth_year analysis) "불명" +:+ nl +:+
  "현재 나이: " +:+ int_or (current_age analysis) "불명" +:+ nl +:+
  nl +:+ "## 일대기 요약" +:+ nl +:+
  summary analysis +:+ nl +:+
  nl +:+ "## 감지된 인생 시기" +:+ nl +:+
  String.concat ", " (detected_periods analysis) +:+ nl +:+
  nl +:+ "## 주요 테마" +:+ nl +:+
  String.concat ", " (main_themes analysis) +:+ nl +:+
  nl +:+ "---" +:+ nl.

Definition request_footer : string :=
  nl +:+ "---" +:+ nl +:+
  nl +:+ "위 내용을 하나의 완성된 자서전으로 통합해주세요." +:+ nl +:+
  "제목, 프롤로그, 각 챕터(period, title, content를 포함한 dict), 에필로그를 포함하여 완성도 높은 자서전을 작성하세요." +:+ nl.

(** The state key, the position and the period of a life stage. *)
Definition stage_key (stage : life_stage) : string :=
  match stage with
  | Childhood => "childhood_chapter"
  | Youth => "youth_chapter"
  | MiddleAge => "middle_age_chapter"
  | Mature => "mature_chapter"
  | Elderly => "elderly_chapter"
  end.

Definition stage_index (stage : life_stage) : nat :=
  match stage with
  | Childhood => 0
  | Youth => 1
  | MiddleAge => 2
  | Mature => 3
  | Elderly => 4
  end.

Definition stage_period (stage : life_stage) : string * string :=
  match stage with
  | Childhood => ("유년기", "0-12세")
  | Youth => ("청년기", "13-29세")
  | MiddleAge => ("중년기", "30-49세")
  | Mature => ("장년기", "50-64세")
  | Elderly => ("노년기", "65세 이상")
  end.

(** The loop of [write_chapters_node] over
    [zip(chapter_names, display_names, results)], for results that are
    extractions or instances of [Exception]: the test
    [isinstance(result, Exception)] is then the test for a raised call.
    [OrchestratorIO.collect_chapters] has the printed lines and the other
    exception objects. *)
Definition collect_chapters (results : list (outcome LifeStorySection))
    : list (string * option LifeStorySection) :=
  (λ '(name, _, result),
     (name +:+ "_chapter",
      match result with
      | Raised _ => None
      | Returned section => Some section
      end))
    <$> zip (zip chapter_names display_names) results.

Section Nodes.
Variable env : services.

(** [ChatOpenAI(...)] inside [create_analyzer_chain], [create_*_agent] and
    [create_integrator_chain]. *)
Definition create_chain : outcome unit :=
  match chat_model_init env with
  | Some msg => Raised msg
  | None => Returned tt
  end.

Definition analyze_body (state : AutobiographyState)
    : outcome AutobiographyState :=
  _ ←! create_chain;
  analysis ←! analyzer_ainvoke env (transcript state);
  Returned (spread_analysis state analysis).

Definition analyze_node (state : AutobiographyState) : AutobiographyState :=
  try_except (analyze_body state) (spread_error state).

Definition write_chapters_body (state : AutobiographyState)
    : outcome AutobiographyState :=
  let transcript := transcript state in
  _ ←! create_chain;
  _ ←! create_chain;
  _ ←! create_chain;
  _ ←! create_chain;
  _ ←! create_chain;
  let results :=
    Asyncio.gather_return_exceptions
      [ agent_ainvoke env Childhood transcript;
        agent_ainvoke env Youth transcript;
        agent_ainvoke env MiddleAge transcript;
        agent_ainvoke env Mature transcript;
        agent_ainvoke env Elderly transcript ]
      (completion_order env) in
  let chapters := collect_chapters results in
  Returned (spread_chapters state chapters).

Definition write_chapters_node (state : AutobiographyState)
    : AutobiographyState :=
  try_except (write_chapters_body state) (spread_error state).

(** [analysis.author_name] on the value of [state["analysis"]]. *)
Definition require_analysis (analysis : option AnalysisResult)
    : outcome AnalysisResult :=
  match analysis with
  | Some a => Returned a
  | None => Raised "'NoneType' object has no attribute 'author_name'"
  end.

Definition integrate_body (state : AutobiographyState)
    : outcome AutobiographyState :=
  let chapters_info := chapters_info state in
  analysis ←! require_analysis (analysis state);
  let integration_input := integration_input analysis chapters_info in
  _ ←! create_chain;
  result ←! integrator_ainvoke env integration_input;
  Returned (spread_final state result).

Definition integrate_node (state : AutobiographyState) : AutobiographyState :=
  try_except (integrate_body state) (spread_error state).

(** *** The graph *)

Definition should_continue (state : AutobiographyState) : string :=
  if truthy_opt_str (error state) then "error" else current_step state.

Inductive target :=
| Node (name : string)
| END.

(** A compiled [StateGraph]: its nodes by name, its entry point and, per
    node, the routing function with the dictionary from its answers to
    targets. *)
Record graph := {
  nodes : list (string * (AutobiographyState → AutobiographyState));
  entry_point : string;
  conditional_edges :
    list (string * ((AutobiographyState → string) * list (string * target)));
}.

Definition create_orchestrator : graph :=
  {| nodes :=
       [ ("analyze", analyze_node);
         ("write_chapters", write_chapters_node);
         ("integrate", integrate_node) ];
     entry_point := "analyze";
     conditional_edges :=
       [ ("analyze",
          (should_continue,
           [("chapters", Node "write_chapters"); ("error", END)]));
         ("write_chapters",
          (should_continue,
           [("integrate", Node "integrate"); ("error", END)]));
         ("integrate",
          (should_continue, [("complete", END); ("error", END)])) ] |}.

(** The graph driver: run the node, ask its routing function, follow the
    edge.  It gives up after [limit] node runs, as the library does at its
    recursion limit.  Returns the names of the nodes run, in order, and the
    final state. *)
Fixpoint run_from (g : graph) (limit : nat) (name : string)
    (state : AutobiographyState) (visited : list string)
    : outcome (list string * AutobiographyState) :=
  match limit with
  | O => Raised "GraphRecursionError"
  | S limit' =>
      match dict_get name (nodes g), dict_get name (conditional_edges g) with
      | Some node, Some (path, path_map) =>
          let state := node state in
          let visited := visited ++ [name] in
          match dict_get (path state) path_map with
          | Some END => Returned (visited, state)
          | Some (Node next) => run_from g limit' next state visited
          | None => Raised ("KeyError: " +:+ path state)
          end
      | _, _ => Raised ("unknown node: " +:+ name)
      end
  end.

Definition recursion_limit : nat := 25.

Definition ainvoke (g : graph) (state : AutobiographyState)
    : outcome (list string * AutobiographyState) :=
  run_from g recursion_limit (entry_point g) state [].

Definition initial_state (transcript : string) : AutobiographyState :=
  {| transcript := transcript;
     analysis := None;
     childhood_chapter := None;
     youth_chapter := None;
     middle_age_chapter := None;
     mature_chapter := None;
     elderly_chapter := None;
     final_autobiography := None;
     current_step := "analyze";
     error := None |}.

(** The graph run of [run_autobiography_generation]: nodes run and final
    state. *)
Definition run_graph (transcript : string)
    : outcome (list string * AutobiographyState) :=
  ainvoke create_orchestrator (initial_state transcript).

Definition run_autobiography_generation (transcript : string)
    : outcome (option AutobiographyResult) :=
  run ←! run_graph transcript;
  let final_state := run.2 in
  if truthy_opt_str (error final_state) then
    Raised ("자서전 생성 중 오류 발생: " +:+ default "" (error final_state))
  else Returned (final_autobiography final_state).
End Nodes.

End Orchestrator.

(** ** Concrete inputs *)

Module Examples.
Import AudioTranscriber.

(** A speech-to-text service that answers each chunk with a text naming the
    chunk's position. *)
Definition numbered_text (i : nat) (c : chunk) : string :=
  match i with
  | 0 => "first"
  | 1 => "second"
  | _ => "later"
  end.

Definition numbered_service (i : nat) (c : chunk) : outcome string :=
  Returned (numbered_text i c).

(** The third chunk's call finishes first, then the first, then the second. *)
Definition third_chunk_first : list nat := [2; 0; 1].

Import Orchestrator.

Definition sample_analysis : AnalysisResult :=
  {| author_name := "Kim";
     birth_year := Some 1950%Z;
     current_age := None;
     summary := "A long life.";
     detected_periods := ["유년기"; "노년기"];
     main_themes := ["family"] |}.

Definition sample_result : AutobiographyResult :=
  {| ab_title := "My life";
     ab_author_name := "Kim";
     ab_prologue := "Prologue";
     ab_chapters := [];
     ab_epilogue := "Epilogue";
     ab_key_themes := ["family"];
     ab_life_lessons := ["patience"] |}.

(** An extraction in which the model reports no evidence for the period. *)
Definition no_content_section : LifeStorySection :=
  {| period := "청년기";
     age_range := "13-29세";
     title := "";
     content := "";
     key_events := [];
     emotions := [];
     lessons_learned := None;
     has_content := false |}.

(** All five extraction calls fail, finishing in reverse order. *)
Definition all_branches_fail : services :=
  {| chat_model_init := None;
     analyzer_ainvoke := λ _, Returned sample_analysis;
     agent_ainvoke := λ _ _, Raised "Request timed out.";
     integrator_ainvoke := λ _, Returned sample_result;
     completion_order := [4; 3; 2; 1; 0] |}.

(** The analysis call raises an exception whose [str] is empty, such as a
    bare [AssertionError()] or [asyncio.TimeoutError()]. *)
Definition silent_analysis_failure : services :=
  {| chat_model_init := None;
     analyzer_ainvoke := λ _, Raised "";
     agent_ainvoke := λ _ _, Returned no_content_section;
     integrator_ainvoke := λ _, Returned sample_result;
     completion_order := [] |}.

(** The integration call raises an exception whose [str] is empty. *)
Definition silent_integration_failure : services :=
  {| chat_model_init := None;
     analyzer_ainvoke := λ _, Returned sample_analysis;
     agent_ainvoke := λ _ _, Returned no_content_section;
     integrator_ainvoke := λ _, Raised "";
     completion_order := [] |}.

(** The state in which the extraction step starts after a successful
    analysis. *)
Definition analysed_state : AutobiographyState :=
  spread_analysis (initial_state "transcript") sample_analysis.

End Examples.

(** ** [services/file_handler.py] *)

Module FileHandler.

Definition SUPPORTED_TEXT_FORMATS : list string := [".txt"; ".md"; ".text"].

Definition SUPPORTED_AUDIO_FORMATS : list string :=
  [".mp3"; ".mp4"; ".mpeg"; ".mpga"; ".m4a"; ".wav"; ".webm"; ".ogg"; ".flac"].

Section DetectInputType.
(** [str.lower], and the texts of the two [', '.join(...)] over the format
    sets, in the iteration order of the running interpreter. *)
Variable lower : string → string.
Variables text_listing audio_listing : string.

(** [detect_input_type], from the [Path.suffix] of the file path. *)
Definition detect_input_type (path_suffix : string) : outcome string :=
  let suffix := lower path_suffix in
  if bool_decide (suffix ∈ SUPPORTED_TEXT_FORMATS) then Returned "text"
  else if bool_decide (suffix ∈ SUPPORTED_AUDIO_FORMATS) then Returned "audio"
  else
    Raised ("지원하지 않는 파일 형식입니다: " +:+ suffix +:+ nl +:+
            "지원 텍스트 형식: " +:+ text_listing +:+ nl +:+
            "지원 오디오 형식: " +:+ audio_listing).
End DetectInputType.

(** *** File names *)

(** A Python [str] as the list of its code points.  [_sanitize_filename]
    works character by character, and [str.strip] removes characters beyond
    ASCII. *)
Definition pystr : Type := list N.

(** The code points of the nine characters of [invalid_chars]: less-than,
    greater-than, colon, double quote, slash, backslash, vertical bar,
    question mark, asterisk. *)
Definition invalid_chars : pystr := [60; 62; 58; 34; 47; 92; 124; 63; 42]%N.

Definition underscore : N := 95%N.

(** [s.replace(old, new)] for one-character [old] and [new]. *)
Definition replace (old new : N) (s : pystr) : pystr :=
  (λ c, if (c =? old)%N then new else c) <$> s.

(** [str.isspace] on one character: the whitespace of [str.strip()]. *)
Definition isspace (c : N) : bool :=
  ((9 <=? c) && (c <=? 13) || (28 <=? c) && (c <=? 32) ||
   (c =? 133) || (c =? 160) || (c =? 5760) ||
   (8192 <=? c) && (c <=? 8202) ||
   (c =? 8232) || (c =? 8233) || (c =? 8239) || (c =? 8287) ||
   (c =? 12288))%N.

Fixpoint lstrip (s : pystr) : pystr :=
  match s with
  | [] => []
  | c :: rest => if isspace c then lstrip rest else s
  end.

Definition rstrip (s : pystr) : pystr := reverse (lstrip (reverse s)).

Definition strip (s : pystr) : pystr := rstrip (lstrip s).

Definition _sanitize_filename (name : pystr) : pystr :=
  strip (foldl (λ name char, replace char underscore name) name invalid_chars).

(** The text ["_자서전_"] between the author's name and the timestamp. *)
Definition autobiography_infix : pystr := [95; 51088; 49436; 51204; 95]%N.

(** [base_name] of [save_autobiography], from the author's name and the text
    of [datetime.now().strftime("%Y%m%d_%H%M%S")]. *)
Definition base_name (author_name timestamp : pystr) : pystr :=
  _sanitize_filename author_name ++ autobiography_infix ++ timestamp.

(** The characters [strftime("%Y%m%d_%H%M%S")] produces: digits and the
    underscore of the format. *)
Definition timestamp_char (c : N) : bool :=
  ((48 <=? c) && (c <=? 57) || (c =? 95))%N.

(** A name that neither starts nor ends with whitespace. *)
Definition no_outer_space (s : pystr) : Prop :=
  (∀ c, head s = Some c → isspace c = false) ∧
  (∀ c, list.last s = Some c → isspace c = false).

(** A name [_sanitize_filename] has nothing to do on. *)
Definition clean_name (s : pystr) : Prop :=
  Forall (λ c, c ∉ invalid_chars) s ∧ no_outer_space s.

(** *** Rendering *)

(** A value of the [chapters] list: a dictionary, of which the code reads
    the keys [title], [content] and [period] ([None] for an absent key), or
    anything else, of which it takes [str(chapter)]. *)
Inductive chapter_value :=
| ChapterDict (title content period : option string)
| ChapterOther (text : string).

(** The [data] dictionary, by the keys the renderers read; [None] is an
    absent key. *)
Record autobiography_data := {
  d_title : option string;
  d_author_name : option string;
  d_prologue : option string;
  d_chapters : option (list chapter_value);
  d_epilogue : option string;
  d_key_themes : option (list string);
  d_life_lessons : option (list string);
}.

(** [str(i)] for the chapter counter. *)
Definition str_nat (i : nat) : string := NilZero.string_of_uint (Nat.to_uint i).

(** [c * n] for a one-character string. *)
Definition times (c : string) (n : nat) : string :=
  String.concat "" (replicate n c).

Definition markdown_chapter (i : nat) (chapter : chapter_value) : list string :=
  match chapter with
  | ChapterDict title content period =>
      let chapter_title := default ("제" +:+ str_nat i +:+ "장") title in
      let chapter_content := default "" content in
      let chapter_period := default "" period in
      ["## 제" +:+ str_nat i +:+ "장: " +:+ chapter_title] ++
      (if truthy_str chapter_period then ["*" +:+ chapter_period +:+ "*" +:+ nl]
       else []) ++
      [chapter_content; nl]
  | ChapterOther text =>
      ["## 제" +:+ str_nat i +:+ "장" +:+ nl; text; nl]
  end.

(** The loop [for i, chapter in enumerate(chapters, 1)], from counter [i]. *)
Fixpoint markdown_chapters (i : nat) (chapters : list chapter_value)
    : list string :=
  match chapters with
  | [] => []
  | chapter :: rest => markdown_chapter i chapter ++ markdown_chapters (S i) rest
  end.

Definition bullet_lines (bullet : string) (items : list string) : list string :=
  (λ item, bullet +:+ item) <$> items.

Definition markdown_lines (data : autobiography_data) : list string :=
  let title := default "나의 이야기" (d_title data) in
  let author := default "저자 미상" (d_author_name data) in
  let prologue := default "" (d_prologue data) in
  let chapters := default [] (d_chapters data) in
  let epilogue := default "" (d_epilogue data) in
  let themes := default [] (d_key_themes data) in
  let lessons := default [] (d_life_lessons data) in
  ["# " +:+ title; nl +:+ "**저자: " +:+ author +:+ "**" +:+ nl; "---" +:+ nl] ++
  (if truthy_str prologue
   then ["## 프롤로그" +:+ nl; prologue; nl +:+ "---" +:+ nl] else []) ++
  markdown_chapters 1 chapters ++
  (if truthy_str epilogue
   then ["---" +:+ nl; "## 에필로그" +:+ nl; epilogue; nl] else []) ++
  (match themes with
   | [] => []
   | _ => ["---" +:+ nl; "### 이 자서전의 핵심 주제" +:+ nl] ++
          bullet_lines "- " themes ++ [nl]
   end) ++
  (match lessons with
   | [] => []
   | _ => ["### 삶의 교훈" +:+ nl] ++ bullet_lines "- " lessons ++ [nl]
   end).

Definition _to_markdown (data : autobiography_data) : string :=
  String.concat nl (markdown_lines data).

Definition plain_chapter (i : nat) (chapter : chapter_value) : list string :=
  match chapter with
  | ChapterDict title content period =>
      let chapter_title := default ("제" +:+ str_nat i +:+ "장") title in
      let chapter_content := default "" content in
      let chapter_period := default "" period in
      ["[제" +:+ str_nat i +:+ "장: " +:+ chapter_title +:+ "]"] ++
      (if truthy_str chapter_period then ["(" +:+ chapter_period +:+ ")" +:+ nl]
       else []) ++
      [chapter_content]
  | ChapterOther text =>
      ["[제" +:+ str_nat i +:+ "장]" +:+ nl; text]
  end ++ [nl +:+ times "-" 40 +:+ nl].

Fixpoint plain_chapters (i : nat) (chapters : list chapter_value)
    : list string :=
  match chapters with
  | [] => []
  | chapter :: rest => plain_chapter i chapter ++ plain_chapters (S i) rest
  end.

Definition plain_lines (data : autobiography_data) : list string :=
  let title := default "나의 이야기" (d_title data) in
  let author := default "저자 미상" (d_author_name data) in
  let prologue := default "" (d_prologue data) in
  let chapters := default [] (d_chapters data) in
  let epilogue := default "" (d_epilogue data) in
  let themes := default [] (d_key_themes data) in
  let lessons := default [] (d_life_lessons data) in
  [times "=" 50; title; "저자: " +:+ author; times "=" 50 +:+ nl] ++
  (if truthy_str prologue
   then ["[프롤로그]" +:+ nl; prologue; nl +:+ times "-" 40 +:+ nl] else []) ++
  plain_chapters 1 chapters ++
  (if truthy_str epilogue then ["[에필로그]" +:+ nl; epilogue; nl] else []) ++
  (match themes with
   | [] => []
   | _ => [times "=" 50; "[이 자서전의 핵심 주제]"] ++
          bullet_lines "  • " themes ++ [""]
   end) ++
  (match lessons with
   | [] => []
   | _ => ["[삶의 교훈]"] ++ bullet_lines "  • " lessons
   end).

Definition _to_plain_text (data : autobiography_data) : string :=
  String.concat nl (plain_lines data).

(** [small] occurs in [big]. *)
Definition occurs_in (small big : string) : Prop :=
  ∃ before after, big = before +:+ small +:+ after.

End FileHandler.

(** ** [api/schemas.py] and [api/routes.py] *)

Module Routes.
Import stdpp.gmap.

Record ChapterResponse := {
  cr_period : string;
  cr_title : string;
  cr_content : string;
  cr_age_range : option string;
}.

Record AutobiographyResponse := {
  success : bool;
  ar_title : string;
  ar_author_name : string;
  ar_prologue : string;
  ar_chapters : list ChapterResponse;
  ar_epilogue : string;
  ar_key_themes : list string;
  ar_life_lessons : list string;
  generated_at : Z;
}.

Record JobStatus := {
  job_id : string;
  status : string;
  progress : option Z;
  result : option AutobiographyResponse;
  job_error : option string;
  created_at : Z;
  updated_at : Z;
}.

Record JobCreateResponse := {
  jc_job_id : string;
  jc_status : string;
  jc_message : string;
}.

(** What an endpoint gives the framework: a response body, or a raised
    [HTTPException]. *)
Inductive http (A : Type) : Type :=
| Response (body : A)
| HTTPException (status_code : Z) (detail : string).
Arguments Response {A} body.
Arguments HTTPException {A} status_code detail.

Definition allowed_extensions : list string :=
  [".mp3"; ".mp4"; ".mpeg"; ".mpga"; ".m4a"; ".wav"; ".webm"; ".ogg"; ".flac"].

(** The conversion of the pipeline's result that both generation endpoints
    carry out, with the reading [now] of the clock for [generated_at].  On
    [None], [hasattr(result, 'chapters')] is false and [result.title] raises
    [AttributeError]. *)
Definition chapter_response (ch : Orchestrator.Chapter) : ChapterResponse :=
  {| cr_period := Orchestrator.ch_period ch;
     cr_title := Orchestrator.ch_title ch;
     cr_content := Orchestrator.ch_content ch;
     cr_age_range := None |}.

Definition build_response (result : option Orchestrator.AutobiographyResult)
    (now : Z) : outcome AutobiographyResponse :=
  match result with
  | None => Raised "'NoneType' object has no attribute 'title'"
  | Some r =>
      Returned
        {| success := true;
           ar_title := Orchestrator.ab_title r;
           ar_author_name := Orchestrator.ab_author_name r;
           ar_prologue := Orchestrator.ab_prologue r;
           ar_chapters := chapter_response <$> Orchestrator.ab_chapters r;
           ar_epilogue := Orchestrator.ab_epilogue r;
           ar_key_themes := Orchestrator.ab_key_themes r;
           ar_life_lessons := Orchestrator.ab_life_lessons r;
           generated_at := now |}
  end.

Section Endpoints.
Variable env : Orchestrator.services.

(** [generate_autobiography]. *)
Definition generate_autobiography (now : Z) (transcript : string)
    : http AutobiographyResponse :=
  match (result ←! Orchestrator.run_autobiography_generation env transcript;
         build_response result now) with
  | Returned response => Response response
  | Raised msg => HTTPException 500 ("자서전 생성 중 오류 발생: " +:+ msg)
  end.

(** The job store: job identifiers to job records. *)
Definition pending_job (new_id : string) (now1 now2 : Z) : JobStatus :=
  {| job_id := new_id;
     status := "pending";
     progress := Some 0%Z;
     result := None;
     job_error := None;
     created_at := now1;
     updated_at := now2 |}.

(** [generate_autobiography_async], with the identifier [uuid.uuid4()]
    produced and two readings of the clock: the new store, the response and
    the arguments of the scheduled background task. *)
Definition generate_autobiography_async (new_id : string) (now1 now2 : Z)
    (transcript : string) (job_store : gmap string JobStatus)
    : gmap string JobStatus * JobCreateResponse * (string * string) :=
  (<[new_id := pending_job new_id now1 now2]> job_store,
   {| jc_job_id := new_id;
      jc_status := "pending";
      jc_message :=
        "자서전 생성 작업이 시작되었습니다. /jobs/{job_id} 에서 상태를 확인하세요." |},
   (new_id, transcript)).

Definition set_processing (job : JobStatus) (now : Z) : JobStatus :=
  {| job_id := job_id job;
     status := "processing";
     progress := Some 10%Z;
     result := result job;
     job_error := job_error job;
     created_at := created_at job;
     updated_at := now |}.

(** [status = "completed"] and [progress = 100], which the code writes before
    it builds the response. *)
Definition set_completed (job : JobStatus) : JobStatus :=
  {| job_id := job_id job;
     status := "completed";
     progress := Some 100%Z;
     result := result job;
     job_error := job_error job;
     created_at := created_at job;
     updated_at := updated_at job |}.

Definition set_result (job : JobStatus) (response : AutobiographyResponse)
    (now : Z) : JobStatus :=
  {| job_id := job_id job;
     status := status job;
     progress := progress job;
     result := Some response;
     job_error := job_error job;
     created_at := created_at job;
     updated_at := now |}.

Definition set_failed (job : JobStatus) (msg : string) (now : Z) : JobStatus :=
  {| job_id := job_id job;
     status := "failed";
     progress := progress job;
     result := result job;
     job_error := Some msg;
     created_at := created_at job;
     updated_at := now |}.

(** [process_autobiography_job].  [repr] is Python's [repr] of a [str], the
    text of a [KeyError]; [clock n] is the [n]-th reading of
    [datetime.now()] during the call.  Without a record for [id] the first
    assignment raises [KeyError], and so does the first assignment of the
    handler, which nothing catches.  With a record, the handler works on
    whatever the [try] block had written when it failed: the record still
    in progress when the pipeline raised, the record already marked
    completed when building the response raised. *)
Definition process_autobiography_job (repr : string → string) (clock : nat → Z)
    (id transcript : string) (job_store : gmap string JobStatus)
    : gmap string JobStatus * outcome () :=
  match job_store !! id with
  | None => (job_store, Raised (repr id))
  | Some job =>
      let job := set_processing job (clock 0) in
      match Orchestrator.run_autobiography_generation env transcript with
      | Raised msg =>
          (<[id := set_failed job msg (clock 1)]> job_store, Returned ())
      | Returned result =>
          let job := set_completed job in
          match build_response result (clock 1) with
          | Returned response =>
              (<[id := set_result job response (clock 2)]> job_store,
               Returned ())
          | Raised msg =>
              (<[id := set_failed job msg (clock 1)]> job_store, Returned ())
          end
      end
  end.

(** [get_job_status]. *)
Definition get_job_status (id : string) (job_store : gmap string JobStatus)
    : http JobStatus :=
  match job_store !! id with
  | None => HTTPException 404 ("작업을 찾을 수 없습니다: " +:+ id)
  | Some job => Response job
  end.
End Endpoints.

End Routes.

(** ** Further concrete inputs *)

Module MoreExamples.
Import AudioTranscriber Orchestrator.

(** A speech-to-text service that fails on the second chunk only. *)
Definition second_chunk_fails (i : nat) (c : chunk) : outcome string :=
  match i with
  | 1 => Raised "Connection error."
  | _ => Returned (Examples.numbered_text i c)
  end.

(** The analysis call fails with a message. *)
Definition analysis_times_out : services :=
  {| chat_model_init := None;
     analyzer_ainvoke := λ _, Raised "Request timed out.";
     agent_ainvoke := λ _ _, Returned Examples.no_content_section;
     integrator_ainvoke := λ _, Returned Examples.sample_result;
     completion_order := [] |}.

(** A state that already carries an error message. *)
Definition failed_state : AutobiographyState :=
  spread_error (initial_state "transcript") "earlier failure".

(** The author name ["a/b "] and the timestamp ["20240131_093000"], as code
    points. *)
Definition slashed_author : FileHandler.pystr := [97; 47; 98; 32]%N.

Definition sample_timestamp : FileHandler.pystr :=
  [50; 48; 50; 52; 48; 49; 51; 49; 95; 48; 57; 51; 48; 48; 48]%N.

(** An existing audio file of 40 MiB and one of 1 MiB. *)
Definition large_recording : audio_file :=
  {| file_path := "interview.MP3";
     file_exists := true;
     file_suffix := ".MP3";
     st_size := 41943040 |}.

Definition small_recording : audio_file :=
  {| file_path := "note.wav";
     file_exists := true;
     file_suffix := ".wav";
     st_size := 1048576 |}.

(** A [str.lower] for the suffixes above. *)
Definition lower_example (s : string) : string :=
  if String.eqb s ".MP3" then ".mp3" else s.

(** A result with two chapters, as [model_dump()] hands it to the
    renderers. *)
Definition two_chapters : FileHandler.autobiography_data :=
  {| FileHandler.d_title := Some "My life";
     FileHandler.d_author_name := Some "Kim";
     FileHandler.d_prologue := Some "";
     FileHandler.d_chapters :=
       Some [ FileHandler.ChapterDict (Some "Home") (Some "We lived by the sea.")
                (Some "유년기");
              FileHandler.ChapterDict (Some "Work") (Some "I became a teacher.")
                (Some "중년기") ];
     FileHandler.d_epilogue := Some "";
     FileHandler.d_key_themes := Some [];
     FileHandler.d_life_lessons := Some [] |}.

End MoreExamples.

(** ** [autobiography_agents/orchestrator.py], with its console output and
       the classes of its exceptions *)

(** [Orchestrator] above follows the pipeline for a console that accepts
    every progress line and for calls whose failures are instances of
    [Exception], and keeps of an exception its message only.  This module
    follows the same source lines without the two assumptions: every
    [print] is a call that may raise, an exception carries its class, and
    [except Exception] catches the instances of [Exception] only.
    [KeyboardInterrupt] and [SystemExit], which end the event loop itself,
    are left out: an [exn] is an exception that a task can store. *)

Module OrchestratorIO.
Import Orchestrator.

(** A raised exception object: the name of its class, [str(e)], and whether
    the class derives from [Exception].  [asyncio.CancelledError] derives
    from [BaseException] only. *)
Record exn := {
  exn_class : string;
  exn_str : string;
  is_Exception : bool;
}.

(** [Exception(msg)]. *)
Definition Exception (msg : string) : exn :=
  {| exn_class := "Exception"; exn_str := msg; is_Exception := true |}.

(** The [AttributeError] of reading [attribute] on an object of the class
    [class]. *)
Definition AttributeError (class attribute : string) : exn :=
  {| exn_class := "AttributeError";
     exn_str :=
       "'" +:+ class +:+ "' object has no attribute '" +:+ attribute +:+ "'";
     is_Exception := true |}.

(** The result of a call: a returned value or a raised exception object. *)
Inductive result (A : Type) : Type :=
| Ok (a : A)
| Exn (e : exn).
Arguments Ok {A} a.
Arguments Exn {A} e.

Definition bind_result {A B} (r : result A) (k : A → result B) : result B :=
  match r with
  | Ok a => k a
  | Exn e => Exn e
  end.

Notation "x ←? r ; k" := (bind_result r (fun x => k))
  (at level 20, r at level 100, k at level 200, right associativity,
   format "x  ←?  r ;  '/' k").

(** [try: body except Exception as e: return handler(str(e))]: an exception
    that is not an instance of [Exception] passes through. *)
Definition try_except_Exception {A} (body : result A) (handler : string → A)
    : result A :=
  match body with
  | Ok a => Ok a
  | Exn e => if is_Exception e then Ok (handler (exn_str e)) else Exn e
  end.

(** What a chapter slot of the state can hold besides [None]: an extraction,
    or an exception object that [asyncio.gather] returned as a value. *)
Inductive object :=
| SectionObject (section : LifeStorySection)
| ExceptionObject (e : exn).

Record AutobiographyState := {
  transcript : string;
  analysis : option AnalysisResult;
  childhood_chapter : option object;
  youth_chapter : option object;
  middle_age_chapter : option object;
  mature_chapter : option object;
  elderly_chapter : option object;
  final_autobiography : option AutobiographyResult;
  current_step : string;
  error : option string;
}.

(** [{**state, "error": msg, "current_step": "error"}]. *)
Definition spread_error (state : AutobiographyState) (msg : string)
    : AutobiographyState :=
  {| transcript := transcript state;
     analysis := analysis state;
     childhood_chapter := childhood_chapter state;
     youth_chapter := youth_chapter state;
     middle_age_chapter := middle_age_chapter state;
     mature_chapter := mature_chapter state;
     elderly_chapter := elderly_chapter state;
     final_autobiography := final_autobiography state;
     current_step := "error";
     error := Some msg |}.

(** [{**state, "analysis": a, "current_step": "chapters"}]. *)
Definition spread_analysis (state : AutobiographyState) (a : AnalysisResult)
    : AutobiographyState :=
  {| transcript := transcript state;
     analysis := Some a;
     childhood_chapter := childhood_chapter state;
     youth_chapter := youth_chapter state;
     middle_age_chapter := middle_age_chapter state;
     mature_chapter := mature_chapter state;
     elderly_chapter := elderly_chapter state;
     final_autobiography := final_autobiography state;
     current_step := "chapters";
     error := error state |}.

(** [{**state, "final_autobiography": r, "current_step": "complete"}]. *)
Definition spread_final (state : AutobiographyState) (r : AutobiographyResult)
    : AutobiographyState :=
  {| transcript := transcript state;
     analysis := analysis state;
     childhood_chapter := childhood_chapter state;
     youth_chapter := youth_chapter state;
     middle_age_chapter := middle_age_chapter state;
     mature_chapter := mature_chapter state;
     elderly_chapter := elderly_chapter state;
     final_autobiography := Some r;
     current_step := "complete";
     error := error state |}.

(** One entry [key: value] of the [chapters] dictionary written into the
    state. *)
Definition set_chapter (state : AutobiographyState)
    (entry : string * option object) : AutobiographyState :=
  let '(key, value) := entry in
  {| transcript := transcript state;
     analysis := analysis state;
     childhood_chapter :=
       if String.eqb key "childhood_chapter" then value
       else childhood_chapter state;
     youth_chapter :=
       if String.eqb key "youth_chapter" then value else youth_chapter state;
     middle_age_chapter :=
       if String.eqb key "middle_age_chapter" then value
       else middle_age_chapter state;
     mature_chapter :=
       if String.eqb key "mature_chapter" then value else mature_chapter state;
     elderly_chapter :=
       if String.eqb key "elderly_chapter" then value
       else elderly_chapter state;
     final_autobiography := final_autobiography state;
     current_step := current_step state;
     error := error state |}.

Definition set_current_step (state : AutobiographyState) (step : string)
    : AutobiographyState :=
  {| transcript := transcript state;
     analysis := analysis state;
     childhood_chapter := childhood_chapter state;
     youth_chapter := youth_chapter state;
     middle_age_chapter := middle_age_chapter state;
     mature_chapter := mature_chapter state;
     elderly_chapter := elderly_chapter state;
     final_autobiography := final_autobiography state;
     current_step := step;
     error := error state |}.

(** [{**state, **chapters, "current_step": "integrate"}]. *)
Definition spread_chapters (state : AutobiographyState)
    (chapters : list (string * option object)) : AutobiographyState :=
  set_current_step (foldl set_chapter state chapters) "integrate".

(** The slot of a life stage, [state.get("<stage>_chapter")]. *)
Definition chapter_of (stage : life_stage) (state : AutobiographyState)
    : option object :=
  match stage with
  | Childhood => childhood_chapter state
  | Youth => youth_chapter state
  | MiddleAge => middle_age_chapter state
  | Mature => mature_chapter state
  | Elderly => elderly_chapter state
  end.

(** The remote services and the console of one run:
    - [print]: writing one progress line to [sys.stdout], which raises when
      the stream cannot take the text, such as [UnicodeEncodeError] on a
      console whose encoding lacks a character of the line;
    - [chat_model_init]: the exception raised by constructing
      [ChatOpenAI(...)] in the [create_*] functions, [None] when
      construction succeeds;
    - [analyzer_ainvoke], [agent_ainvoke], [integrator_ainvoke]: the awaited
      [chain.ainvoke] calls, by their input;
    - [completion_order]: the order in which the five concurrent agent calls
      finish. *)
Record services := {
  print : string → result unit;
  chat_model_init : option exn;
  analyzer_ainvoke : string → result AnalysisResult;
  agent_ainvoke : life_stage → string → result LifeStorySection;
  integrator_ainvoke : string → result AutobiographyResult;
  completion_order : list nat;
}.

(** The object [asyncio.gather(..., return_exceptions=True)] hands back for
    one call: its value, or the exception object it raised. *)
Definition gathered_object (call : result LifeStorySection) : object :=
  match call with
  | Ok section => SectionObject section
  | Exn e => ExceptionObject e
  end.

(** [await asyncio.gather(calls, return_exceptions=True)]: no call's
    exception is raised to the awaiting caller, every call settles to an
    object, and the objects are listed by [Asyncio]'s slots. *)
Definition gather_return_exceptions (calls : list (result LifeStorySection))
    (order : list nat) : list object :=
  Asyncio.values
    (Asyncio.gather_return_exceptions
       ((λ call, Returned (gathered_object call)) <$> calls) order).

(** What the loop of [write_chapters_node] stores for a call, once its line
    is printed: the extraction, [None] for an [Exception], and the exception
    object itself otherwise. *)
Definition slot_of_result (call : result LifeStorySection) : option object :=
  match call with
  | Ok section => Some (SectionObject section)
  | Exn e => if is_Exception e then None else Some (ExceptionObject e)
  end.

Section Nodes.
Variable env : services.

(** [ChatOpenAI(...)] inside [create_analyzer_chain], [create_*_agent] and
    [create_integrator_chain]. *)
Definition create_chain : result unit :=
  match chat_model_init env with
  | Some e => Exn e
  | None => Ok tt
  end.

Definition analyze_body (state : AutobiographyState)
    : result AutobiographyState :=
  _ ←? create_chain;
  analysis ←? analyzer_ainvoke env (transcript state);
  _ ←? print env ("   ✓ 분석 완료: " +:+ author_name analysis);
  Ok (spread_analysis state analysis).

Definition analyze_node (state : AutobiographyState)
    : result AutobiographyState :=
  _ ←? print env "🔍 1단계: 일대기 분석 중...";
  try_except_Exception (analyze_body state) (spread_error state).

(** One round of the loop over [zip(chapter_names, display_names, results)]:
    the line printed and the value stored under the chapter's key. *)
Definition collect_chapter (display_name : string) (gathered : object)
    : result (option object) :=
  match gathered with
  | ExceptionObject e =>
      if is_Exception e then
        _ ←? print env
               ("   ⚠️ " +:+ display_name +:+ " 챕터 오류: " +:+ exn_str e);
        Ok None
      else
        _ ←? print env ("   ✓ " +:+ display_name +:+ " 챕터 완료");
        Ok (Some gathered)
  | SectionObject _ =>
      _ ←? print env ("   ✓ " +:+ display_name +:+ " 챕터 완료");
      Ok (Some gathered)
  end.

Fixpoint collect_chapters (entries : list (string * string * object))
    : result (list (string * option object)) :=
  match entries with
  | [] => Ok []
  | (name, display_name, gathered) :: rest =>
      value ←? collect_chapter display_name gathered;
      chapters ←? collect_chapters rest;
      Ok ((name +:+ "_chapter", value) :: chapters)
  end.

Definition write_chapters_body (state : AutobiographyState)
    : result AutobiographyState :=
  let transcript := transcript state in
  _ ←? create_chain;
  _ ←? create_chain;
  _ ←? create_chain;
  _ ←? create_chain;
  _ ←? create_chain;
  let results :=
    gather_return_exceptions
      [ agent_ainvoke env Childhood transcript;
        agent_ainvoke env Youth transcript;
        agent_ainvoke env MiddleAge transcript;
        agent_ainvoke env Mature transcript;
        agent_ainvoke env Elderly transcript ]
      (completion_order env) in
  chapters ←? collect_chapters
                (zip (zip chapter_names display_names) results);
  Ok (spread_chapters state chapters).

Definition write_chapters_node (state : AutobiographyState)
    : result AutobiographyState :=
  _ ←? print env (nl +:+ "✍️ 2단계: 인생 시기별 챕터 작성 중...");
  try_except_Exception (write_chapters_body state) (spread_error state).

(** [analysis.author_name] on the value of [state["analysis"]]. *)
Definition require_analysis (analysis : option AnalysisResult)
    : result AnalysisResult :=
  match analysis with
  | Some a => Ok a
  | None => Exn (AttributeError "NoneType" "author_name")
  end.

(** One round of the loop over [chapter_data]: [chapter and
    chapter.has_content] on an exception object, which is truthy, fails on
    the attribute. *)
Definition chapter_entry (period age_range : string) (chapter : option object)
    : result string :=
  match chapter with
  | None => Ok (chapter_info period age_range None)
  | Some (SectionObject section) =>
      Ok (chapter_info period age_range (Some section))
  | Some (ExceptionObject e) =>
      Exn (AttributeError (exn_class e) "has_content")
  end.

Fixpoint chapter_entries (data : list (string * string * option object))
    : result (list string) :=
  match data with
  | [] => Ok []
  | (period, age_range, chapter) :: rest =>
      info ←? chapter_entry period age_range chapter;
      infos ←? chapter_entries rest;
      Ok (info :: infos)
  end.

Definition chapter_data (state : AutobiographyState)
    : list (string * string * option object) :=
  [ ("유년기", "0-12세", childhood_chapter state);
    ("청년기", "13-29세", youth_chapter state);
    ("중년기", "30-49세", middle_age_chapter state);
    ("장년기", "50-64세", mature_chapter state);
    ("노년기", "65세 이상", elderly_chapter state) ].

Definition integrate_body (state : AutobiographyState)
    : result AutobiographyState :=
  chapters_info ←? chapter_entries (chapter_data state);
  analysis ←? require_analysis (analysis state);
  let integration_input := integration_input analysis chapters_info in
  _ ←? create_chain;
  result ←? integrator_ainvoke env integration_input;
  _ ←? print env "   ✓ 자서전 통합 완료";
  Ok (spread_final state result).

Definition integrate_node (state : AutobiographyState)
    : result AutobiographyState :=
  _ ←? print env (nl +:+ "📖 3단계: 자서전 통합 중...");
  try_except_Exception (integrate_body state) (spread_error state).

Definition should_continue (state : AutobiographyState) : string :=
  if truthy_opt_str (error state) then "error" else current_step state.

Record graph := {
  nodes : list (string * (AutobiographyState → result AutobiographyState));
  entry_point : string;
  conditional_edges :
    list (string * ((AutobiographyState → string) * list (string * target)));
}.

Definition create_orchestrator : graph :=
  {| nodes :=
       [ ("analyze", analyze_node);
         ("write_chapters", write_chapters_node);
         ("integrate", integrate_node) ];
     entry_point := "analyze";
     conditional_edges :=
       [ ("analyze",
          (should_continue,
           [("chapters", Node "write_chapters"); ("error", END)]));
         ("write_chapters",
          (should_continue,
           [("integrate", Node "integrate"); ("error", END)]));
         ("integrate",
          (should_continue, [("complete", END); ("error", END)])) ] |}.

(** The graph driver: an exception raised by a node ends the run and is
    raised to the caller of the graph. *)
Fixpoint run_from (g : graph) (limit : nat) (name : string)
    (state : AutobiographyState) (visited : list string)
    : result (list string * AutobiographyState) :=
  match limit with
  | O => Exn {| exn_class := "GraphRecursionError";
                exn_str := "Recursion limit reached";
                is_Exception := true |}
  | S limit' =>
      match dict_get name (nodes g), dict_get name (conditional_edges g) with
      | Some node, Some (path, path_map) =>
          state ←? node state;
          let visited := visited ++ [name] in
          match dict_get (path state) path_map with
          | Some END => Ok (visited, state)
          | Some (Node next) => run_from g limit' next state visited
          | None => Exn {| exn_class := "KeyError";
                           exn_str := path state;
                           is_Exception := true |}
          end
      | _, _ => Exn {| exn_class := "ValueError";
                       exn_str := "unknown node: " +:+ name;
                       is_Exception := true |}
      end
  end.

Definition ainvoke (g : graph) (state : AutobiographyState)
    : result (list string * AutobiographyState) :=
  run_from g recursion_limit (entry_point g) state [].

Definition initial_state (transcript : string) : AutobiographyState :=
  {| transcript := transcript;
     analysis := None;
     childhood_chapter := None;
     youth_chapter := None;
     middle_age_chapter := None;
     mature_chapter := None;
     elderly_chapter := None;
     final_autobiography := None;
     current_step := "analyze";
     error := None |}.

(** The graph run of [run_autobiography_generation]: nodes run and final
    state. *)
Definition run_graph (transcript : string)
    : result (list string * AutobiographyState) :=
  ainvoke create_orchestrator (initial_state transcript).

Definition run_autobiography_generation (transcript : string)
    : result (option AutobiographyResult) :=
  _ ←? print env "📚 자서전 생성을 시작합니다...";
  run ←? run_graph transcript;
  let final_state := run.2 in
  if truthy_opt_str (error final_state) then
    Exn (Exception
           ("자서전 생성 중 오류 발생: " +:+ default "" (error final_state)))
  else
    _ ←? print env (nl +:+ "🎉 자서전 생성이 완료되었습니다!");
    Ok (final_autobiography final_state).
End Nodes.

(** The progress lines printed outside any [try]: the opening line of each
    node, and the first and the last line of
    [run_autobiography_generation]. *)
Definition analyze_banner : string := "🔍 1단계: 일대기 분석 중...".
Definition write_chapters_banner : string :=
  nl +:+ "✍️ 2단계: 인생 시기별 챕터 작성 중...".
Definition integrate_banner : string := nl +:+ "📖 3단계: 자서전 통합 중...".
Definition start_line : string := "📚 자서전 생성을 시작합니다...".
Definition completion_line : string :=
  nl +:+ "🎉 자서전 생성이 완료되었습니다!".

(** *** The two readings of the pipeline side by side *)

(** What [Orchestrator] keeps of an exception, of a result, of the services
    and of a state. *)
Definition message_of {A} (r : result A) : outcome A :=
  match r with
  | Ok a => Returned a
  | Exn e => Raised (exn_str e)
  end.

Definition messages_of (env : services) : Orchestrator.services :=
  {| Orchestrator.chat_model_init := exn_str <$> chat_model_init env;
     Orchestrator.analyzer_ainvoke := λ text,
       message_of (analyzer_ainvoke env text);
     Orchestrator.agent_ainvoke := λ stage text,
       message_of (agent_ainvoke env stage text);
     Orchestrator.integrator_ainvoke := λ request,
       message_of (integrator_ainvoke env request);
     Orchestrator.completion_order := completion_order env |}.

Definition with_sections (state : Orchestrator.AutobiographyState)
    : AutobiographyState :=
  {| transcript := Orchestrator.transcript state;
     analysis := Orchestrator.analysis state;
     childhood_chapter := SectionObject <$> Orchestrator.childhood_chapter state;
     youth_chapter := SectionObject <$> Orchestrator.youth_chapter state;
     middle_age_chapter :=
       SectionObject <$> Orchestrator.middle_age_chapter state;
     mature_chapter := SectionObject <$> Orchestrator.mature_chapter state;
     elderly_chapter := SectionObject <$> Orchestrator.elderly_chapter state;
     final_autobiography := Orchestrator.final_autobiography state;
     current_step := Orchestrator.current_step state;
     error := Orchestrator.error state |}.

(** The console takes every line. *)
Definition console_accepts (env : services) : Prop :=
  ∀ line, print env line = Ok tt.

(** Whatever the console, the constructor and the calls raise is an instance
    of [Exception]. *)
Definition raises_only_Exceptions (env : services) : Prop :=
  (∀ line e, print env line = Exn e → is_Exception e = true) ∧
  (∀ e, chat_model_init env = Some e → is_Exception e = true) ∧
  (∀ text e, analyzer_ainvoke env text = Exn e → is_Exception e = true) ∧
  (∀ stage text e,
     agent_ainvoke env stage text = Exn e → is_Exception e = true) ∧
  (∀ request e,
     integrator_ainvoke env request = Exn e → is_Exception e = true).

(** *** Concrete consoles and services *)

(** A console that takes every line. *)
Definition utf8_console (line : string) : result unit := Ok tt.

(** A console whose encoding is ASCII: a line with any other character
    raises [UnicodeEncodeError]. *)
Definition ascii_console (line : string) : result unit :=
  if forallb (λ a, Nat.ltb (Ascii.nat_of_ascii a) 128)
       (String.list_ascii_of_string line)
  then Ok tt
  else Exn {| exn_class := "UnicodeEncodeError";
              exn_str := "'ascii' codec can't encode characters";
              is_Exception := true |}.

Definition CancelledError : exn :=
  {| exn_class := "CancelledError"; exn_str := ""; is_Exception := false |}.

Definition APITimeoutError : exn :=
  {| exn_class := "APITimeoutError";
     exn_str := "Request timed out.";
     is_Exception := true |}.

Definition OpenAIError : exn :=
  {| exn_class := "OpenAIError";
     exn_str := "The api_key client option must be set";
     is_Exception := true |}.

(** Every call answers; the extractions report no content. *)
Definition all_calls_answer : services :=
  {| print := utf8_console;
     chat_model_init := None;
     analyzer_ainvoke := λ _, Ok Examples.sample_analysis;
     agent_ainvoke := λ _ _, Ok Examples.no_content_section;
     integrator_ainvoke := λ _, Ok Examples.sample_result;
     completion_order := [3; 4; 0; 2; 1] |}.

(** All five extraction calls time out, finishing in reverse order. *)
Definition all_branches_time_out : services :=
  {| print := utf8_console;
     chat_model_init := None;
     analyzer_ainvoke := λ _, Ok Examples.sample_analysis;
     agent_ainvoke := λ _ _, Exn APITimeoutError;
     integrator_ainvoke := λ _, Ok Examples.sample_result;
     completion_order := [4; 3; 2; 1; 0] |}.

(** No API key is configured: constructing the chat model raises. *)
Definition no_api_key : services :=
  {| print := utf8_console;
     chat_model_init := Some OpenAIError;
     analyzer_ainvoke := λ _, Ok Examples.sample_analysis;
     agent_ainvoke := λ _ _, Ok Examples.no_content_section;
     integrator_ainvoke := λ _, Ok Examples.sample_result;
     completion_order := [] |}.

(** The youth extraction is cancelled; the other calls answer. *)
Definition youth_cancelled : services :=
  {| print := utf8_console;
     chat_model_init := None;
     analyzer_ainvoke := λ _, Ok Examples.sample_analysis;
     agent_ainvoke := λ stage _,
       if decide (stage = Youth) then Exn CancelledError
       else Ok Examples.no_content_section;
     integrator_ainvoke := λ _, Ok Examples.sample_result;
     completion_order := [] |}.

(** The analysis call times out. *)
Definition analysis_times_out : services :=
  {| print := utf8_console;
     chat_model_init := None;
     analyzer_ainvoke := λ _, Exn APITimeoutError;
     agent_ainvoke := λ _ _, Ok Examples.no_content_section;
     integrator_ainvoke := λ _, Ok Examples.sample_result;
     completion_order := [] |}.

(** The analysis call is cancelled. *)
Definition analysis_cancelled : services :=
  {| print := utf8_console;
     chat_model_init := None;
     analyzer_ainvoke := λ _, Exn CancelledError;
     agent_ainvoke := λ _ _, Ok Examples.no_content_section;
     integrator_ainvoke := λ _, Ok Examples.sample_result;
     completion_order := [] |}.

(** Every call answers, on a console whose encoding is ASCII. *)
Definition on_ascii_console : services :=
  {| print := ascii_console;
     chat_model_init := None;
     analyzer_ainvoke := λ _, Ok Examples.sample_analysis;
     agent_ainvoke := λ _ _, Ok Examples.no_content_section;
     integrator_ainvoke := λ _, Ok Examples.sample_result;
     completion_order := [] |}.

(** The state in which the extraction step starts after a successful
    analysis. *)
Definition analysed_state : AutobiographyState :=
  spread_analysis (initial_state "transcript") Examples.sample_analysis.

End OrchestratorIO.

(** * Properties *)

(** ** [asyncio.gather] attributes outcomes by position *)

Section GatherFacts.
Context {A : Type}.
Implicit Types (outcomes : list (outcome A)) (order finished : list nat).

Lemma settled_by_nil outcomes :
  replicate (length outcomes) None = Asyncio.settled_by outcomes [].
Proof.
  apply list_eq; intros i. unfold Asyncio.settled_by.
  rewrite list_lookup_imap.
  destruct (outcomes !! i) as [o|] eqn:Hi; simpl.
  - apply lookup_replicate_2. by eapply lookup_lt_Some.
  - apply lookup_ge_None. rewrite length_replicate.
    by apply lookup_ge_None.
Qed.

Lemma settled_by_ext outcomes finished finished' :
  (∀ i, i < length outcomes → i ∈ finished ↔ i ∈ finished') →
  Asyncio.settled_by outcomes finished
  = Asyncio.settled_by outcomes finished'.
Proof.
  intros Hsame. apply imap_ext; intros i o Hi.
  apply lookup_lt_Some in Hi. specialize (Hsame i Hi).
  repeat case_decide; tauto.
Qed.

Lemma settle_settled_by outcomes finished i :
  Asyncio.settle outcomes (Asyncio.settled_by outcomes finished) i
  = Asyncio.settled_by outcomes (i :: finished).
Proof.
  unfold Asyncio.settle.
  replace (Asyncio.settled_by outcomes finished !! i)
    with ((λ o, if decide (i ∈ finished) then Some o else None) <$> outcomes !! i)
    by (unfold Asyncio.settled_by; by rewrite list_lookup_imap).
  destruct (outcomes !! i) as [o|] eqn:Hi; simpl.
  - case_decide as Hfin.
    + apply settled_by_ext; intros j _. rewrite elem_of_cons.
      split; [auto|intros [->|]; auto].
    + apply list_eq; intros j. unfold Asyncio.settled_by.
      rewrite list_lookup_insert, length_imap, !list_lookup_imap.
      apply lookup_lt_Some in Hi as Hlt.
      destruct (decide (i = j)) as [->|Hne].
      * rewrite decide_True by done. rewrite Hi; simpl.
        rewrite decide_True by apply list_elem_of_here. done.
      * rewrite decide_False by tauto.
        destruct (outcomes !! j); simpl; [|done].
        destruct (decide (j ∈ finished)) as [Hj|Hj].
        -- rewrite decide_True by (by apply list_elem_of_further). done.
        -- rewrite decide_False; [done|]. rewrite elem_of_cons.
           intros [Heq|Hin]; [congruence|done].
  - apply settled_by_ext; intros j Hj.
    apply lookup_ge_None in Hi. rewrite elem_of_cons.
    split; [auto|intros [->|]; [lia|done]].
Qed.

Lemma foldl_settle outcomes finished l :
  foldl (Asyncio.settle outcomes) (Asyncio.settled_by outcomes finished) l
  = Asyncio.settled_by outcomes (reverse l ++ finished).
Proof.
  revert finished. induction l as [|i l IH]; intros finished; simpl; [done|].
  rewrite settle_settled_by, IH, reverse_cons. by rewrite <- app_assoc.
Qed.

Lemma settled_by_all outcomes finished :
  (∀ i, i < length outcomes → i ∈ finished) →
  Asyncio.settled_by outcomes finished = Some <$> outcomes.
Proof.
  intros Hall. apply list_eq; intros i. unfold Asyncio.settled_by.
  rewrite list_lookup_imap, list_lookup_fmap.
  destruct (outcomes !! i) eqn:Hi; simpl; [|done].
  rewrite decide_True; [done|]. apply Hall. by eapply lookup_lt_Some.
Qed.

(** Whatever the completion order, slot [i] ends up holding the outcome of
    call [i]. *)
Lemma run_slots_by_position outcomes order :
  Asyncio.run_slots outcomes order = Some <$> outcomes.
Proof.
  unfold Asyncio.run_slots, Asyncio.completions.
  rewrite settled_by_nil, foldl_settle. apply settled_by_all.
  intros i Hi. rewrite elem_of_app, elem_of_reverse, elem_of_app, elem_of_seq.
  left; right; lia.
Qed.

Lemma omap_id_Some (l : list (outcome A)) : omap id (Some <$> l) = l.
Proof. induction l as [|x l IH]; csimpl; [done|]. by rewrite IH. Qed.

Lemma gather_return_exceptions_by_position outcomes order :
  Asyncio.gather_return_exceptions outcomes order = outcomes.
Proof.
  unfold Asyncio.gather_return_exceptions.
  by rewrite run_slots_by_position, omap_id_Some.
Qed.

Lemma first_raised_none (results : list A) l :
  Asyncio.first_raised (Returned <$> results) l = None.
Proof.
  induction l as [|i l IH]; simpl; [done|].
  rewrite list_lookup_fmap. by destruct (results !! i).
Qed.

Lemma values_Returned (results : list A) :
  Asyncio.values (Returned <$> results) = results.
Proof. induction results as [|x l IH]; csimpl; [done|]. by rewrite IH. Qed.

(** When every call returns, [gather] returns the values in call order. *)
Lemma gather_all_returned (results : list A) order :
  Asyncio.gather (Returned <$> results) order = Returned results.
Proof.
  unfold Asyncio.gather.
  by rewrite first_raised_none, gather_return_exceptions_by_position,
    values_Returned.
Qed.
End GatherFacts.

(** ** The chunk splitter *)

Section SplitFacts.
Import AudioTranscriber.
Local Open Scope Z_scope.
Implicit Types (fuel : nat) (chunks acc : list chunk).

Lemma split_loop_more_fuel fuel (k : nat) max_chunk overlap d start acc chunks :
  split_loop fuel max_chunk overlap d start acc = Some chunks →
  split_loop (fuel + k) max_chunk overlap d start acc = Some chunks.
Proof.
  revert start acc. induction fuel as [|fuel IH]; intros start acc; simpl.
  - discriminate.
  - destruct (start <? d); [|done].
    destruct (d - (Z.min (start + max_chunk) d - overlap) <? overlap * 2);
      [done|apply IH].
Qed.

(** Every window the loop emits follows the layout. *)
Lemma split_loop_chained fuel max_chunk overlap d start acc chunks :
  split_loop fuel max_chunk overlap d start acc = Some chunks →
  ∃ emitted, chunks = acc ++ emitted ∧
             chained max_chunk overlap d start emitted.
Proof.
  revert start acc. induction fuel as [|fuel IH]; intros start acc; simpl.
  - discriminate.
  - destruct (start <? d).
    + destruct (d - (Z.min (start + max_chunk) d - overlap) <? overlap * 2).
      * intros [= <-]. exists [(start, Z.min (start + max_chunk) d)].
        simpl; auto.
      * intros Hrec. apply IH in Hrec as (emitted & -> & Hch).
        exists ((start, Z.min (start + max_chunk) d) :: emitted).
        split; [by rewrite <- app_assoc | simpl; auto].
    + intros [= <-]. exists []. by rewrite app_nil_r.
Qed.

(** With a positive overlap shorter than the window, the loop terminates
    within [d - start] iterations, always by the stop-early rule: the last
    window ends at most at [d] and less than [overlap] before it, and no
    window reaches further. *)
Lemma split_loop_spec max_chunk overlap d :
  0 < overlap < max_chunk →
  ∀ fuel start acc,
    start < d →
    d - start ≤ Z.of_nat fuel →
    Forall (λ c : chunk, c.2 ≤ Z.min (start + max_chunk) d) acc →
    ∃ chunks s e,
      split_loop fuel max_chunk overlap d start acc = Some chunks ∧
      list.last chunks = Some (s, e) ∧
      Forall (λ c : chunk, c.2 ≤ e) chunks ∧
      e ≤ d ∧ d - e < overlap.
Proof.
  intros Hov. induction fuel as [|fuel IH]; intros start acc Hlt Hfuel Hacc.
  - lia.
  - simpl. rewrite (proj2 (Z.ltb_lt _ _) Hlt).
    set (e := Z.min (start + max_chunk) d) in *.
    destruct (d - (e - overlap) <? overlap * 2) eqn:Hstop.
    + apply Z.ltb_lt in Hstop.
      exists (acc ++ [(start, e)]), start, e. split; [done|].
      split; [apply last_snoc|].
      split; [|subst e; lia].
      apply Forall_app; split; [done|]. by repeat constructor.
    + apply Z.ltb_ge in Hstop.
      assert (e = start + max_chunk) as He by (subst e; lia).
      apply IH; [lia|lia|].
      apply Forall_app; split.
      * eapply Forall_impl; [|exact Hacc]. simpl; intros c Hc. lia.
      * repeat constructor. simpl. lia.
Qed.

(** [split] returns for every duration, given enough fuel, and the part of
    the recording after the last window is shorter than the overlap. *)
Lemma split_spec max_chunk overlap d :
  0 < overlap < max_chunk →
  ∃ chunks s e,
    (∀ k : nat, split (Z.to_nat d + k) d max_chunk overlap = Some chunks) ∧
    list.last chunks = Some (s, e) ∧
    Forall (λ c : chunk, c.2 ≤ e) chunks ∧
    e ≤ d ∧ d - e < overlap.
Proof.
  intros Hov. unfold split. destruct (d <=? max_chunk) eqn:Hshort.
  - exists [(0, d)], 0, d. repeat split; [|lia..].
    by repeat constructor.
  - apply Z.leb_gt in Hshort.
    destruct (split_loop_spec max_chunk overlap d Hov (Z.to_nat d) 0 [])
      as (chunks & s & e & Hrun & Hrest); [lia|lia|constructor|].
    exists chunks, s, e. split; [|done].
    intros k. by apply split_loop_more_fuel.
Qed.
End SplitFacts.

Section SplitClaims.
Import AudioTranscriber.
Local Open Scope Z_scope.

(** C6: splitting a 1,260,000 ms recording with windows of 600,000 ms and an
    overlap of 5,000 ms gives exactly the three chunks [0,600000),
    [595000,1195000), [1190000,1260000).  Each window ends [max_chunk] after
    its start, clipped to the duration, each next window starts [overlap]
    before the previous end, and after the third window the stop-early rule
    ends the loop (5,000 ms remain, fewer than twice the overlap). *)
Theorem split_21_minutes (k : nat) :
  let chunks := [(0, 600000); (595000, 1195000); (1190000, 1260000)] in
  _split_audio (3 + k) 1260000 = Some chunks ∧
  split (3 + k) 1260000 600000 5000 = Some chunks ∧
  chained 600000 5000 1260000 0 chunks ∧
  1260000 - (1260000 - 5000) < 5000 * 2.
Proof.
  simpl. split; [|split; [|split]].
  - apply (split_loop_more_fuel 3 k). by vm_compute.
  - apply (split_loop_more_fuel 3 k). by vm_compute.
  - repeat split; lia.
  - lia.
Qed.

(** C7: a recording no longer than the maximum chunk duration is returned
    as exactly one chunk spanning the whole duration. *)
Theorem split_short_audio (fuel : nat) (d : Z) :
  d ≤ MAX_CHUNK_DURATION_MS →
  _split_audio fuel d = Some [(0, d)].
Proof.
  intros Hshort. unfold _split_audio, split.
  by rewrite (proj2 (Z.leb_le _ _) Hshort).
Qed.

Lemma split_short_audio_witness :
  300000 ≤ MAX_CHUNK_DURATION_MS ∧ _split_audio 0 300000 = Some [(0, 300000)].
Proof.
  split.
  - unfold MAX_CHUNK_DURATION_MS. lia.
  - apply (split_short_audio 0 300000). unfold MAX_CHUNK_DURATION_MS. lia.
Defined.

(** C8: the chunks need not cover the recording.  At 602,000 ms the only
    chunk is [0,600000): the stop-early rule ends the loop with 2,000 ms of
    audio after the last chunk.  In general the splitter returns for every
    duration, no chunk reaches past the last one, and the audio left after
    the last chunk is shorter than the overlap. *)
Theorem split_leaves_tail_uncovered :
  MAX_CHUNK_DURATION_MS < 602000 ∧
  (∀ k : nat, _split_audio (1 + k) 602000 = Some [(0, 600000)]) ∧
  600000 < 602000 ∧
  602000 - 600000 ≤ OVERLAP_MS ∧
  (∀ d, ∃ chunks s e,
     (∀ k : nat, _split_audio (Z.to_nat d + k) d = Some chunks) ∧
     list.last chunks = Some (s, e) ∧
     Forall (λ c : chunk, c.2 ≤ e) chunks ∧
     e ≤ d ∧ d - e < OVERLAP_MS).
Proof.
  split; [by vm_compute|]. split.
  { intros k. apply (split_loop_more_fuel 1 k). by vm_compute. }
  split; [lia|]. split; [unfold OVERLAP_MS; lia|].
  intros d. apply split_spec. by vm_compute.
Qed.

(** C9: when every chunk's transcription returns, the transcript of a large
    file is the chunks' texts joined by a blank line in chunk order,
    whatever the order in which the concurrent calls finish: segment [i] is
    the transcription of chunk [i]. *)
Theorem transcript_joined_in_chunk_order
    (transcribe_chunk : nat → chunk → outcome string)
    (text : nat → chunk → string)
    (fuel : nat) (d : Z) (order : list nat) (chunks : list chunk) :
  _split_audio fuel d = Some chunks →
  (∀ i c, chunks !! i = Some c → transcribe_chunk i c = Returned (text i c)) →
  _transcribe_large_file true transcribe_chunk fuel d order
  = Some (Returned (String.concat (nl +:+ nl) (imap text chunks))) ∧
  ∀ i c, chunks !! i = Some c → imap text chunks !! i = Some (text i c).
Proof.
  intros Hsplit Hcalls. split.
  - unfold _transcribe_large_file. simpl. rewrite Hsplit. simpl.
    replace (imap transcribe_chunk chunks)
      with (Returned <$> imap text chunks).
    + by rewrite gather_all_returned.
    + rewrite fmap_imap. apply imap_ext. intros i c Hi. simpl.
      symmetry. by apply Hcalls.
  - intros i c Hi. by rewrite list_lookup_imap, Hi.
Qed.

Lemma transcript_joined_in_chunk_order_witness :
  let chunks := [(0, 600000); (595000, 1195000); (1190000, 1260000)] in
  _split_audio 3 1260000 = Some chunks ∧
  (∀ i c, chunks !! i = Some c →
          Examples.numbered_service i c
          = Returned (Examples.numbered_text i c)) ∧
  _transcribe_large_file true Examples.numbered_service 3 1260000
    Examples.third_chunk_first
  = Some (Returned ("first" +:+ nl +:+ nl +:+ "second" +:+ nl +:+ nl +:+ "later")).
Proof.
  simpl. split; [reflexivity|]. split; [reflexivity|].
  apply (transcript_joined_in_chunk_order
           Examples.numbered_service Examples.numbered_text
           3 1260000 Examples.third_chunk_first
           [(0, 600000); (595000, 1195000); (1190000, 1260000)]).
  - reflexivity.
  - reflexivity.
Defined.
End SplitClaims.

(** ** The graph nodes and the driver *)

Section GraphFacts.
Import Orchestrator.
Variable env : services.
Implicit Types (state : AutobiographyState) (visited : list string).

Lemma should_continue_spread_error state msg :
  should_continue (spread_error state msg) = "error".
Proof. unfold should_continue. simpl. by destruct (truthy_str msg). Qed.

Lemma should_continue_unfold state :
  should_continue state
  = if truthy_opt_str (error state) then "error" else current_step state.
Proof. reflexivity. Qed.

(** With the chat model available, the extraction step fills each slot from
    the call at the same position and moves on to integration. *)
Lemma write_chapters_node_ok state :
  chat_model_init env = None →
  write_chapters_node env state
  = {| transcript := transcript state;
       analysis := analysis state;
       childhood_chapter :=
         slot_of_outcome (agent_ainvoke env Childhood (transcript state));
       youth_chapter :=
         slot_of_outcome (agent_ainvoke env Youth (transcript state));
       middle_age_chapter :=
         slot_of_outcome (agent_ainvoke env MiddleAge (transcript state));
       mature_chapter :=
         slot_of_outcome (agent_ainvoke env Mature (transcript state));
       elderly_chapter :=
         slot_of_outcome (agent_ainvoke env Elderly (transcript state));
       final_autobiography := final_autobiography state;
       current_step := "integrate";
       error := error state |}.
Proof.
  intros Hchat.
  unfold write_chapters_node, write_chapters_body, create_chain.
  rewrite Hchat. simpl. rewrite gather_return_exceptions_by_position.
  reflexivity.
Qed.

Lemma write_chapters_node_no_model state msg :
  chat_model_init env = Some msg →
  write_chapters_node env state = spread_error state msg.
Proof.
  intros Hchat.
  unfold write_chapters_node, write_chapters_body, create_chain.
  by rewrite Hchat.
Qed.

Lemma write_chapters_body_ok state :
  chat_model_init env = None →
  write_chapters_body env state = Returned (write_chapters_node env state).
Proof.
  intros Hchat.
  unfold write_chapters_node, write_chapters_body, create_chain.
  by rewrite Hchat.
Qed.

(** Each node leaves [current_step] at one of the keys of its edge map,
    unless it fails, and then the route is ["error"]. *)
Lemma analyze_node_cases state :
  (∃ msg, analyze_body env state = Raised msg ∧
          analyze_node env state = spread_error state msg) ∨
  (∃ a, analyze_body env state = Returned (spread_analysis state a) ∧
        analyze_node env state = spread_analysis state a).
Proof.
  unfold analyze_node, analyze_body, create_chain.
  destruct (chat_model_init env) as [msg|]; simpl; [by left; eexists|].
  destruct (analyzer_ainvoke env (transcript state)) as [a|msg]; simpl;
    [right|left]; by eexists.
Qed.

Lemma write_chapters_node_cases state :
  (∃ msg, write_chapters_body env state = Raised msg ∧
          write_chapters_node env state = spread_error state msg) ∨
  (∃ next, write_chapters_body env state = Returned next ∧
           write_chapters_node env state = next ∧
           current_step next = "integrate" ∧ error next = error state ∧
           final_autobiography next = final_autobiography state ∧
           analysis next = analysis state).
Proof.
  destruct (chat_model_init env) as [msg|] eqn:Hchat.
  - left. exists msg. split; [|by apply write_chapters_node_no_model].
    unfold write_chapters_body, create_chain. by rewrite Hchat.
  - right. pose proof (write_chapters_node_ok state Hchat) as Hnode.
    exists (write_chapters_node env state). split; [|by rewrite Hnode].
    unfold write_chapters_node, try_except in *.
    unfold write_chapters_body, create_chain in *. rewrite Hchat in *.
    reflexivity.
Qed.

Lemma integrate_node_cases state :
  (∃ msg, integrate_body env state = Raised msg ∧
          integrate_node env state = spread_error state msg) ∨
  (∃ r, integrate_body env state = Returned (spread_final state r) ∧
        integrate_node env state = spread_final state r).
Proof.
  unfold integrate_node, integrate_body, require_analysis, create_chain.
  destruct (analysis state) as [a|]; simpl; [|by left; eexists].
  destruct (chat_model_init env) as [msg|]; simpl; [by left; eexists|].
  destruct (integrator_ainvoke env _) as [r|msg]; simpl;
    [right|left]; by eexists.
Qed.

Lemma route_after_analyze state :
  should_continue (analyze_node env state)
  = if truthy_opt_str (error state) then "error"
    else match analyze_body env state with
         | Returned _ => "chapters"
         | Raised _ => "error"
         end.
Proof.
  destruct (analyze_node_cases state) as [(msg & -> & ->)|(a & -> & ->)].
  - rewrite should_continue_spread_error. by destruct (truthy_opt_str _).
  - reflexivity.
Qed.

Lemma route_after_write_chapters state :
  should_continue (write_chapters_node env state)
  = if truthy_opt_str (error state) then "error"
    else match write_chapters_body env state with
         | Returned _ => "integrate"
         | Raised _ => "error"
         end.
Proof.
  destruct (write_chapters_node_cases state)
    as [(msg & -> & ->)|(next & -> & -> & Hstep & Herr & _)].
  - rewrite should_continue_spread_error. by destruct (truthy_opt_str _).
  - unfold should_continue. by rewrite Hstep, Herr.
Qed.

Lemma route_after_integrate state :
  should_continue (integrate_node env state)
  = if truthy_opt_str (error state) then "error"
    else match integrate_body env state with
         | Returned _ => "complete"
         | Raised _ => "error"
         end.
Proof.
  destruct (integrate_node_cases state) as [(msg & -> & ->)|(r & -> & ->)].
  - rewrite should_continue_spread_error. by destruct (truthy_opt_str _).
  - reflexivity.
Qed.

(** The driver from each node, in closed form. *)
Lemma run_from_integrate (n : nat) state visited :
  run_from (create_orchestrator env) (S n) "integrate" state visited
  = Returned (visited ++ ["integrate"], integrate_node env state).
Proof.
  change (run_from (create_orchestrator env) (S n) "integrate" state visited)
    with (match dict_get (should_continue (integrate_node env state))
                  [("complete", END); ("error", END)] with
          | Some END => Returned (visited ++ ["integrate"],
                                  integrate_node env state)
          | Some (Node next) =>
              run_from (create_orchestrator env) n next
                (integrate_node env state) (visited ++ ["integrate"])
          | None => Raised ("KeyError: " +:+
                            should_continue (integrate_node env state))
          end).
  rewrite route_after_integrate.
  destruct (truthy_opt_str (error state)); [done|].
  by destruct (integrate_body env state).
Qed.

Lemma run_from_write_chapters (n : nat) state visited :
  run_from (create_orchestrator env) (S (S n)) "write_chapters" state visited
  = if String.eqb (should_continue (write_chapters_node env state))
                  "integrate"
    then Returned (visited ++ ["write_chapters"; "integrate"],
                   integrate_node env (write_chapters_node env state))
    else Returned (visited ++ ["write_chapters"],
                   write_chapters_node env state).
Proof.
  change (run_from (create_orchestrator env) (S (S n)) "write_chapters"
            state visited)
    with (match dict_get (should_continue (write_chapters_node env state))
                  [("integrate", Node "integrate"); ("error", END)] with
          | Some END => Returned (visited ++ ["write_chapters"],
                                  write_chapters_node env state)
          | Some (Node next) =>
              run_from (create_orchestrator env) (S n) next
                (write_chapters_node env state)
                (visited ++ ["write_chapters"])
          | None => Raised ("KeyError: " +:+
                            should_continue (write_chapters_node env state))
          end).
  rewrite route_after_write_chapters.
  destruct (truthy_opt_str (error state)); [done|].
  destruct (write_chapters_body env state); [|done].
  cbn [dict_get String.eqb Ascii.eqb Bool.eqb].
  rewrite run_from_integrate. by rewrite <- app_assoc.
Qed.

Lemma run_from_analyze (n : nat) state visited :
  run_from (create_orchestrator env) (S (S (S n))) "analyze" state visited
  = if String.eqb (should_continue (analyze_node env state)) "chapters"
    then run_from (create_orchestrator env) (S (S n)) "write_chapters"
           (analyze_node env state) (visited ++ ["analyze"])
    else Returned (visited ++ ["analyze"], analyze_node env state).
Proof.
  change (run_from (create_orchestrator env) (S (S (S n))) "analyze"
            state visited)
    with (match dict_get (should_continue (analyze_node env state))
                  [("chapters", Node "write_chapters"); ("error", END)] with
          | Some END => Returned (visited ++ ["analyze"],
                                  analyze_node env state)
          | Some (Node next) =>
              run_from (create_orchestrator env) (S (S n)) next
                (analyze_node env state) (visited ++ ["analyze"])
          | None => Raised ("KeyError: " +:+
                            should_continue (analyze_node env state))
          end).
  rewrite route_after_analyze.
  destruct (truthy_opt_str (error state)); [done|].
  by destruct (analyze_body env state).
Qed.

(** The whole graph run, by the outcome of each stage. *)
Lemma run_graph_closed transcript :
  run_graph env transcript
  = match analyze_body env (initial_state transcript) with
    | Raised msg =>
        Returned (["analyze"], spread_error (initial_state transcript) msg)
    | Returned analysed =>
        match write_chapters_body env analysed with
        | Raised msg =>
            Returned (["analyze"; "write_chapters"],
                      spread_error analysed msg)
        | Returned written =>
            Returned (["analyze"; "write_chapters"; "integrate"],
                      integrate_node env written)
        end
    end.
Proof.
  unfold run_graph, ainvoke.
  change recursion_limit with (S (S (S 22))).
  change (entry_point (create_orchestrator env)) with "analyze".
  rewrite run_from_analyze, route_after_analyze.
  change (truthy_opt_str (error (initial_state transcript))) with false.
  cbv iota.
  destruct (analyze_node_cases (initial_state transcript))
    as [(msg & -> & ->)|(a & -> & ->)]; [done|].
  cbn [String.eqb Ascii.eqb Bool.eqb].
  rewrite run_from_write_chapters, route_after_write_chapters.
  change (truthy_opt_str
            (error (spread_analysis (initial_state transcript) a)))
    with false.
  cbv iota.
  destruct (write_chapters_node_cases
              (spread_analysis (initial_state transcript) a))
    as [(msg & -> & ->)|(next & -> & -> & _)]; done.
Qed.

(** A graph run always ends in a final state, and that state either
    carries an error message, the step ["error"] and no autobiography, or
    no error, the step ["complete"] and an autobiography. *)
Lemma run_graph_final transcript :
  ∃ visited final,
    run_graph env transcript = Returned (visited, final) ∧
    ((∃ msg, error final = Some msg ∧ current_step final = "error" ∧
             final_autobiography final = None) ∨
     (∃ r, error final = None ∧ current_step final = "complete" ∧
           final_autobiography final = Some r)).
Proof.
  rewrite run_graph_closed.
  destruct (analyze_node_cases (initial_state transcript))
    as [(msg & -> & _)|(a & -> & _)].
  { do 2 eexists. split; [done|]. left. by exists msg. }
  destruct (write_chapters_node_cases
              (spread_analysis (initial_state transcript) a))
    as [(msg & -> & _)|(next & -> & _ & _ & Herr & Hfinal & _)].
  { do 2 eexists. split; [done|]. left. by exists msg. }
  do 2 eexists. split; [done|].
  destruct (integrate_node_cases next) as [(msg & _ & ->)|(r & _ & ->)].
  - left. exists msg. simpl. by rewrite Hfinal.
  - right. exists r. simpl. by rewrite Herr.
Qed.

(** A failed analysis ends the run right after the analysis node. *)
Lemma analysis_failure_ends_run transcript msg :
  analyze_body env (initial_state transcript) = Raised msg →
  run_graph env transcript
  = Returned (["analyze"], spread_error (initial_state transcript) msg).
Proof. intros Hfail. by rewrite run_graph_closed, Hfail. Qed.

(** ... and the run raises with the analysis error's message, provided the
    message is not empty. *)
Lemma analysis_failure_reported transcript msg :
  analyze_body env (initial_state transcript) = Raised msg →
  truthy_str msg = true →
  run_autobiography_generation env transcript
  = Raised ("자서전 생성 중 오류 발생: " +:+ msg).
Proof.
  intros Hfail Hmsg. unfold run_autobiography_generation.
  rewrite (analysis_failure_ends_run _ _ Hfail). simpl. by rewrite Hmsg.
Qed.

(** A final state with a non-empty error message makes the run raise. *)
Lemma nonempty_error_raises transcript visited final :
  run_graph env transcript = Returned (visited, final) →
  truthy_opt_str (error final) = true →
  run_autobiography_generation env transcript
  = Raised ("자서전 생성 중 오류 발생: " +:+ default "" (error final)) ∧
  final_autobiography final = None.
Proof.
  intros Hrun Herr. unfold run_autobiography_generation.
  rewrite Hrun. simpl. rewrite Herr. split; [done|].
  destruct (run_graph_final transcript)
    as (v & f & Hrun' & [(msg & _ & _ & Hnone)|(r & Hnoerr & _)]);
    rewrite Hrun in Hrun'; injection Hrun' as <- <-; [done|].
  by rewrite Hnoerr in Herr.
Qed.

(** An autobiography is only returned from a state that reached
    ["complete"] without error. *)
Lemma result_only_from_complete transcript r :
  run_autobiography_generation env transcript = Returned (Some r) →
  ∃ visited final,
    run_graph env transcript = Returned (visited, final) ∧
    current_step final = "complete" ∧ error final = None ∧
    final_autobiography final = Some r.
Proof.
  unfold run_autobiography_generation.
  destruct (run_graph_final transcript)
    as (v & f & -> & [(msg & Herr & _ & Hnone)|(r' & Herr & Hstep & Hres)]);
    simpl; rewrite Herr; simpl.
  - destruct (truthy_str msg); [done|]. by rewrite Hnone.
  - rewrite Hres. intros [= <-]. by exists v, f.
Qed.
End GraphFacts.

(** ** The integration request *)

Section IntegrationFacts.
Import Orchestrator.

Lemma chapter_info_absent period age_range chapter :
  absent chapter = true →
  chapter_info period age_range chapter = missing_info period age_range.
Proof.
  destruct chapter as [c|]; simpl; [|done].
  by destruct (has_content c).
Qed.

Lemma chapter_info_slot_entry p chapter :
  chapter_info p.1 p.2 chapter = slot_entry p chapter.
Proof.
  unfold slot_entry. destruct (absent chapter) eqn:Habs; [|done].
  by apply chapter_info_absent.
Qed.

Lemma append_assoc (a b c : string) : (a +:+ b) +:+ c = a +:+ (b +:+ c).
Proof.
  induction a as [|x a IH]; [reflexivity|].
  change (String x ((a +:+ b) +:+ c) = String x (a +:+ (b +:+ c))).
  by rewrite IH.
Qed.

Lemma heading_append period age_range body :
  heading period age_range +:+ body
  = nl +:+ "## " +:+ period +:+ " (" +:+ age_range +:+ ")" +:+ nl +:+ body.
Proof. unfold heading. by rewrite !append_assoc. Qed.

(** Every entry, filled or not, opens with the heading of its period. *)
Lemma chapter_info_heading period age_range chapter :
  ∃ body,
    chapter_info period age_range chapter
    = heading period age_range +:+ body.
Proof.
  unfold chapter_info, missing_info.
  destruct chapter as [c|]; [destruct (has_content c)|];
    eexists; by rewrite heading_append.
Qed.

(** The code's rendering of a slot is the expected entry. *)
Lemma chapter_info_expected p chapter :
  chapter_info p.1 p.2 chapter = expected_entry p chapter.
Proof.
  destruct chapter as [c|]; [|reflexivity].
  unfold chapter_info, expected_entry, full_extraction, str_or, join.
  destruct (has_content c); [|reflexivity].
  by destruct (lessons_learned c) as [[|x rest]|].
Qed.

(** The code's request is the header, the entries one after the other, and
    the footer. *)
Lemma integration_input_layout (a : AnalysisResult) (infos : list string) :
  integration_input a infos
  = request_header a +:+ String.concat "" infos +:+ request_footer.
Proof.
  unfold integration_input, request_header, request_footer, join.
  by rewrite !append_assoc.
Qed.

End IntegrationFacts.

(** ** The pipeline with its console and exception classes *)

Section ConsoleFacts.
Import Orchestrator OrchestratorIO.
Variable env : services.
Implicit Types (state : AutobiographyState) (visited : list string).

Lemma gather_objects_by_position calls order :
  gather_return_exceptions calls order = gathered_object <$> calls.
Proof.
  unfold gather_return_exceptions.
  rewrite gather_return_exceptions_by_position.
  replace ((λ call, Returned (gathered_object call)) <$> calls)
    with (Returned <$> (gathered_object <$> calls))
    by (by rewrite <- list_fmap_compose).
  apply values_Returned.
Qed.

Lemma try_except_Exception_unfold {A} (body : result A) handler :
  try_except_Exception body handler
  = match body with
    | Ok a => Ok a
    | Exn e => if is_Exception e then Ok (handler (exn_str e)) else Exn e
    end.
Proof. reflexivity. Qed.

Lemma foldl_set_chapter_fields state chapters :
  transcript (foldl set_chapter state chapters) = transcript state ∧
  analysis (foldl set_chapter state chapters) = analysis state ∧
  final_autobiography (foldl set_chapter state chapters)
  = final_autobiography state ∧
  current_step (foldl set_chapter state chapters) = current_step state ∧
  error (foldl set_chapter state chapters) = error state.
Proof.
  revert state. induction chapters as [|[key value] rest IH]; intros state.
  { done. }
  cbn [foldl]. destruct (IH (set_chapter state (key, value)))
    as (-> & -> & -> & -> & ->).
  done.
Qed.

Lemma spread_chapters_fields state chapters :
  transcript (spread_chapters state chapters) = transcript state ∧
  analysis (spread_chapters state chapters) = analysis state ∧
  final_autobiography (spread_chapters state chapters)
  = final_autobiography state ∧
  current_step (spread_chapters state chapters) = "integrate" ∧
  error (spread_chapters state chapters) = error state.
Proof.
  unfold spread_chapters, set_current_step.
  cbn [transcript analysis final_autobiography current_step error].
  by destruct (foldl_set_chapter_fields state chapters)
    as (-> & -> & -> & _ & ->).
Qed.

(** *** What each body returns and what it raises *)

Lemma analyze_body_returns state next :
  analyze_body env state = Ok next →
  ∃ a, analyzer_ainvoke env (transcript state) = Ok a ∧
       next = spread_analysis state a.
Proof.
  unfold analyze_body, create_chain.
  destruct (chat_model_init env); [done|]. simpl.
  destruct (analyzer_ainvoke env (transcript state)) as [a|]; [|done]. simpl.
  destruct (print env _); [|done]. simpl.
  intros [= <-]. by exists a.
Qed.

Lemma write_chapters_body_returns state next :
  write_chapters_body env state = Ok next →
  ∃ chapters, next = spread_chapters state chapters.
Proof.
  unfold write_chapters_body, create_chain.
  destruct (chat_model_init env); [done|]. simpl.
  destruct (collect_chapters env _) as [chapters|]; [|done]. simpl.
  intros [= <-]. by exists chapters.
Qed.

Lemma integrate_body_returns state next :
  integrate_body env state = Ok next →
  ∃ r, next = spread_final state r.
Proof.
  unfold integrate_body, create_chain.
  destruct (chapter_entries _) as [infos|]; [|done]. simpl.
  destruct (require_analysis _) as [a|]; [|done]. simpl.
  destruct (chat_model_init env); [done|]. simpl.
  destruct (integrator_ainvoke env _) as [r|]; [|done]. simpl.
  destruct (print env _); [|done]. simpl.
  intros [= <-]. by exists r.
Qed.

(** An exception raised inside a body comes from the console, from the
    constructor or from a call, or is an [AttributeError] of the body's
    own. *)
Lemma analyze_body_raises state e :
  raises_only_Exceptions env →
  analyze_body env state = Exn e → is_Exception e = true.
Proof.
  intros (Hprint & Hchat & Hana & _).
  unfold analyze_body, create_chain.
  destruct (chat_model_init env) as [e'|] eqn:Hc; simpl.
  { intros [= <-]. by apply Hchat. }
  destruct (analyzer_ainvoke env (transcript state)) as [a|e'] eqn:Ha; simpl.
  2: { intros [= <-]. by eapply Hana. }
  destruct (print env _) as [|e'] eqn:Hp; simpl; [done|].
  intros [= <-]. by eapply Hprint.
Qed.

Lemma collect_chapter_raises display_name gathered e :
  raises_only_Exceptions env →
  collect_chapter env display_name gathered = Exn e → is_Exception e = true.
Proof.
  intros (Hprint & _). unfold collect_chapter.
  destruct gathered as [section|e']; [|destruct (is_Exception e')];
    (destruct (print env _) as [|e''] eqn:Hp; simpl; [done|]);
    intros [= <-]; by eapply Hprint.
Qed.

Lemma collect_chapters_raises entries e :
  raises_only_Exceptions env →
  collect_chapters env entries = Exn e → is_Exception e = true.
Proof.
  intros Honly. induction entries as [|[[name display_name] gathered] rest IH].
  { done. }
  cbn [collect_chapters].
  destruct (collect_chapter env display_name gathered) as [value|e'] eqn:Hone;
    simpl.
  2: { intros [= <-]. by eapply collect_chapter_raises. }
  destruct (collect_chapters env rest) as [chapters|e']; simpl; [done|].
  intros [= <-]. by apply IH.
Qed.

Lemma write_chapters_body_raises state e :
  raises_only_Exceptions env →
  write_chapters_body env state = Exn e → is_Exception e = true.
Proof.
  intros Honly. pose proof Honly as (_ & Hchat & _).
  unfold write_chapters_body, create_chain.
  destruct (chat_model_init env) as [e'|] eqn:Hc; simpl.
  { intros [= <-]. by apply Hchat. }
  destruct (collect_chapters env _) as [chapters|e'] eqn:Hloop; simpl; [done|].
  intros [= <-]. by eapply collect_chapters_raises.
Qed.

Lemma chapter_entries_raises data e :
  chapter_entries data = Exn e → is_Exception e = true.
Proof.
  induction data as [|[[period age_range] chapter] rest IH]; [done|].
  cbn [chapter_entries].
  destruct chapter as [[section|e']|]; simpl.
  - destruct (chapter_entries rest); simpl; [done|].
    intros [= <-]. by apply IH.
  - by intros [= <-].
  - destruct (chapter_entries rest); simpl; [done|].
    intros [= <-]. by apply IH.
Qed.

Lemma integrate_body_raises state e :
  raises_only_Exceptions env →
  integrate_body env state = Exn e → is_Exception e = true.
Proof.
  intros (Hprint & Hchat & _ & _ & Hint).
  unfold integrate_body, create_chain.
  destruct (chapter_entries _) as [infos|e'] eqn:Hinfos; simpl.
  2: { intros [= <-]. by eapply chapter_entries_raises. }
  destruct (analysis state) as [a|]; simpl; [|by intros [= <-]].
  destruct (chat_model_init env) as [e'|] eqn:Hc; simpl.
  { intros [= <-]. by apply Hchat. }
  destruct (integrator_ainvoke env _) as [r|e'] eqn:Hr; simpl.
  2: { intros [= <-]. by eapply Hint. }
  destruct (print env _) as [|e'] eqn:Hp; simpl; [done|].
  intros [= <-]. by eapply Hprint.
Qed.

(** *** What each node returns and what it raises *)

(** A node raises only what its opening line raises, or an exception that
    is not an [Exception]. *)
Lemma analyze_node_raises state e :
  analyze_node env state = Exn e →
  print env analyze_banner = Exn e ∨ is_Exception e = false.
Proof.
  unfold analyze_node. fold analyze_banner.
  destruct (print env analyze_banner) as [|e']; simpl.
  2: { intros [= <-]. by left. }
  unfold try_except_Exception.
  destruct (analyze_body env state) as [|e']; [done|].
  destruct (is_Exception e') eqn:He; [done|].
  intros [= <-]. by right.
Qed.

Lemma write_chapters_node_raises state e :
  write_chapters_node env state = Exn e →
  print env write_chapters_banner = Exn e ∨ is_Exception e = false.
Proof.
  unfold write_chapters_node. fold write_chapters_banner.
  destruct (print env write_chapters_banner) as [|e']; simpl.
  2: { intros [= <-]. by left. }
  unfold try_except_Exception.
  destruct (write_chapters_body env state) as [|e']; [done|].
  destruct (is_Exception e') eqn:He; [done|].
  intros [= <-]. by right.
Qed.

Lemma integrate_node_raises state e :
  integrate_node env state = Exn e →
  print env integrate_banner = Exn e ∨ is_Exception e = false.
Proof.
  unfold integrate_node. fold integrate_banner.
  destruct (print env integrate_banner) as [|e']; simpl.
  2: { intros [= <-]. by left. }
  unfold try_except_Exception.
  destruct (integrate_body env state) as [|e']; [done|].
  destruct (is_Exception e') eqn:He; [done|].
  intros [= <-]. by right.
Qed.

(** A node that returns has advanced the state as its body did, or has
    recorded the body's [Exception]. *)
Lemma analyze_node_returned state next :
  analyze_node env state = Ok next →
  (∃ a, analyze_body env state = Ok next ∧
        analyzer_ainvoke env (transcript state) = Ok a ∧
        next = spread_analysis state a) ∨
  (∃ e, analyze_body env state = Exn e ∧ is_Exception e = true ∧
        next = spread_error state (exn_str e)).
Proof.
  unfold analyze_node.
  destruct (print env _) as [[]|e']; simpl; [|done].
  unfold try_except_Exception.
  destruct (analyze_body env state) as [advanced|e'] eqn:Hbody.
  - intros [= <-]. left.
    destruct (analyze_body_returns _ _ Hbody) as (a & Ha & ->).
    by exists a.
  - destruct (is_Exception e') eqn:He; [|done].
    intros [= <-]. right. by exists e'.
Qed.

Lemma write_chapters_node_returned state next :
  write_chapters_node env state = Ok next →
  (∃ chapters, write_chapters_body env state = Ok next ∧
               next = spread_chapters state chapters) ∨
  (∃ e, write_chapters_body env state = Exn e ∧ is_Exception e = true ∧
        next = spread_error state (exn_str e)).
Proof.
  unfold write_chapters_node.
  destruct (print env _) as [[]|e']; simpl; [|done].
  unfold try_except_Exception.
  destruct (write_chapters_body env state) as [advanced|e'] eqn:Hbody.
  - intros [= <-]. left.
    destruct (write_chapters_body_returns _ _ Hbody) as (chapters & ->).
    by exists chapters.
  - destruct (is_Exception e') eqn:He; [|done].
    intros [= <-]. right. by exists e'.
Qed.

Lemma integrate_node_returned state next :
  integrate_node env state = Ok next →
  (∃ r, integrate_body env state = Ok next ∧ next = spread_final state r) ∨
  (∃ e, integrate_body env state = Exn e ∧ is_Exception e = true ∧
        next = spread_error state (exn_str e)).
Proof.
  unfold integrate_node.
  destruct (print env _) as [[]|e']; simpl; [|done].
  unfold try_except_Exception.
  destruct (integrate_body env state) as [advanced|e'] eqn:Hbody.
  - intros [= <-]. left.
    destruct (integrate_body_returns _ _ Hbody) as (r & ->).
    by exists r.
  - destruct (is_Exception e') eqn:He; [|done].
    intros [= <-]. right. by exists e'.
Qed.

(** *** Routing *)

Lemma should_continue_error state msg :
  should_continue (spread_error state msg) = "error".
Proof. unfold should_continue. simpl. by destruct (truthy_str msg). Qed.

Lemma route_after_analyze_io state next :
  analyze_node env state = Ok next →
  should_continue next
  = if truthy_opt_str (error state) then "error"
    else match analyze_body env state with
         | Ok _ => "chapters"
         | Exn _ => "error"
         end.
Proof.
  intros Hnode.
  destruct (analyze_node_returned _ _ Hnode)
    as [(a & -> & _ & ->)|(e & -> & _ & ->)].
  - reflexivity.
  - rewrite should_continue_error. by destruct (truthy_opt_str _).
Qed.

Lemma route_after_write_chapters_io state next :
  write_chapters_node env state = Ok next →
  should_continue next
  = if truthy_opt_str (error state) then "error"
    else match write_chapters_body env state with
         | Ok _ => "integrate"
         | Exn _ => "error"
         end.
Proof.
  intros Hnode.
  destruct (write_chapters_node_returned _ _ Hnode)
    as [(chapters & -> & ->)|(e & -> & _ & ->)].
  - unfold should_continue.
    by destruct (spread_chapters_fields state chapters)
      as (_ & _ & _ & -> & ->).
  - rewrite should_continue_error. by destruct (truthy_opt_str _).
Qed.

Lemma route_after_integrate_io state next :
  integrate_node env state = Ok next →
  should_continue next
  = if truthy_opt_str (error state) then "error"
    else match integrate_body env state with
         | Ok _ => "complete"
         | Exn _ => "error"
         end.
Proof.
  intros Hnode.
  destruct (integrate_node_returned _ _ Hnode)
    as [(r & -> & ->)|(e & -> & _ & ->)].
  - reflexivity.
  - rewrite should_continue_error. by destruct (truthy_opt_str _).
Qed.

(** *** The driver from each node, in closed form *)

Lemma run_from_integrate_io (n : nat) state visited :
  run_from (create_orchestrator env) (S n) "integrate" state visited
  = (next ←? integrate_node env state;
     Ok (visited ++ ["integrate"], next)).
Proof.
  change (run_from (create_orchestrator env) (S n) "integrate" state visited)
    with (next ←? integrate_node env state;
          match dict_get (should_continue next)
                  [("complete", END); ("error", END)] with
          | Some END => Ok (visited ++ ["integrate"], next)
          | Some (Node name) =>
              run_from (create_orchestrator env) n name next
                (visited ++ ["integrate"])
          | None => Exn {| exn_class := "KeyError";
                           exn_str := should_continue next;
                           is_Exception := true |}
          end).
  destruct (integrate_node env state) as [next|e] eqn:Hnode; [|done].
  cbn [bind_result]. rewrite (route_after_integrate_io _ _ Hnode).
  destruct (truthy_opt_str (error state)); [done|].
  by destruct (integrate_body env state).
Qed.

Lemma run_from_write_chapters_io (n : nat) state visited :
  run_from (create_orchestrator env) (S (S n)) "write_chapters" state visited
  = (written ←? write_chapters_node env state;
     if String.eqb (should_continue written) "integrate"
     then next ←? integrate_node env written;
          Ok (visited ++ ["write_chapters"; "integrate"], next)
     else Ok (visited ++ ["write_chapters"], written)).
Proof.
  change (run_from (create_orchestrator env) (S (S n)) "write_chapters"
            state visited)
    with (written ←? write_chapters_node env state;
          match dict_get (should_continue written)
                  [("integrate", Node "integrate"); ("error", END)] with
          | Some END => Ok (visited ++ ["write_chapters"], written)
          | Some (Node name) =>
              run_from (create_orchestrator env) (S n) name written
                (visited ++ ["write_chapters"])
          | None => Exn {| exn_class := "KeyError";
                           exn_str := should_continue written;
                           is_Exception := true |}
          end).
  destruct (write_chapters_node env state) as [written|e] eqn:Hnode; [|done].
  cbn [bind_result]. rewrite (route_after_write_chapters_io _ _ Hnode).
  destruct (truthy_opt_str (error state)); [done|].
  destruct (write_chapters_body env state); [|done].
  cbn [dict_get String.eqb Ascii.eqb Bool.eqb].
  rewrite run_from_integrate_io. by rewrite <- app_assoc.
Qed.

Lemma run_from_analyze_io (n : nat) state visited :
  run_from (create_orchestrator env) (S (S (S n))) "analyze" state visited
  = (analysed ←? analyze_node env state;
     if String.eqb (should_continue analysed) "chapters"
     then run_from (create_orchestrator env) (S (S n)) "write_chapters"
            analysed (visited ++ ["analyze"])
     else Ok (visited ++ ["analyze"], analysed)).
Proof.
  change (run_from (create_orchestrator env) (S (S (S n))) "analyze"
            state visited)
    with (analysed ←? analyze_node env state;
          match dict_get (should_continue analysed)
                  [("chapters", Node "write_chapters"); ("error", END)] with
          | Some END => Ok (visited ++ ["analyze"], analysed)
          | Some (Node name) =>
              run_from (create_orchestrator env) (S (S n)) name analysed
                (visited ++ ["analyze"])
          | None => Exn {| exn_class := "KeyError";
                           exn_str := should_continue analysed;
                           is_Exception := true |}
          end).
  destruct (analyze_node env state) as [analysed|e] eqn:Hnode; [|done].
  cbn [bind_result]. rewrite (route_after_analyze_io _ _ Hnode).
  destruct (truthy_opt_str (error state)); [done|].
  by destruct (analyze_body env state).
Qed.

(** The whole graph run, node by node. *)
Lemma run_graph_closed_io text :
  run_graph env text
  = (analysed ←? analyze_node env (initial_state text);
     if String.eqb (should_continue analysed) "chapters"
     then written ←? write_chapters_node env analysed;
          if String.eqb (should_continue written) "integrate"
          then next ←? integrate_node env written;
               Ok (["analyze"; "write_chapters"; "integrate"], next)
          else Ok (["analyze"; "write_chapters"], written)
     else Ok (["analyze"], analysed)).
Proof.
  unfold run_graph, ainvoke.
  change recursion_limit with (S (S (S 22))).
  change (entry_point (create_orchestrator env)) with "analyze".
  rewrite run_from_analyze_io.
  destruct (analyze_node env (initial_state text)) as [analysed|e]; [|done].
  cbn [bind_result].
  destruct (String.eqb (should_continue analysed) "chapters"); [|done].
  by rewrite run_from_write_chapters_io.
Qed.

(** A graph run that returns ends in a state that either carries an error
    message, the step ["error"] and no autobiography, or no error, the step
    ["complete"] and an autobiography. *)
Lemma run_graph_final_io text visited final :
  run_graph env text = Ok (visited, final) →
  (∃ msg, error final = Some msg ∧ current_step final = "error" ∧
          final_autobiography final = None) ∨
  (∃ r, error final = None ∧ current_step final = "complete" ∧
        final_autobiography final = Some r).
Proof.
  rewrite run_graph_closed_io.
  destruct (analyze_node env (initial_state text)) as [analysed|e] eqn:Hana;
    [|done].
  cbn [bind_result].
  destruct (analyze_node_returned _ _ Hana)
    as [(a & _ & _ & ->)|(e & _ & _ & ->)].
  2: { rewrite should_continue_error. cbn. intros [= <- <-].
       left. by eexists. }
  change (should_continue (spread_analysis (initial_state text) a))
    with "chapters".
  cbn [String.eqb Ascii.eqb Bool.eqb].
  set (analysed := spread_analysis (initial_state text) a).
  destruct (write_chapters_node env analysed) as [written|e] eqn:Hwrite;
    [|done].
  cbn [bind_result].
  destruct (write_chapters_node_returned _ _ Hwrite)
    as [(chapters & _ & ->)|(e & _ & _ & ->)].
  2: { rewrite should_continue_error. cbn. intros [= <- <-].
       left. by eexists. }
  destruct (spread_chapters_fields analysed chapters)
    as (_ & _ & Hfinal & Hstep & Herr).
  unfold should_continue at 1. rewrite Herr, Hstep.
  cbn [analysed spread_analysis error initial_state truthy_opt_str
       String.eqb Ascii.eqb Bool.eqb].
  set (written := spread_chapters analysed chapters) in *.
  destruct (integrate_node env written) as [next|e] eqn:Hint; [|done].
  cbn [bind_result]. intros [= <- <-].
  destruct (integrate_node_returned _ _ Hint)
    as [(r & _ & ->)|(e & _ & _ & ->)].
  - right. exists r.
    cbn [spread_final error current_step final_autobiography].
    by rewrite Herr.
  - left. eexists.
    cbn [spread_error error current_step final_autobiography].
    by rewrite Hfinal.
Qed.

(** A graph run raises only what the opening line of a node raises, or an
    exception that is not an [Exception]. *)
Lemma run_graph_raises_io text e :
  run_graph env text = Exn e →
  (∃ line,
     line ∈ [analyze_banner; write_chapters_banner; integrate_banner] ∧
     print env line = Exn e) ∨
  is_Exception e = false.
Proof.
  rewrite run_graph_closed_io.
  destruct (analyze_node env (initial_state text)) as [analysed|e'] eqn:Hana.
  2: { cbn. intros [= <-].
       destruct (analyze_node_raises _ _ Hana) as [Hp|He]; [left|by right].
       exists analyze_banner. split; [|done]. apply list_elem_of_here. }
  cbn [bind_result].
  destruct (String.eqb (should_continue analysed) "chapters"); [|done].
  destruct (write_chapters_node env analysed) as [written|e'] eqn:Hwrite.
  2: { cbn. intros [= <-].
       destruct (write_chapters_node_raises _ _ Hwrite) as [Hp|He];
         [left|by right].
       exists write_chapters_banner. split; [|done].
       apply list_elem_of_further, list_elem_of_here. }
  cbn [bind_result].
  destruct (String.eqb (should_continue written) "integrate"); [|done].
  destruct (integrate_node env written) as [next|e'] eqn:Hint; [done|].
  cbn. intros [= <-].
  destruct (integrate_node_raises _ _ Hint) as [Hp|He]; [left|by right].
  exists integrate_banner. split; [|done].
  do 2 apply list_elem_of_further. apply list_elem_of_here.
Qed.

(** *** The extraction step on a console that takes every line *)

Lemma collect_chapter_accepted display_name call :
  console_accepts env →
  collect_chapter env display_name (gathered_object call)
  = Ok (slot_of_result call).
Proof.
  intros Hprint. unfold collect_chapter, gathered_object, slot_of_result.
  destruct call as [section|e]; [|destruct (is_Exception e)];
    by rewrite Hprint.
Qed.

Lemma write_chapters_body_ok_io state :
  console_accepts env →
  chat_model_init env = None →
  write_chapters_body env state
  = Ok {| transcript := transcript state;
          analysis := analysis state;
          childhood_chapter :=
            slot_of_result (agent_ainvoke env Childhood (transcript state));
          youth_chapter :=
            slot_of_result (agent_ainvoke env Youth (transcript state));
          middle_age_chapter :=
            slot_of_result (agent_ainvoke env MiddleAge (transcript state));
          mature_chapter :=
            slot_of_result (agent_ainvoke env Mature (transcript state));
          elderly_chapter :=
            slot_of_result (agent_ainvoke env Elderly (transcript state));
          final_autobiography := final_autobiography state;
          current_step := "integrate";
          error := error state |}.
Proof.
  intros Hprint Hchat.
  unfold write_chapters_body, create_chain. rewrite Hchat.
  cbn [bind_result]. rewrite gather_objects_by_position.
  cbn [fmap list_fmap zip zip_with chapter_names display_names
       collect_chapters].
  by rewrite !collect_chapter_accepted.
Qed.

Lemma write_chapters_node_accepted state :
  console_accepts env →
  write_chapters_node env state
  = try_except_Exception (write_chapters_body env state) (spread_error state).
Proof. intros Hprint. unfold write_chapters_node. by rewrite Hprint. Qed.

(** *** Nodes whose opening line can be printed *)

Lemma analyze_node_total state :
  raises_only_Exceptions env →
  print env analyze_banner = Ok tt →
  analyze_node env state
  = Ok match analyze_body env state with
       | Ok advanced => advanced
       | Exn e => spread_error state (exn_str e)
       end.
Proof.
  intros Honly Hbanner. unfold analyze_node. fold analyze_banner.
  rewrite Hbanner. cbn [bind_result]. unfold try_except_Exception.
  destruct (analyze_body env state) as [|e] eqn:Hbody; [done|].
  by rewrite (analyze_body_raises _ _ Honly Hbody).
Qed.

Lemma write_chapters_node_total state :
  raises_only_Exceptions env →
  print env write_chapters_banner = Ok tt →
  write_chapters_node env state
  = Ok match write_chapters_body env state with
       | Ok advanced => advanced
       | Exn e => spread_error state (exn_str e)
       end.
Proof.
  intros Honly Hbanner. unfold write_chapters_node.
  fold write_chapters_banner.
  rewrite Hbanner. cbn [bind_result]. unfold try_except_Exception.
  destruct (write_chapters_body env state) as [|e] eqn:Hbody; [done|].
  by rewrite (write_chapters_body_raises _ _ Honly Hbody).
Qed.

Lemma integrate_node_total state :
  raises_only_Exceptions env →
  print env integrate_banner = Ok tt →
  integrate_node env state
  = Ok match integrate_body env state with
       | Ok advanced => advanced
       | Exn e => spread_error state (exn_str e)
       end.
Proof.
  intros Honly Hbanner. unfold integrate_node. fold integrate_banner.
  rewrite Hbanner. cbn [bind_result]. unfold try_except_Exception.
  destruct (integrate_body env state) as [|e] eqn:Hbody; [done|].
  by rewrite (integrate_body_raises _ _ Honly Hbody).
Qed.

(** With the three opening lines printable, the driver started at any node
    on any state ends with a final state. *)
Lemma run_from_total (name : string) state :
  raises_only_Exceptions env →
  print env analyze_banner = Ok tt →
  print env write_chapters_banner = Ok tt →
  print env integrate_banner = Ok tt →
  name ∈ ["analyze"; "write_chapters"; "integrate"] →
  ∃ visited final,
    run_from (create_orchestrator env) recursion_limit name state []
    = Ok (visited, final).
Proof.
  intros Honly Hb1 Hb2 Hb3 Hname.
  assert (∀ s v, ∃ visited final,
            run_from (create_orchestrator env) (S 22) "integrate" s v
            = Ok (visited, final)) as Hintegrate.
  { intros s v. rewrite run_from_integrate_io.
    rewrite (integrate_node_total s Honly Hb3). by do 2 eexists. }
  assert (∀ s v, ∃ visited final,
            run_from (create_orchestrator env) (S (S 22)) "write_chapters" s v
            = Ok (visited, final)) as Hwrite.
  { intros s v. rewrite run_from_write_chapters_io.
    rewrite (write_chapters_node_total s Honly Hb2). cbn [bind_result].
    destruct (String.eqb _ _); [|by do 2 eexists].
    rewrite (integrate_node_total _ Honly Hb3). by do 2 eexists. }
  apply elem_of_cons in Hname as [->|Hname].
  { change recursion_limit with (S (S (S 22))). rewrite run_from_analyze_io.
    rewrite (analyze_node_total state Honly Hb1). cbn [bind_result].
    destruct (String.eqb _ _); [apply Hwrite|by do 2 eexists]. }
  apply elem_of_cons in Hname as [->|Hname].
  { change recursion_limit with (S (S 23)). rewrite run_from_write_chapters_io.
    rewrite (write_chapters_node_total state Honly Hb2). cbn [bind_result].
    destruct (String.eqb _ _); [|by do 2 eexists].
    rewrite (integrate_node_total _ Honly Hb3). by do 2 eexists. }
  apply elem_of_cons in Hname as [->|Hname]; [|by apply elem_of_nil in Hname].
  change recursion_limit with (S 24). rewrite run_from_integrate_io.
  rewrite (integrate_node_total state Honly Hb3). by do 2 eexists.
Qed.

(** Started at any node, the driver raises only what the opening line of a
    node raises, or an exception that is not an [Exception]. *)
Lemma run_from_raises (name : string) state e :
  name ∈ ["analyze"; "write_chapters"; "integrate"] →
  run_from (create_orchestrator env) recursion_limit name state [] = Exn e →
  (∃ line,
     line ∈ [analyze_banner; write_chapters_banner; integrate_banner] ∧
     print env line = Exn e) ∨
  is_Exception e = false.
Proof.
  intros Hname.
  assert (∀ n s v,
            run_from (create_orchestrator env) (S n) "integrate" s v = Exn e →
            (∃ line,
               line ∈ [analyze_banner; write_chapters_banner;
                       integrate_banner] ∧
               print env line = Exn e) ∨
            is_Exception e = false) as Hintegrate.
  { intros n s v. rewrite run_from_integrate_io.
    destruct (integrate_node env s) as [next|e'] eqn:Hnode; [done|].
    cbn. intros [= <-].
    destruct (integrate_node_raises _ _ Hnode) as [Hp|He]; [left|by right].
    exists integrate_banner. split; [|done].
    do 2 apply list_elem_of_further. apply list_elem_of_here. }
  assert (∀ n s v,
            run_from (create_orchestrator env) (S (S n)) "write_chapters" s v
            = Exn e →
            (∃ line,
               line ∈ [analyze_banner; write_chapters_banner;
                       integrate_banner] ∧
               print env line = Exn e) ∨
            is_Exception e = false) as Hwrite.
  { intros n s v. rewrite run_from_write_chapters_io.
    destruct (write_chapters_node env s) as [written|e'] eqn:Hnode.
    2: { cbn. intros [= <-].
         destruct (write_chapters_node_raises _ _ Hnode) as [Hp|He];
           [left|by right].
         exists write_chapters_banner. split; [|done].
         apply list_elem_of_further, list_elem_of_here. }
    cbn [bind_result].
    destruct (String.eqb _ _); [|done].
    intros Hrun. apply (Hintegrate 0 written (v ++ ["write_chapters"])).
    rewrite run_from_integrate_io. by rewrite <- app_assoc. }
  apply elem_of_cons in Hname as [->|Hname].
  { change recursion_limit with (S (S (S 22))). rewrite run_from_analyze_io.
    destruct (analyze_node env state) as [analysed|e'] eqn:Hnode.
    2: { cbn. intros [= <-].
         destruct (analyze_node_raises _ _ Hnode) as [Hp|He]; [left|by right].
         exists analyze_banner. split; [|done]. apply list_elem_of_here. }
    cbn [bind_result].
    destruct (String.eqb _ _); [apply Hwrite|done]. }
  apply elem_of_cons in Hname as [->|Hname].
  { change recursion_limit with (S (S 23)). apply Hwrite. }
  apply elem_of_cons in Hname as [->|Hname]; [|by apply elem_of_nil in Hname].
  change recursion_limit with (S 24). apply Hintegrate.
Qed.

(** *** The integration step after the extraction step *)

Lemma chapter_entry_stored period age_range (call : result LifeStorySection) :
  (∀ e, call = Exn e → is_Exception e = true) →
  chapter_entry period age_range (slot_of_result call)
  = Ok (chapter_info period age_range
          match call with
          | Ok section => Some section
          | Exn _ => None
          end).
Proof.
  intros Hcall. destruct call as [section|e]; [done|].
  unfold slot_of_result. by rewrite (Hcall e eq_refl).
Qed.

End ConsoleFacts.

(** ** The two readings of the pipeline agree *)

(** On a console that takes every line and with calls that fail with an
    [Exception], what [OrchestratorIO] computes is what [Orchestrator]
    computes, exception by message. *)
Section Readings.
Import Orchestrator OrchestratorIO.
Variable env : services.
Hypothesis accepts : console_accepts env.
Hypothesis only_Exceptions : raises_only_Exceptions env.
Implicit Types (state : Orchestrator.AutobiographyState).

Lemma analyze_node_reading state :
  analyze_node env (with_sections state)
  = Ok (with_sections (Orchestrator.analyze_node (messages_of env) state)).
Proof.
  rewrite (analyze_node_total env _ only_Exceptions (accepts _)).
  unfold analyze_body, create_chain, Orchestrator.analyze_node,
    Orchestrator.analyze_body, Orchestrator.create_chain.
  cbn [messages_of Orchestrator.chat_model_init
       Orchestrator.analyzer_ainvoke with_sections transcript].
  destruct (chat_model_init env) as [e|]; [done|].
  cbn [fmap option_fmap option_map bind_result bind_outcome].
  destruct (analyzer_ainvoke env _) as [a|e]; [|done].
  cbn [bind_result message_of bind_outcome]. by rewrite accepts.
Qed.

Lemma slot_of_result_reading (call : result LifeStorySection) :
  (∀ e, call = Exn e → is_Exception e = true) →
  slot_of_result call = SectionObject <$> slot_of_outcome (message_of call).
Proof.
  intros Hcall. destruct call as [section|e]; [done|].
  unfold slot_of_result. by rewrite (Hcall e eq_refl).
Qed.

Lemma write_chapters_node_reading state :
  write_chapters_node env (with_sections state)
  = Ok (with_sections
          (Orchestrator.write_chapters_node (messages_of env) state)).
Proof.
  rewrite (write_chapters_node_accepted env _ accepts).
  destruct (chat_model_init env) as [e|] eqn:Hchat.
  - rewrite (write_chapters_node_no_model (messages_of env) state (exn_str e))
      by (cbn; by rewrite Hchat).
    unfold write_chapters_body, create_chain. rewrite Hchat.
    cbn [bind_result try_except_Exception].
    destruct only_Exceptions as (_ & Hc & _).
    by rewrite (Hc e Hchat).
  - rewrite (write_chapters_node_ok (messages_of env) state)
      by (cbn; by rewrite Hchat).
    rewrite (write_chapters_body_ok_io env _ accepts Hchat).
    cbn [try_except_Exception with_sections transcript analysis
         final_autobiography error messages_of
         Orchestrator.agent_ainvoke Orchestrator.transcript
         Orchestrator.analysis Orchestrator.childhood_chapter
         Orchestrator.youth_chapter Orchestrator.middle_age_chapter
         Orchestrator.mature_chapter Orchestrator.elderly_chapter
         Orchestrator.final_autobiography Orchestrator.current_step
         Orchestrator.error].
    destruct only_Exceptions as (_ & _ & _ & Hagents & _).
    by rewrite !slot_of_result_reading by (intros e; apply Hagents).
Qed.

Lemma chapter_entries_reading state :
  chapter_entries (chapter_data (with_sections state))
  = Ok (Orchestrator.chapters_info state).
Proof.
  unfold chapter_data, Orchestrator.chapters_info, Orchestrator.chapter_data.
  cbn [with_sections childhood_chapter youth_chapter middle_age_chapter
       mature_chapter elderly_chapter].
  destruct (Orchestrator.childhood_chapter state),
    (Orchestrator.youth_chapter state),
    (Orchestrator.middle_age_chapter state),
    (Orchestrator.mature_chapter state),
    (Orchestrator.elderly_chapter state); reflexivity.
Qed.

Lemma integrate_node_reading state :
  integrate_node env (with_sections state)
  = Ok (with_sections (Orchestrator.integrate_node (messages_of env) state)).
Proof.
  rewrite (integrate_node_total env _ only_Exceptions (accepts _)).
  unfold integrate_body, Orchestrator.integrate_node,
    Orchestrator.integrate_body.
  rewrite chapter_entries_reading. cbn [bind_result].
  change (analysis (with_sections state))
    with (Orchestrator.analysis state).
  destruct (Orchestrator.analysis state) as [a|]; [|done].
  cbn [require_analysis Orchestrator.require_analysis bind_result
       bind_outcome].
  unfold create_chain, Orchestrator.create_chain.
  cbn [messages_of Orchestrator.chat_model_init
       Orchestrator.integrator_ainvoke].
  destruct (chat_model_init env) as [e|]; [done|].
  cbn [fmap option_fmap option_map bind_result bind_outcome].
  destruct (integrator_ainvoke env _) as [r|e]; [|done].
  cbn [bind_result message_of bind_outcome]. by rewrite accepts.
Qed.

Lemma run_graph_reading text :
  run_graph env text
  = match Orchestrator.run_graph (messages_of env) text with
    | Returned (visited, final) => Ok (visited, with_sections final)
    | Raised msg => Exn (Exception msg)
    end.
Proof.
  rewrite run_graph_closed_io.
  unfold Orchestrator.run_graph, Orchestrator.ainvoke.
  change Orchestrator.recursion_limit with (S (S (S 22))).
  change (Orchestrator.entry_point
            (Orchestrator.create_orchestrator (messages_of env)))
    with "analyze".
  rewrite run_from_analyze, run_from_write_chapters.
  change (initial_state text)
    with (with_sections (Orchestrator.initial_state text)).
  rewrite analyze_node_reading. cbn [bind_result].
  set (analysed := Orchestrator.analyze_node (messages_of env)
                     (Orchestrator.initial_state text)).
  change (should_continue (with_sections analysed))
    with (Orchestrator.should_continue analysed).
  destruct (String.eqb (Orchestrator.should_continue analysed) "chapters");
    [|done].
  rewrite write_chapters_node_reading. cbn [bind_result].
  set (written := Orchestrator.write_chapters_node (messages_of env)
                    analysed).
  change (should_continue (with_sections written))
    with (Orchestrator.should_continue written).
  destruct (String.eqb (Orchestrator.should_continue written) "integrate");
    [|done].
  by rewrite integrate_node_reading.
Qed.

(** The run raises in one reading exactly when it raises in the other, with
    the same message, and returns the same result. *)
Lemma run_reading text :
  message_of (run_autobiography_generation env text)
  = Orchestrator.run_autobiography_generation (messages_of env) text.
Proof.
  unfold run_autobiography_generation,
    Orchestrator.run_autobiography_generation.
  rewrite accepts. cbn [bind_result]. rewrite run_graph_reading.
  destruct (run_graph_final (messages_of env) text)
    as (visited & final & -> & _).
  cbn [bind_result bind_outcome snd].
  change (error (with_sections final)) with (Orchestrator.error final).
  change (final_autobiography (with_sections final))
    with (Orchestrator.final_autobiography final).
  destruct (truthy_opt_str (Orchestrator.error final)); [done|].
  by rewrite accepts.
Qed.
End Readings.

(** ** The pipeline *)

Section PipelineClaims.
Import Orchestrator.

(** C3: at a failing input.  The analysis call raises an exception whose
    message is empty.  The run goes from the analysis node straight to the
    end, the extraction node is never run and the state records the error;
    but [run_autobiography_generation] then returns [None] instead of
    raising the analysis failure. *)
Theorem analysis_failure_without_message :
  analyze_body Examples.silent_analysis_failure (initial_state "transcript")
  = Raised "" ∧
  run_graph Examples.silent_analysis_failure "transcript"
  = Returned (["analyze"], spread_error (initial_state "transcript") "") ∧
  run_autobiography_generation Examples.silent_analysis_failure "transcript"
  = Returned None.
Proof. by vm_compute. Qed.

(** C4: at a failing input.  The integration call raises an exception whose
    message is empty.  The final state has [error] set (to the empty
    string), the step ["error"] and no autobiography, yet
    [run_autobiography_generation] does not raise: it returns [None], from
    a state that never reached ["complete"]. *)
Theorem integration_failure_without_message :
  ∃ final,
    run_graph Examples.silent_integration_failure "transcript"
    = Returned (["analyze"; "write_chapters"; "integrate"], final) ∧
    error final = Some "" ∧
    current_step final = "error" ∧
    final_autobiography final = None ∧
    run_autobiography_generation Examples.silent_integration_failure
      "transcript"
    = Returned None.
Proof. eexists. by vm_compute. Qed.

End PipelineClaims.

(** ** The extraction step and the node boundary *)

Section ConsoleClaims.
Import Orchestrator OrchestratorIO.

(** C2, as stated, at three concrete inputs.  Without an API key the agents
    cannot be constructed: the step fails as a whole, it records the error,
    stores no slot and the run ends without reaching integration.  With the
    youth call cancelled, the slot does not hold null but the exception
    object.  On a console that cannot encode the step's opening line, the
    step raises. *)
Lemma fan_out_can_fail :
  (∃ failed,
     write_chapters_node no_api_key analysed_state = Ok failed ∧
     current_step failed = "error" ∧
     current_step failed ≠ "integrate" ∧
     error failed = Some "The api_key client option must be set" ∧
     run_from (create_orchestrator no_api_key) recursion_limit
       "write_chapters" analysed_state []
     = Ok (["write_chapters"], failed)) ∧
  (∃ written,
     agent_ainvoke youth_cancelled Youth (transcript analysed_state)
     = Exn CancelledError ∧
     write_chapters_node youth_cancelled analysed_state = Ok written ∧
     youth_chapter written = Some (ExceptionObject CancelledError) ∧
     youth_chapter written ≠ None) ∧
  (∃ e,
     write_chapters_node on_ascii_console analysed_state = Exn e ∧
     exn_class e = "UnicodeEncodeError").
Proof.
  split; [|split].
  - eexists. split; [vm_compute; reflexivity|]. by vm_compute.
  - eexists. split; [reflexivity|].
    split; [vm_compute; reflexivity|]. by vm_compute.
  - eexists. split; [vm_compute; reflexivity|]. reflexivity.
Qed.

(** C2, amended: on a console that takes the step's lines, the extraction
    step fails as a whole only when an agent cannot be constructed.  With
    the agents constructed, whatever the five calls do and in whatever order
    they finish, the step returns; the slot of each stage holds the value
    returned by that stage's call, or null when that call raised an
    [Exception], whatever the other calls did; the rest of the state is
    unchanged, the next step is ["integrate"], and the driver goes on to
    the integration node (unless the incoming state already carried an
    error message), also when all five calls raise.  When constructing an
    agent raises an [Exception], the step returns the state with the error
    recorded and the run ends after it. *)
Theorem fan_out_isolates_failures
    (env : services) (state : AutobiographyState)
    (n : nat) (visited : list string) :
  console_accepts env →
  match chat_model_init env with
  | None =>
      ∃ written,
        write_chapters_node env state = Ok written ∧
        (∀ stage,
           match agent_ainvoke env stage (transcript state) with
           | Ok section =>
               chapter_of stage written = Some (SectionObject section)
           | Exn e =>
               is_Exception e = true → chapter_of stage written = None
           end) ∧
        current_step written = "integrate" ∧
        error written = error state ∧
        transcript written = transcript state ∧
        analysis written = analysis state ∧
        final_autobiography written = final_autobiography state ∧
        run_from (create_orchestrator env) (S (S n)) "write_chapters"
          state visited
        = if truthy_opt_str (error state)
          then Ok (visited ++ ["write_chapters"], written)
          else (next ←? integrate_node env written;
                Ok (visited ++ ["write_chapters"; "integrate"], next))
  | Some e =>
      is_Exception e = true →
      write_chapters_node env state = Ok (spread_error state (exn_str e)) ∧
      run_from (create_orchestrator env) (S (S n)) "write_chapters"
        state visited
      = Ok (visited ++ ["write_chapters"], spread_error state (exn_str e))
  end.
Proof.
  intros Hprint.
  destruct (chat_model_init env) as [e|] eqn:Hc.
  - intros He.
    assert (write_chapters_node env state
            = Ok (spread_error state (exn_str e))) as Hnode.
    { rewrite (write_chapters_node_accepted env state Hprint).
      unfold write_chapters_body, create_chain. rewrite Hc. cbn.
      by rewrite He. }
    split; [done|].
    rewrite run_from_write_chapters_io, Hnode. cbn [bind_result].
    by rewrite should_continue_error.
  - pose proof (write_chapters_body_ok_io env state Hprint Hc) as Hbody.
    assert (write_chapters_node env state = write_chapters_body env state)
      as Hnode.
    { rewrite (write_chapters_node_accepted env state Hprint).
      by rewrite Hbody. }
    eexists. split; [by rewrite Hnode, Hbody|].
    split.
    { intros stage. unfold slot_of_result.
      destruct stage; cbn [chapter_of childhood_chapter youth_chapter
                           middle_age_chapter mature_chapter elderly_chapter];
        match goal with
        | |- context [agent_ainvoke env ?s (transcript state)] =>
            destruct (agent_ainvoke env s (transcript state)) as [section|e]
        end;
        first [done|by intros ->]. }
    do 5 (split; [done|]).
    rewrite run_from_write_chapters_io, Hnode, Hbody. cbn [bind_result].
    unfold should_continue at 1. cbn [error current_step].
    by destruct (truthy_opt_str (error state)).
Qed.

Lemma fan_out_isolates_failures_witness :
  console_accepts all_branches_time_out ∧
  ∃ written,
    write_chapters_node all_branches_time_out analysed_state = Ok written ∧
    (∀ stage, chapter_of stage written = None) ∧
    current_step written = "integrate".
Proof.
  assert (console_accepts all_branches_time_out) as Hprint.
  { intros line. reflexivity. }
  split; [exact Hprint|].
  destruct (fan_out_isolates_failures all_branches_time_out analysed_state
              0 [] Hprint)
    as (written & Hnode & Hslots & Hstep & _).
  exists written. split; [exact Hnode|]. split; [|exact Hstep].
  intros stage. exact (Hslots stage eq_refl).
Defined.

(** C5, as stated, at two concrete inputs.  On a console whose encoding
    lacks the characters of the progress lines, each node raises
    [UnicodeEncodeError] from the line it prints before its [try], and the
    graph run raises it to its caller.  A cancelled analysis call raises
    [CancelledError], which [except Exception] does not catch. *)
Lemma nodes_can_raise :
  (∃ e,
     analyze_node on_ascii_console (initial_state "transcript") = Exn e ∧
     write_chapters_node on_ascii_console analysed_state = Exn e ∧
     integrate_node on_ascii_console analysed_state = Exn e ∧
     run_graph on_ascii_console "transcript" = Exn e ∧
     exn_class e = "UnicodeEncodeError" ∧ is_Exception e = true) ∧
  analyze_node analysis_cancelled (initial_state "transcript")
  = Exn CancelledError ∧
  run_graph analysis_cancelled "transcript" = Exn CancelledError.
Proof.
  split; [|split; reflexivity].
  eexists. split; [vm_compute; reflexivity|]. by vm_compute.
Qed.

(** C5, amended: when the opening line of each node can be printed, no
    node raises an [Exception].  A node that returns has returned the state
    its body returned, with the step advanced and the error untouched, or,
    when its body raised an [Exception], the same state with [error] set to
    the exception's message and the step set to ["error"].  What a node or
    the driver can still raise is an exception that is not an [Exception];
    when console, constructor and calls raise only [Exception]s, every node
    returns and the driver, started at any node on any state, ends with a
    final state. *)
Theorem nodes_translate_exceptions
    (env : services) (state : AutobiographyState) :
  print env analyze_banner = Ok tt →
  print env write_chapters_banner = Ok tt →
  print env integrate_banner = Ok tt →
  (∀ e, analyze_node env state = Exn e ∨
        write_chapters_node env state = Exn e ∨
        integrate_node env state = Exn e →
        is_Exception e = false) ∧
  (∀ next, analyze_node env state = Ok next →
     (analyze_body env state = Ok next ∧ error next = error state ∧
      current_step next = "chapters") ∨
     (∃ e, analyze_body env state = Exn e ∧ is_Exception e = true ∧
           next = spread_error state (exn_str e) ∧
           error next = Some (exn_str e) ∧ current_step next = "error")) ∧
  (∀ next, write_chapters_node env state = Ok next →
     (write_chapters_body env state = Ok next ∧ error next = error state ∧
      current_step next = "integrate") ∨
     (∃ e, write_chapters_body env state = Exn e ∧ is_Exception e = true ∧
           next = spread_error state (exn_str e) ∧
           error next = Some (exn_str e) ∧ current_step next = "error")) ∧
  (∀ next, integrate_node env state = Ok next →
     (integrate_body env state = Ok next ∧ error next = error state ∧
      current_step next = "complete") ∨
     (∃ e, integrate_body env state = Exn e ∧ is_Exception e = true ∧
           next = spread_error state (exn_str e) ∧
           error next = Some (exn_str e) ∧ current_step next = "error")) ∧
  (∀ name e, name ∈ ["analyze"; "write_chapters"; "integrate"] →
     run_from (create_orchestrator env) recursion_limit name state [] = Exn e →
     is_Exception e = false) ∧
  (raises_only_Exceptions env →
   (∃ next, analyze_node env state = Ok next) ∧
   (∃ next, write_chapters_node env state = Ok next) ∧
   (∃ next, integrate_node env state = Ok next) ∧
   (∀ name, name ∈ ["analyze"; "write_chapters"; "integrate"] →
      ∃ visited final,
        run_from (create_orchestrator env) recursion_limit name state []
        = Ok (visited, final))).
Proof.
  intros Hb1 Hb2 Hb3.
  split; [|split; [|split; [|split; [|split]]]].
  - intros e [Hnode|[Hnode|Hnode]].
    + destruct (analyze_node_raises _ _ _ Hnode) as [Hp|He]; [|done].
      by rewrite Hb1 in Hp.
    + destruct (write_chapters_node_raises _ _ _ Hnode) as [Hp|He]; [|done].
      by rewrite Hb2 in Hp.
    + destruct (integrate_node_raises _ _ _ Hnode) as [Hp|He]; [|done].
      by rewrite Hb3 in Hp.
  - intros next Hnode.
    destruct (analyze_node_returned _ _ _ Hnode)
      as [(a & Hbody & _ & ->)|(e & Hbody & He & ->)]; [by left|].
    right. by exists e.
  - intros next Hnode.
    destruct (write_chapters_node_returned _ _ _ Hnode)
      as [(chapters & Hbody & ->)|(e & Hbody & He & ->)].
    + left. split; [done|].
      by destruct (spread_chapters_fields state chapters)
        as (_ & _ & _ & -> & ->).
    + right. by exists e.
  - intros next Hnode.
    destruct (integrate_node_returned _ _ _ Hnode)
      as [(r & Hbody & ->)|(e & Hbody & He & ->)]; [by left|].
    right. by exists e.
  - intros name e Hname Hrun.
    destruct (run_from_raises _ _ _ _ Hname Hrun)
      as [(line & Hline & Hp)|He]; [|done].
    rewrite !elem_of_cons in Hline.
    destruct Hline as [->|[->|[->|Hnil]]];
      first [by apply elem_of_nil in Hnil|congruence].
  - intros Honly.
    split; [eexists; by apply analyze_node_total|].
    split; [eexists; by apply write_chapters_node_total|].
    split; [eexists; by apply integrate_node_total|].
    intros name Hname. by apply run_from_total.
Qed.

Lemma nodes_translate_exceptions_witness :
  print analysis_times_out analyze_banner = Ok tt ∧
  print analysis_times_out write_chapters_banner = Ok tt ∧
  print analysis_times_out integrate_banner = Ok tt ∧
  raises_only_Exceptions analysis_times_out ∧
  ∃ visited final,
    run_from (create_orchestrator analysis_times_out) recursion_limit
      "analyze" (initial_state "transcript") []
    = Ok (visited, final).
Proof.
  assert (raises_only_Exceptions analysis_times_out) as Honly.
  { split; [intros line e; discriminate|].
    split; [intros e; discriminate|].
    split; [by intros text e [= <-]|].
    split; [intros stage text e; discriminate|].
    intros request e; discriminate. }
  do 3 (split; [reflexivity|]). split; [exact Honly|].
  destruct (nodes_translate_exceptions analysis_times_out
              (initial_state "transcript") eq_refl eq_refl eq_refl)
    as (_ & _ & _ & _ & _ & Hreturns).
  destruct (Hreturns Honly) as (_ & _ & _ & Hdriver).
  apply (Hdriver "analyze"). apply list_elem_of_here.
Defined.

End ConsoleClaims.

(** ** Failed and empty extractions look the same downstream *)

Section Indistinguishable.
Import Orchestrator.
Variables (env1 env2 : services) (text : string).
Hypothesis same_model : chat_model_init env1 = chat_model_init env2.
Hypothesis same_analysis :
  analyzer_ainvoke env1 text = analyzer_ainvoke env2 text.
Hypothesis same_integrator :
  ∀ request, integrator_ainvoke env1 request = integrator_ainvoke env2 request.
Hypothesis same_or_absent :
  ∀ stage,
    agent_ainvoke env1 stage text = agent_ainvoke env2 stage text ∨
    (absent (slot_of_outcome (agent_ainvoke env1 stage text)) = true ∧
     absent (slot_of_outcome (agent_ainvoke env2 stage text)) = true).

Lemma slot_entries_agree stage period age_range :
  chapter_info period age_range
    (slot_of_outcome (agent_ainvoke env1 stage text))
  = chapter_info period age_range
      (slot_of_outcome (agent_ainvoke env2 stage text)).
Proof.
  destruct (same_or_absent stage) as [->|[Ha1 Ha2]]; [done|].
  by rewrite !chapter_info_absent.
Qed.

(** Two runs whose services differ only in how a period came to have no
    content give the caller the same answer. *)
Lemma runs_agree :
  run_autobiography_generation env1 text
  = run_autobiography_generation env2 text.
Proof.
  unfold run_autobiography_generation. rewrite !run_graph_closed.
  unfold analyze_body, create_chain.
  change (transcript (initial_state text)) with text.
  rewrite <- same_model, <- same_analysis.
  destruct (chat_model_init env1) as [msg|] eqn:Hchat1; [done|].
  assert (chat_model_init env2 = None) as Hchat2 by by rewrite <- same_model.
  destruct (analyzer_ainvoke env1 text) as [a|msg]; [|done].
  cbn [bind_outcome].
  set (analysed := spread_analysis (initial_state text) a).
  rewrite (write_chapters_body_ok env1 analysed Hchat1).
  rewrite (write_chapters_body_ok env2 analysed Hchat2).
  rewrite (write_chapters_node_ok env1 analysed Hchat1).
  rewrite (write_chapters_node_ok env2 analysed Hchat2).
  cbn [bind_outcome snd].
  unfold integrate_node, integrate_body, create_chain.
  rewrite Hchat1, Hchat2.
  unfold chapters_info, chapter_data.
  cbn [fmap list_fmap analysis childhood_chapter youth_chapter
       middle_age_chapter mature_chapter elderly_chapter
       require_analysis bind_outcome analysed spread_analysis transcript
       initial_state].
  rewrite !(slot_entries_agree _ _ _), same_integrator.
  destruct (integrator_ainvoke env2 _) as [r|msg]; [done|].
  cbn. by destruct (truthy_str msg).
Qed.
End Indistinguishable.

Section IndistinguishableClaim.
Import Orchestrator.


End IndistinguishableClaim.

(** * Further properties of the splitter *)

Section SplitMore.
Import AudioTranscriber.
Local Open Scope Z_scope.
Implicit Types (fuel : nat) (chunks acc : list chunk).

(** A window inside a recording of length [d]: it starts at or after 0, is not
    empty, ends at or before [d] and is at most [max_chunk] long. *)
Lemma split_loop_bounds max_chunk overlap d :
  0 < overlap < max_chunk →
  ∀ fuel start acc chunks,
    split_loop fuel max_chunk overlap d start acc = Some chunks →
    0 ≤ start →
    Forall (λ c : chunk, 0 ≤ c.1 < c.2 ∧ c.2 ≤ d ∧ c.2 - c.1 ≤ max_chunk) acc →
    Forall (λ c : chunk, 0 ≤ c.1 < c.2 ∧ c.2 ≤ d ∧ c.2 - c.1 ≤ max_chunk)
           chunks.
Proof.
  intros Hov. induction fuel as [|fuel IH]; intros start acc chunks; simpl.
  - discriminate.
  - destruct (start <? d) eqn:Hlt; [|by intros [= <-]].
    apply Z.ltb_lt in Hlt.
    set (e := Z.min (start + max_chunk) d).
    assert (Forall (λ c : chunk,
                      0 ≤ c.1 < c.2 ∧ c.2 ≤ d ∧ c.2 - c.1 ≤ max_chunk)
                   acc → 0 ≤ start →
            Forall (λ c : chunk,
                      0 ≤ c.1 < c.2 ∧ c.2 ≤ d ∧ c.2 - c.1 ≤ max_chunk)
                   (acc ++ [(start, e)])) as Hnew.
    { intros Hacc Hstart. apply Forall_app; split; [done|].
      repeat constructor; simpl; subst e; lia. }
    destruct (d - (e - overlap) <? overlap * 2) eqn:Hstop.
    + intros [= <-] Hstart Hacc. by apply Hnew.
    + apply Z.ltb_ge in Hstop. intros Hrun Hstart Hacc.
      eapply IH; [exact Hrun| |by apply Hnew]. subst e. lia.
Qed.

(** Consecutive windows leave no gap: every instant before the end of the
    last window lies in some window. *)
Lemma chained_covers max_chunk overlap d :
  0 ≤ overlap →
  ∀ chunks start s e,
    chained max_chunk overlap d start chunks →
    list.last chunks = Some (s, e) →
    ∀ t, start ≤ t < e → Exists (λ c : chunk, c.1 ≤ t < c.2) chunks.
Proof.
  intros Hov. induction chunks as [|[s0 e0] rest IH];
    intros start s e Hch Hlast t Ht; [done|].
  destruct Hch as (-> & He0 & Hrest).
  destruct (decide (t < e0)) as [Hin|Hout].
  - apply Exists_cons_hd. simpl. lia.
  - apply Exists_cons_tl. destruct rest as [|c rest'].
    + simpl in Hlast. injection Hlast as <- <-. lia.
    + eapply IH; [exact Hrest|exact Hlast|lia].
Qed.

(** The number of windows the loop emits. *)
Lemma split_loop_count max_chunk overlap d :
  0 < overlap < max_chunk →
  ∀ fuel start acc chunks,
    split_loop fuel max_chunk overlap d start acc = Some chunks →
    overlap * 2 ≤ d - start →
    Z.of_nat (length chunks)
    = Z.of_nat (length acc)
      + (d - start - overlap * 2) / (max_chunk - overlap) + 1.
Proof.
  intros Hov. induction fuel as [|fuel IH]; intros start acc chunks; simpl.
  - discriminate.
  - intros Hrun Hroom.
    rewrite (proj2 (Z.ltb_lt start d)) in Hrun by lia.
    set (e := Z.min (start + max_chunk) d) in *.
    destruct (d - (e - overlap) <? overlap * 2) eqn:Hstop.
    + apply Z.ltb_lt in Hstop. injection Hrun as <-.
      rewrite length_app. simpl.
      rewrite (Z.div_small (d - start - overlap * 2)) by (subst e; lia).
      lia.
    + apply Z.ltb_ge in Hstop.
      assert (e = start + max_chunk) as He by (subst e; lia).
      apply IH in Hrun; [|lia]. rewrite Hrun, length_app. simpl.
      replace (d - (e - overlap) - overlap * 2)
        with ((d - start - overlap * 2) + (-1) * (max_chunk - overlap))
        by lia.
      rewrite Z.div_add by lia. lia.
Qed.

(** X1: for every recording length, the splitter returns a non-empty list of
    chunks that all lie inside the recording and are never longer than the
    maximum chunk duration; for a recording of positive length no chunk is
    empty. *)
Theorem split_chunks_within_limits (d : Z) :
  0 ≤ d →
  ∃ chunks,
    (∀ k : nat, _split_audio (Z.to_nat d + k) d = Some chunks) ∧
    chunks ≠ [] ∧
    Forall (λ c : chunk,
              0 ≤ c.1 ∧ c.1 ≤ c.2 ∧ c.2 ≤ d ∧
              c.2 - c.1 ≤ MAX_CHUNK_DURATION_MS) chunks ∧
    (0 < d → Forall (λ c : chunk, c.1 < c.2) chunks).
Proof.
  intros Hd.
  destruct (split_spec MAX_CHUNK_DURATION_MS OVERLAP_MS d)
    as (chunks & s & e & Hrun & Hlast & _); [by vm_compute|].
  exists chunks. split; [exact Hrun|].
  split; [by intros ->|].
  specialize (Hrun 0%nat). unfold _split_audio, split in Hrun.
  destruct (d <=? MAX_CHUNK_DURATION_MS) eqn:Hshort.
  - apply Z.leb_le in Hshort. injection Hrun as <-. split.
    + repeat constructor; simpl; lia.
    + intros Hpos. by repeat constructor.
  - apply split_loop_bounds in Hrun;
      [|by vm_compute|done|constructor].
    split; [|intros _]; (eapply Forall_impl; [|exact Hrun]);
      simpl; intros c Hc; lia.
Qed.

Lemma split_chunks_within_limits_witness :
  0 ≤ 1260000 ∧
  ∃ chunks,
    (∀ k : nat, _split_audio (Z.to_nat 1260000 + k) 1260000 = Some chunks) ∧
    chunks ≠ [].
Proof.
  split; [lia|].
  destruct (split_chunks_within_limits 1260000) as (chunks & Hrun & Hne & _);
    [lia|].
  by exists chunks.
Defined.

(** X2: for every recording length, the chunks follow one another without a
    gap.  The first starts at 0, each ends one maximum chunk duration after
    its start (clipped to the recording) and the next starts exactly
    [OVERLAP_MS] earlier, so that every instant before the end of the last
    chunk is inside at least one chunk. *)
Theorem split_no_gaps (d : Z) :
  ∃ chunks s e,
    (∀ k : nat, _split_audio (Z.to_nat d + k) d = Some chunks) ∧
    list.last chunks = Some (s, e) ∧
    chained MAX_CHUNK_DURATION_MS OVERLAP_MS d 0 chunks ∧
    ∀ t, 0 ≤ t < e → Exists (λ c : chunk, c.1 ≤ t < c.2) chunks.
Proof.
  destruct (split_spec MAX_CHUNK_DURATION_MS OVERLAP_MS d)
    as (chunks & s & e & Hrun & Hlast & _); [by vm_compute|].
  exists chunks, s, e. split; [exact Hrun|]. split; [exact Hlast|].
  assert (chained MAX_CHUNK_DURATION_MS OVERLAP_MS d 0 chunks) as Hch.
  { specialize (Hrun 0%nat). unfold _split_audio, split in Hrun.
    destruct (d <=? MAX_CHUNK_DURATION_MS) eqn:Hshort.
    - apply Z.leb_le in Hshort. injection Hrun as <-. simpl.
      repeat split; lia.
    - apply split_loop_chained in Hrun as (emitted & -> & Hch). exact Hch. }
  split; [exact Hch|].
  intros t Ht. eapply chained_covers; [|exact Hch|exact Hlast|exact Ht].
  by vm_compute.
Qed.

(** X3: a recording longer than the maximum chunk duration is cut into
    exactly [(d - 2 * OVERLAP_MS) / (MAX_CHUNK_DURATION_MS - OVERLAP_MS) + 1]
    chunks, which is the number of speech-to-text calls issued for it. *)
Theorem split_chunk_count (d : Z) :
  MAX_CHUNK_DURATION_MS < d →
  ∃ chunks,
    (∀ k : nat, _split_audio (Z.to_nat d + k) d = Some chunks) ∧
    Z.of_nat (length chunks)
    = (d - 2 * OVERLAP_MS) / (MAX_CHUNK_DURATION_MS - OVERLAP_MS) + 1.
Proof.
  intros Hlong.
  destruct (split_spec MAX_CHUNK_DURATION_MS OVERLAP_MS d)
    as (chunks & s & e & Hrun & _); [by vm_compute|].
  exists chunks. split; [exact Hrun|].
  specialize (Hrun 0%nat). unfold _split_audio, split in Hrun.
  rewrite (proj2 (Z.leb_gt d MAX_CHUNK_DURATION_MS)) in Hrun by lia.
  apply split_loop_count in Hrun.
  - rewrite Hrun. simpl.
    replace (d - 0 - OVERLAP_MS * 2) with (d - 2 * OVERLAP_MS) by lia. lia.
  - by vm_compute.
  - unfold MAX_CHUNK_DURATION_MS, OVERLAP_MS in *. lia.
Qed.

Lemma split_chunk_count_witness :
  MAX_CHUNK_DURATION_MS < 1260000 ∧
  ∃ chunks,
    (∀ k : nat, _split_audio (Z.to_nat 1260000 + k) 1260000 = Some chunks) ∧
    Z.of_nat (length chunks) = 3.
Proof.
  split; [by vm_compute|].
  destruct (split_chunk_count 1260000) as (chunks & Hrun & Hlen);
    [by vm_compute|].
  exists chunks. split; [exact Hrun|]. rewrite Hlen. reflexivity.
Defined.
End SplitMore.


(** * Further properties of the transcription and of the pipeline *)

Section TranscribeMore.
Import AudioTranscriber.

Lemma first_raised_some {A} (outcomes : list (outcome A)) (l : list nat) i msg :
  i ∈ l → outcomes !! i = Some (Raised msg) →
  ∃ j msg', Asyncio.first_raised outcomes l = Some msg' ∧
            outcomes !! j = Some (Raised msg').
Proof.
  induction l as [|k l IH]; intros Hin Hi; [by apply elem_of_nil in Hin|].
  simpl. destruct (outcomes !! k) as [[a|m]|] eqn:Hk.
  - apply elem_of_cons in Hin as [->|Hin]; [congruence|by apply IH].
  - by exists k, m.
  - apply elem_of_cons in Hin as [->|Hin]; [congruence|by apply IH].
Qed.

(** X4: one failing chunk fails the whole transcription.  If the
    speech-to-text call of any chunk raises, [_transcribe_large_file] raises
    too, with the message of a failing chunk, and returns no partial
    transcript, whatever the other calls return and in whatever order the
    calls finish. *)
Theorem transcription_fails_if_any_chunk_fails
    (transcribe_chunk : nat → chunk → outcome string)
    (fuel : nat) (d : Z) (order : list nat) (chunks : list chunk)
    (i : nat) (c : chunk) (msg : string) :
  _split_audio fuel d = Some chunks →
  chunks !! i = Some c →
  transcribe_chunk i c = Raised msg →
  ∃ j c' msg',
    chunks !! j = Some c' ∧
    transcribe_chunk j c' = Raised msg' ∧
    _transcribe_large_file true transcribe_chunk fuel d order
    = Some (Raised msg').
Proof.
  intros Hsplit Hi Hfail.
  destruct (first_raised_some (imap transcribe_chunk chunks)
              (Asyncio.completions (length (imap transcribe_chunk chunks))
                 order) i msg)
    as (j & msg' & Hfirst & Hj).
  - unfold Asyncio.completions. rewrite elem_of_app, elem_of_seq, length_imap.
    right. apply lookup_lt_Some in Hi. lia.
  - by rewrite list_lookup_imap, Hi; simpl; rewrite Hfail.
  - rewrite list_lookup_imap in Hj.
    destruct (chunks !! j) as [c'|] eqn:Hcj; [|done].
    simpl in Hj. injection Hj as Hj.
    exists j, c', msg'. split; [done|]. split; [done|].
    unfold _transcribe_large_file. simpl. rewrite Hsplit. simpl.
    unfold Asyncio.gather. by rewrite Hfirst.
Qed.

Lemma transcription_fails_if_any_chunk_fails_witness :
  _split_audio 3 1260000
  = Some [(0, 600000); (595000, 1195000); (1190000, 1260000)]%Z ∧
  MoreExamples.second_chunk_fails 1 (595000, 1195000)%Z
  = Raised "Connection error." ∧
  ∃ j c' msg',
    _transcribe_large_file true MoreExamples.second_chunk_fails 3 1260000
      Examples.third_chunk_first
    = Some (Raised msg') ∧
    MoreExamples.second_chunk_fails j c' = Raised msg'.
Proof.
  split; [reflexivity|]. split; [reflexivity|].
  destruct (transcription_fails_if_any_chunk_fails
              MoreExamples.second_chunk_fails 3 1260000
              Examples.third_chunk_first
              [(0, 600000); (595000, 1195000); (1190000, 1260000)]%Z
              1 (595000, 1195000)%Z "Connection error.")
    as (j & c' & msg' & _ & Hj & Hrun); [reflexivity..|].
  by exists j, c', msg'.
Defined.
End TranscribeMore.

Section PipelineMore.
Import Orchestrator.

Lemma analyze_node_transcript env state :
  transcript (analyze_node env state) = transcript state.
Proof.
  by destruct (analyze_node_cases env state)
    as [(msg & _ & ->)|(a & _ & ->)].
Qed.

Lemma write_chapters_node_transcript env state :
  transcript (write_chapters_node env state) = transcript state.
Proof.
  destruct (chat_model_init env) as [msg|] eqn:Hchat.
  - by rewrite (write_chapters_node_no_model env state msg Hchat).
  - by rewrite (write_chapters_node_ok env state Hchat).
Qed.

Lemma integrate_node_transcript env state :
  transcript (integrate_node env state) = transcript state.
Proof.
  by destruct (integrate_node_cases env state)
    as [(msg & _ & ->)|(r & _ & ->)].
Qed.

(** X6: no stage is retried or skipped.  Every run executes the analysis
    node, then possibly the extraction node, then possibly the integration
    node, each at most once and in this order, and the final state still
    carries the transcript the run was started with. *)
Theorem run_visits_stages_in_order (env : services) (text : string) :
  ∃ visited final,
    run_graph env text = Returned (visited, final) ∧
    (visited = ["analyze"] ∨
     visited = ["analyze"; "write_chapters"] ∨
     visited = ["analyze"; "write_chapters"; "integrate"]) ∧
    transcript final = text.
Proof.
  rewrite run_graph_closed.
  destruct (analyze_node_cases env (initial_state text))
    as [(msg & -> & _)|(a & -> & _)].
  { do 2 eexists. split; [done|]. split; [by left|done]. }
  destruct (write_chapters_node_cases env
              (spread_analysis (initial_state text) a))
    as [(msg & -> & _)|(next & -> & Hnext & _)].
  { do 2 eexists. split; [done|]. split; [by right; left|done]. }
  do 2 eexists. split; [done|]. split; [by right; right|].
  by rewrite integrate_node_transcript, <- Hnext,
    write_chapters_node_transcript.
Qed.

(** X7: an error message already present in the state ends the run after
    the current node, whichever node that is and whatever the node itself
    does. *)
Theorem error_in_state_ends_run
    (env : services) (state : AutobiographyState)
    (n : nat) (visited : list string) :
  truthy_opt_str (error state) = true →
  run_from (create_orchestrator env) (S (S (S n))) "analyze" state visited
  = Returned (visited ++ ["analyze"], analyze_node env state) ∧
  run_from (create_orchestrator env) (S (S n)) "write_chapters" state visited
  = Returned (visited ++ ["write_chapters"], write_chapters_node env state) ∧
  run_from (create_orchestrator env) (S n) "integrate" state visited
  = Returned (visited ++ ["integrate"], integrate_node env state).
Proof.
  intros Herr. split; [|split].
  - by rewrite run_from_analyze, route_after_analyze, Herr.
  - by rewrite run_from_write_chapters, route_after_write_chapters, Herr.
  - apply run_from_integrate.
Qed.

Lemma error_in_state_ends_run_witness :
  truthy_opt_str (error MoreExamples.failed_state) = true ∧
  run_from (create_orchestrator Examples.all_branches_fail) 3 "analyze"
    MoreExamples.failed_state []
  = Returned (["analyze"],
              analyze_node Examples.all_branches_fail
                MoreExamples.failed_state).
Proof.
  split; [reflexivity|].
  destruct (error_in_state_ends_run Examples.all_branches_fail
              MoreExamples.failed_state 0 []) as [Hrun _]; [reflexivity|].
  exact Hrun.
Defined.

End PipelineMore.

Section ConsoleMore.
Import Orchestrator OrchestratorIO.

(** X5: a degraded run still completes.  On a console that takes every
    line, once the chat model is constructed and the analysis has returned,
    and whichever of the five extraction calls return or fail with an
    [Exception], the integrator is called on the request made of the header,
    the five entries in order (the full extraction of a call that returned
    content, the "insufficient information" entry otherwise) and the
    footer, and the outcome of the run is decided by this call alone. *)
Theorem degraded_run_completes
    (env : services) (text : string) (a : AnalysisResult) :
  console_accepts env →
  chat_model_init env = None →
  analyzer_ainvoke env text = Ok a →
  (∀ stage e, agent_ainvoke env stage text = Exn e → is_Exception e = true) →
  let slot stage :=
    match agent_ainvoke env stage text with
    | Ok section => Some section
    | Exn _ => None
    end in
  let request :=
    request_header a +:+
    expected_entry ("유년기", "0-12세") (slot Childhood) +:+
    expected_entry ("청년기", "13-29세") (slot Youth) +:+
    expected_entry ("중년기", "30-49세") (slot MiddleAge) +:+
    expected_entry ("장년기", "50-64세") (slot Mature) +:+
    expected_entry ("노년기", "65세 이상") (slot Elderly) +:+
    request_footer in
  run_autobiography_generation env text
  = match integrator_ainvoke env request with
    | Ok r => Ok (Some r)
    | Exn e =>
        if is_Exception e then
          if truthy_str (exn_str e)
          then Exn (Exception ("자서전 생성 중 오류 발생: " +:+ exn_str e))
          else Ok None
        else Exn e
    end.
Proof.
  intros Hprint Hchat Hana Hagents slot request.
  unfold run_autobiography_generation.
  rewrite Hprint. cbn [bind_result]. rewrite run_graph_closed_io.
  assert (analyze_node env (initial_state text)
          = Ok (spread_analysis (initial_state text) a)) as ->.
  { unfold analyze_node, analyze_body, create_chain.
    rewrite Hprint, Hchat. cbn [bind_result initial_state transcript].
    rewrite Hana. cbn [bind_result]. by rewrite Hprint. }
  cbn [bind_result].
  change (should_continue (spread_analysis (initial_state text) a))
    with "chapters".
  cbn [String.eqb Ascii.eqb Bool.eqb].
  set (analysed := spread_analysis (initial_state text) a).
  rewrite (write_chapters_node_accepted env analysed Hprint).
  rewrite (write_chapters_body_ok_io env analysed Hprint Hchat).
  cbn [try_except_Exception bind_result].
  change (transcript analysed) with text.
  match goal with
  | |- context [should_continue ?w] =>
      change (should_continue w) with "integrate"; set (written := w)
  end.
  cbn [String.eqb Ascii.eqb Bool.eqb].
  unfold integrate_node. rewrite Hprint. cbn [bind_result].
  assert (chapter_entries (chapter_data written)
          = Ok [ expected_entry ("유년기", "0-12세") (slot Childhood);
                 expected_entry ("청년기", "13-29세") (slot Youth);
                 expected_entry ("중년기", "30-49세") (slot MiddleAge);
                 expected_entry ("장년기", "50-64세") (slot Mature);
                 expected_entry ("노년기", "65세 이상") (slot Elderly) ])
    as Hentries.
  { unfold chapter_data, written.
    cbn [childhood_chapter youth_chapter middle_age_chapter mature_chapter
         elderly_chapter chapter_entries].
    rewrite !chapter_entry_stored by (intros e; apply Hagents).
    cbn [bind_result]. rewrite <- !chapter_info_expected. reflexivity. }
  unfold integrate_body. rewrite Hentries. cbn [bind_result].
  change (analysis written) with (Some a).
  unfold create_chain. rewrite Hchat.
  cbn [require_analysis bind_result].
  rewrite integration_input_layout. cbn [String.concat].
  rewrite !append_assoc.
  match goal with
  | |- context [integrator_ainvoke env ?req] => change req with request
  end.
  destruct (integrator_ainvoke env request) as [r|e].
  - cbn [bind_result]. rewrite Hprint.
    cbn [bind_result try_except_Exception snd].
    change (truthy_opt_str (error (spread_final written r))) with false.
    cbv iota. by rewrite Hprint.
  - cbn [bind_result try_except_Exception].
    destruct (is_Exception e); [|done].
    cbn [bind_result snd].
    change (error (spread_error written (exn_str e)))
      with (Some (exn_str e)).
    cbn [truthy_opt_str default]. destruct (truthy_str (exn_str e)); [done|].
    by rewrite Hprint.
Qed.

Lemma degraded_run_completes_witness :
  console_accepts all_branches_time_out ∧
  chat_model_init all_branches_time_out = None ∧
  analyzer_ainvoke all_branches_time_out "transcript"
  = Ok Examples.sample_analysis ∧
  (∀ stage e,
     agent_ainvoke all_branches_time_out stage "transcript" = Exn e →
     is_Exception e = true) ∧
  run_autobiography_generation all_branches_time_out "transcript"
  = Ok (Some Examples.sample_result).
Proof.
  assert (console_accepts all_branches_time_out) as Hprint.
  { intros line. reflexivity. }
  assert (∀ stage e,
            agent_ainvoke all_branches_time_out stage "transcript" = Exn e →
            is_Exception e = true) as Hagents.
  { intros stage e [= <-]. reflexivity. }
  split; [exact Hprint|]. do 2 (split; [reflexivity|]).
  split; [exact Hagents|].
  exact (degraded_run_completes all_branches_time_out "transcript"
           Examples.sample_analysis Hprint eq_refl eq_refl Hagents).
Defined.

(** X8: every exception that [run_autobiography_generation] raises is of
    one of three kinds: the exception raised by printing one of the five
    progress lines that stand outside any [try] (the first and the last
    line of the run and the opening line of each node); an exception that is
    not an [Exception], which no node catches; or the stage failure, an
    [Exception] whose message is the fixed prefix followed by the non-empty
    message the final state records together with the step ["error"] and no
    autobiography.  The graph driver itself never fails. *)
Theorem run_raises_only_stage_failures
    (env : services) (text : string) (raised : exn) :
  run_autobiography_generation env text = Exn raised →
  (∃ line,
     line ∈ [start_line; analyze_banner; write_chapters_banner;
             integrate_banner; completion_line] ∧
     print env line = Exn raised) ∨
  is_Exception raised = false ∨
  (∃ msg visited final,
     raised = Exception ("자서전 생성 중 오류 발생: " +:+ msg) ∧
     truthy_str msg = true ∧
     run_graph env text = Ok (visited, final) ∧
     error final = Some msg ∧
     current_step final = "error" ∧
     final_autobiography final = None).
Proof.
  unfold run_autobiography_generation. fold start_line completion_line.
  destruct (print env start_line) as [[]|e] eqn:Hstart.
  2: { cbn. intros [= <-]. left. exists start_line.
       split; [apply list_elem_of_here|done]. }
  cbn [bind_result].
  destruct (run_graph env text) as [[visited final]|e] eqn:Hrun.
  2: { cbn. intros [= <-].
       destruct (run_graph_raises_io _ _ _ Hrun)
         as [(line & Hline & Hp)|He]; [left|by right; left].
       exists line. split; [|done].
       apply list_elem_of_further.
       rewrite !elem_of_cons in Hline. rewrite !elem_of_cons.
       destruct Hline as [->|[->|[->|Hnil]]];
         first [by apply elem_of_nil in Hnil|auto]. }
  cbn [bind_result snd].
  destruct (run_graph_final_io _ _ _ _ Hrun)
    as [(msg & Herr & Hstep & Hnone)|(r & Herr & _ & _)]; rewrite Herr.
  - cbn [truthy_opt_str default].
    destruct (truthy_str msg) eqn:Hmsg.
    + intros [= <-]. right; right. by exists msg, visited, final.
    + destruct (print env completion_line) as [[]|e] eqn:Hlast; [done|].
      cbn. intros [= <-]. left. exists completion_line. split; [|done].
      do 4 apply list_elem_of_further. apply list_elem_of_here.
  - cbn [truthy_opt_str].
    destruct (print env completion_line) as [[]|e] eqn:Hlast; [done|].
    cbn. intros [= <-]. left. exists completion_line. split; [|done].
    do 4 apply list_elem_of_further. apply list_elem_of_here.
Qed.

Lemma run_raises_only_stage_failures_witness :
  run_autobiography_generation analysis_times_out "transcript"
  = Exn (Exception ("자서전 생성 중 오류 발생: " +:+ "Request timed out.")) ∧
  ((∃ line,
      line ∈ [start_line; analyze_banner; write_chapters_banner;
              integrate_banner; completion_line] ∧
      print analysis_times_out line
      = Exn (Exception
               ("자서전 생성 중 오류 발생: " +:+ "Request timed out."))) ∨
   is_Exception
     (Exception ("자서전 생성 중 오류 발생: " +:+ "Request timed out."))
   = false ∨
   (∃ msg visited final,
      Exception ("자서전 생성 중 오류 발생: " +:+ "Request timed out.")
      = Exception ("자서전 생성 중 오류 발생: " +:+ msg) ∧
      truthy_str msg = true ∧
      run_graph analysis_times_out "transcript" = Ok (visited, final) ∧
      error final = Some msg ∧
      current_step final = "error" ∧
      final_autobiography final = None)).
Proof.
  split; [reflexivity|].
  exact (run_raises_only_stage_failures analysis_times_out "transcript"
           (Exception ("자서전 생성 중 오류 발생: " +:+ "Request timed out."))
           eq_refl).
Defined.
(** X22: the message-only reading of the pipeline is sound for the runs it
    is meant for.  On a console that takes every line and with a
    constructor and calls that fail with an [Exception], the graph run with
    its console and exception classes visits the nodes and ends in the
    state that the message-only graph run computes, and
    [run_autobiography_generation] returns the same result or raises an
    exception with the same message. *)
Theorem readings_agree (env : services) (text : string) :
  console_accepts env →
  raises_only_Exceptions env →
  (∃ visited final,
     Orchestrator.run_graph (messages_of env) text
     = Returned (visited, final) ∧
     run_graph env text = Ok (visited, with_sections final)) ∧
  message_of (run_autobiography_generation env text)
  = Orchestrator.run_autobiography_generation (messages_of env) text.
Proof.
  intros Haccepts Honly. split; [|by apply run_reading].
  destruct (run_graph_final (messages_of env) text)
    as (visited & final & Hrun & _).
  exists visited, final. split; [done|].
  by rewrite (run_graph_reading env Haccepts Honly), Hrun.
Qed.

Lemma readings_agree_witness :
  console_accepts all_branches_time_out ∧
  raises_only_Exceptions all_branches_time_out ∧
  message_of (run_autobiography_generation all_branches_time_out "transcript")
  = Orchestrator.run_autobiography_generation
      (messages_of all_branches_time_out) "transcript".
Proof.
  assert (console_accepts all_branches_time_out) as Haccepts.
  { intros line. reflexivity. }
  assert (raises_only_Exceptions all_branches_time_out) as Honly.
  { split; [intros line e; discriminate|].
    split; [intros e; discriminate|].
    split; [intros t e; discriminate|].
    split; [by intros stage t e [= <-]|].
    intros request e; discriminate. }
  split; [exact Haccepts|]. split; [exact Honly|].
  exact (proj2 (readings_agree all_branches_time_out "transcript"
                  Haccepts Honly)).
Defined.
End ConsoleMore.



(** * File names *)

Section FileNameFacts.
Import FileHandler.
Implicit Types (s name : pystr) (c : N).

(** The nine replacements together turn each invalid character into an
    underscore and leave every other character alone. *)
Lemma replace_all name :
  foldl (λ name char, replace char underscore name) name invalid_chars
  = (λ c, if bool_decide (c ∈ invalid_chars) then underscore else c) <$> name.
Proof.
  unfold invalid_chars. cbn [foldl]. unfold replace.
  rewrite <- !list_fmap_compose. apply list_fmap_ext. intros _ c _.
  cbn [compose].
  case_bool_decide as Hin; rewrite !elem_of_cons, elem_of_nil in Hin.
  - repeat (destruct Hin as [->|Hin]; [reflexivity|]). done.
  - repeat match goal with
           | |- context [N.eqb c ?k] =>
               destruct (N.eqb_spec c k) as [->|?];
               [exfalso; apply Hin; auto 20|cbv iota]
           end.
    done.
Qed.

Lemma replaced_valid c :
  (if bool_decide (c ∈ invalid_chars) then underscore else c) ∉ invalid_chars.
Proof.
  case_bool_decide; [|done]. unfold underscore, invalid_chars.
  rewrite !elem_of_cons, elem_of_nil. intuition discriminate.
Qed.

Lemma lstrip_split s :
  ∃ spaces, s = spaces ++ lstrip s ∧ Forall (λ c, isspace c = true) spaces.
Proof.
  induction s as [|c s (spaces & Hs & Hsp)]; [by exists []|].
  simpl. destruct (isspace c) eqn:Hc.
  - exists (c :: spaces). split; [by rewrite Hs at 1|by constructor].
  - by exists [].
Qed.

Lemma lstrip_head s c : head (lstrip s) = Some c → isspace c = false.
Proof.
  induction s as [|c' s IH]; simpl; [done|].
  destruct (isspace c') eqn:Hc; [done|]. simpl. by intros [= <-].
Qed.

Lemma lstrip_id s :
  (∀ c, head s = Some c → isspace c = false) → lstrip s = s.
Proof. destruct s as [|c s]; simpl; [done|]. intros H. by rewrite H. Qed.

Lemma rstrip_split s :
  ∃ spaces, s = rstrip s ++ spaces ∧ Forall (λ c, isspace c = true) spaces.
Proof.
  unfold rstrip. destruct (lstrip_split (reverse s)) as (spaces & Hs & Hsp).
  exists (reverse spaces). split; [|by apply Forall_reverse].
  rewrite <- reverse_app, <- Hs. by rewrite reverse_involutive.
Qed.

Lemma rstrip_last s c : list.last (rstrip s) = Some c → isspace c = false.
Proof. unfold rstrip. rewrite last_reverse. apply lstrip_head. Qed.

Lemma rstrip_id s :
  (∀ c, list.last s = Some c → isspace c = false) → rstrip s = s.
Proof.
  intros H. unfold rstrip. rewrite lstrip_id; [apply reverse_involutive|].
  intros c. rewrite head_reverse. apply H.
Qed.

Lemma strip_split s :
  ∃ before after, s = before ++ strip s ++ after.
Proof.
  unfold strip. destruct (lstrip_split s) as (before & Hs & _).
  destruct (rstrip_split (lstrip s)) as (after & Hl & _).
  exists before, after. by rewrite <- Hl.
Qed.

Lemma strip_no_outer_space s : no_outer_space (strip s).
Proof.
  unfold strip. split; [|apply rstrip_last].
  intros c Hc. destruct (rstrip_split (lstrip s)) as (spaces & Hl & _).
  apply (lstrip_head s). rewrite Hl.
  destruct (rstrip (lstrip s)); [done|exact Hc].
Qed.

Lemma strip_id s : no_outer_space s → strip s = s.
Proof.
  intros [Hhead Hlast]. unfold strip.
  rewrite (lstrip_id s Hhead). by apply rstrip_id.
Qed.

Lemma sanitize_clean name : clean_name (_sanitize_filename name).
Proof.
  unfold _sanitize_filename. rewrite replace_all.
  split; [|apply strip_no_outer_space].
  match goal with |- Forall _ (strip ?l) =>
    destruct (strip_split l) as (before & after & Hl);
    assert (Forall (λ c, c ∉ invalid_chars) l) as Hall
  end.
  { apply Forall_fmap, Forall_true. intros c. apply replaced_valid. }
  rewrite Hl in Hall. apply Forall_app in Hall as [_ Hall].
  by apply Forall_app in Hall as [Hall _].
Qed.

Lemma sanitize_clean_id name : clean_name name → _sanitize_filename name = name.
Proof.
  intros [Hvalid Hspace]. unfold _sanitize_filename. rewrite replace_all.
  match goal with |- strip ?l = _ => assert (l = name) as -> end;
    [|by apply strip_id].
  clear Hspace. induction Hvalid as [|c l Hc Hl IH]; [done|]. csimpl.
  rewrite bool_decide_eq_false_2 by done. by rewrite IH.
Qed.

(** X9: a sanitized file name contains none of the nine invalid characters,
    in particular no slash and no backslash, neither starts nor ends with
    whitespace, and is never longer than the name it was made from. *)
Theorem sanitize_filename_is_clean (name : pystr) :
  Forall (λ c, c ∉ invalid_chars) (_sanitize_filename name) ∧
  (47%N ∉ _sanitize_filename name) ∧
  (92%N ∉ _sanitize_filename name) ∧
  no_outer_space (_sanitize_filename name) ∧
  length (_sanitize_filename name) ≤ length name.
Proof.
  destruct (sanitize_clean name) as [Hvalid Hspace].
  split; [done|].
  assert (∀ c, c ∈ invalid_chars → c ∉ _sanitize_filename name) as Hnot.
  { intros c Hc Hin.
    exact (proj1 (list.Forall_forall _ _) Hvalid c Hin Hc). }
  split; [apply Hnot; unfold invalid_chars; rewrite !elem_of_cons; auto 20|].
  split; [apply Hnot; unfold invalid_chars; rewrite !elem_of_cons; auto 20|].
  split; [done|].
  unfold _sanitize_filename. rewrite replace_all.
  match goal with |- length (strip ?l) ≤ _ =>
    destruct (strip_split l) as (before & after & Hl);
    assert (length l = length name) as Hlen by apply length_fmap
  end.
  rewrite Hl, !length_app in Hlen. lia.
Qed.

(** X10: sanitizing is idempotent, and the names it leaves unchanged are
    exactly the names without invalid characters and without leading or
    trailing whitespace. *)
Theorem sanitize_filename_idempotent (name : pystr) :
  _sanitize_filename (_sanitize_filename name) = _sanitize_filename name ∧
  (_sanitize_filename name = name ↔ clean_name name).
Proof.
  split; [apply sanitize_clean_id, sanitize_clean|]. split.
  - intros <-. apply sanitize_clean.
  - apply sanitize_clean_id.
Qed.

Lemma timestamp_char_valid c : timestamp_char c = true → c ∉ invalid_chars.
Proof.
  unfold timestamp_char, invalid_chars. intros Hc.
  rewrite !elem_of_cons, elem_of_nil.
  apply orb_true_iff in Hc as [Hc| ->%N.eqb_eq]; [|intuition discriminate].
  apply andb_true_iff in Hc as [Hlo%N.leb_le Hhi%N.leb_le]. lia.
Qed.

(** X11: the base name of the saved files never contains an invalid
    character, whatever the author's name is: the name is sanitized, and the
    fixed infix and the timestamp's digits and underscore are all valid. *)
Theorem base_name_has_no_invalid_char (author_name timestamp : pystr) :
  Forall (λ c, timestamp_char c = true) timestamp →
  Forall (λ c, c ∉ invalid_chars) (base_name author_name timestamp).
Proof.
  intros Hts. unfold base_name. apply Forall_app; split.
  - apply sanitize_clean.
  - apply Forall_app; split.
    + unfold autobiography_infix, invalid_chars.
      repeat constructor; rewrite !elem_of_cons, elem_of_nil;
        intuition discriminate.
    + eapply list.Forall_impl; [exact Hts|]. apply timestamp_char_valid.
Qed.

Lemma base_name_has_no_invalid_char_witness :
  Forall (λ c, timestamp_char c = true) MoreExamples.sample_timestamp ∧
  base_name MoreExamples.slashed_author MoreExamples.sample_timestamp
  = ([97; 95; 98] ++ autobiography_infix ++ MoreExamples.sample_timestamp)%N ∧
  Forall (λ c, c ∉ invalid_chars)
    (base_name MoreExamples.slashed_author MoreExamples.sample_timestamp).
Proof.
  assert (Forall (λ c, timestamp_char c = true) MoreExamples.sample_timestamp)
    as Hts by (by repeat constructor).
  split; [exact Hts|]. split; [reflexivity|].
  exact (base_name_has_no_invalid_char MoreExamples.slashed_author
           MoreExamples.sample_timestamp Hts).
Defined.
End FileNameFacts.


(** * The HTTP endpoints *)

Section RouteFacts.
Import stdpp.gmap.
Import Orchestrator Routes.
Implicit Types (job_store : gmap string JobStatus).

(** What the two generation endpoints compute before they answer, by the
    final state of the graph run. *)
Lemma generation_outcome env text now :
  ∃ visited final,
    run_graph env text = Returned (visited, final) ∧
    ((∃ msg,
        error final = Some msg ∧ current_step final = "error" ∧
        (result ←! run_autobiography_generation env text;
         build_response result now)
        = Raised (if truthy_str msg
                  then "자서전 생성 중 오류 발생: " +:+ msg
                  else "'NoneType' object has no attribute 'title'")) ∨
     (∃ r,
        error final = None ∧ current_step final = "complete" ∧
        final_autobiography final = Some r ∧
        (result ←! run_autobiography_generation env text;
         build_response result now)
        = build_response (Some r) now)).
Proof.
  destruct (run_graph_final env text)
    as (v & f & Hrun & [(msg & Herr & Hstep & Hnone)|(r & Herr & Hstep & Hres)]);
    exists v, f; (split; [exact Hrun|]).
  - left. exists msg. split; [done|]. split; [done|].
    unfold run_autobiography_generation. rewrite Hrun. simpl.
    rewrite Herr. simpl. destruct (truthy_str msg); [done|].
    by rewrite Hnone.
  - right. exists r. split; [done|]. split; [done|]. split; [done|].
    unfold run_autobiography_generation. rewrite Hrun. simpl.
    rewrite Herr. simpl. by rewrite Hres.
Qed.

(** X12: the synchronous endpoint answers with a body exactly when the
    graph run ended in the step ["complete"], and the body is then the
    conversion of that state's autobiography.  Every run that ended with an
    error, an empty error message included, is answered with an
    [HTTPException]. *)
Theorem sync_endpoint_succeeds_only_on_complete
    (env : services) (now : Z) (text : string)
    (response : AutobiographyResponse) :
  generate_autobiography env now text = Response response ↔
  ∃ visited final r,
    run_graph env text = Returned (visited, final) ∧
    current_step final = "complete" ∧
    final_autobiography final = Some r ∧
    build_response (Some r) now = Returned response.
Proof.
  unfold generate_autobiography.
  destruct (generation_outcome env text now)
    as (v & f & Hrun & [(msg & Herr & Hstep & ->)|(r & Herr & Hstep & Hres & ->)]).
  - split; [done|]. intros (v' & f' & r & Hrun' & Hstep' & _).
    rewrite Hrun in Hrun'. injection Hrun' as <- <-.
    by rewrite Hstep in Hstep'.
  - simpl. split.
    + intros [= <-]. by exists v, f, r.
    + intros (v' & f' & r' & Hrun' & _ & Hres' & [= <-]).
      rewrite Hrun in Hrun'. injection Hrun' as <- <-.
      rewrite Hres in Hres'. by injection Hres' as <-.
Qed.

(** X13: the error detail of the synchronous endpoint.  When the run ended
    with an error message, the endpoint raises status 500; its detail is the
    fixed prefix followed by the text of the exception the pipeline raised,
    which carries the same prefix again before the stage's message; for an
    empty stage message it is the prefix followed by the [AttributeError] of
    reading a field of [None]. *)
Theorem sync_endpoint_error_detail
    (env : services) (now : Z) (text : string)
    (visited : list string) (final : AutobiographyState) (msg : string) :
  run_graph env text = Returned (visited, final) →
  error final = Some msg →
  generate_autobiography env now text
  = HTTPException 500
      ("자서전 생성 중 오류 발생: " +:+
       (if truthy_str msg then "자서전 생성 중 오류 발생: " +:+ msg
        else "'NoneType' object has no attribute 'title'")).
Proof.
  intros Hrun Herr. unfold generate_autobiography.
  destruct (generation_outcome env text now)
    as (v & f & Hrun' & [(m & Herr' & _ & ->)|(r & Herr' & _)]);
    rewrite Hrun in Hrun'; injection Hrun' as <- <-.
  - rewrite Herr in Herr'. by injection Herr' as <-.
  - by rewrite Herr in Herr'.
Qed.

Lemma sync_endpoint_error_detail_witness :
  run_graph MoreExamples.analysis_times_out "transcript"
  = Returned (["analyze"],
              spread_error (initial_state "transcript") "Request timed out.") ∧
  generate_autobiography MoreExamples.analysis_times_out 0 "transcript"
  = HTTPException 500
      ("자서전 생성 중 오류 발생: " +:+ "자서전 생성 중 오류 발생: " +:+
       "Request timed out.").
Proof.
  split; [reflexivity|].
  exact (sync_endpoint_error_detail MoreExamples.analysis_times_out 0
           "transcript" ["analyze"]
           (spread_error (initial_state "transcript") "Request timed out.")
           "Request timed out." eq_refl eq_refl).
Defined.

(** The answer of [run_autobiography_generation], by the final state of the
    graph run. *)
Lemma run_answer env text :
  ∃ visited final,
    run_graph env text = Returned (visited, final) ∧
    ((∃ msg,
        error final = Some msg ∧ current_step final = "error" ∧
        run_autobiography_generation env text
        = if truthy_str msg then Raised ("자서전 생성 중 오류 발생: " +:+ msg)
          else Returned None) ∨
     (∃ r,
        error final = None ∧ current_step final = "complete" ∧
        run_autobiography_generation env text = Returned (Some r))).
Proof.
  destruct (run_graph_final env text)
    as (v & f & Hrun & [(msg & Herr & Hstep & Hnone)|(r & Herr & Hstep & Hres)]);
    exists v, f; (split; [exact Hrun|]).
  - left. exists msg. split; [done|]. split; [done|].
    unfold run_autobiography_generation. rewrite Hrun. simpl.
    rewrite Herr. simpl. destruct (truthy_str msg); [done|].
    by rewrite Hnone.
  - right. exists r. split; [done|]. split; [done|].
    unfold run_autobiography_generation. rewrite Hrun. simpl.
    rewrite Herr. simpl. by rewrite Hres.
Qed.




End RouteFacts.


(** * Input files *)

Section InputFacts.
Import AudioTranscriber.

Lemma in_audio_formats (s : string) :
  s ∈ SUPPORTED_FORMATS → s ∉ FileHandler.SUPPORTED_TEXT_FORMATS.
Proof.
  unfold SUPPORTED_FORMATS, FileHandler.SUPPORTED_TEXT_FORMATS.
  rewrite !elem_of_cons, !elem_of_nil. intros Hs Ht.
  repeat (destruct Hs as [->|Hs];
          [repeat (destruct Ht as [Ht|Ht]; [discriminate Ht|]); done|]).
  done.
Qed.

(** X17: the file handler and the transcriber agree on what an audio file
    is.  [detect_input_type] answers ['audio'] exactly for the suffixes the
    transcriber supports (which are also the endpoint's allowed extensions),
    ['text'] exactly for the text suffixes, and no suffix is both; so the
    transcriber's validation accepts a file exactly when the file exists and
    the file handler calls it audio. *)
Theorem audio_formats_agree
    (lower : string → string)
    (text_listing audio_listing formats_listing : string)
    (file : audio_file) :
  let detected :=
    FileHandler.detect_input_type lower text_listing audio_listing
      (file_suffix file) in
  FileHandler.SUPPORTED_AUDIO_FORMATS = SUPPORTED_FORMATS ∧
  Routes.allowed_extensions = SUPPORTED_FORMATS ∧
  (detected = Returned "audio" ↔ lower (file_suffix file) ∈ SUPPORTED_FORMATS) ∧
  (detected = Returned "text" ↔
   lower (file_suffix file) ∈ FileHandler.SUPPORTED_TEXT_FORMATS) ∧
  (_validate_file lower formats_listing file = Returned file ↔
   file_exists file = true ∧ detected = Returned "audio").
Proof.
  intros detected. split; [done|]. split; [done|].
  assert (detected = Returned "audio" ↔
          lower (file_suffix file) ∈ SUPPORTED_FORMATS) as Haudio.
  { subst detected. unfold FileHandler.detect_input_type.
    change FileHandler.SUPPORTED_AUDIO_FORMATS with SUPPORTED_FORMATS.
    repeat case_bool_decide; split; try done.
    intros Hin. by apply in_audio_formats in Hin. }
  split; [exact Haudio|]. split.
  - subst detected. unfold FileHandler.detect_input_type.
    repeat case_bool_decide; by split.
  - rewrite Haudio. unfold _validate_file.
    destruct (file_exists file); simpl; [|by split; [|intros []]].
    case_bool_decide; simpl; split; try done; by intros [].
Qed.




End InputFacts.


(** * Rendering *)

Section RenderFacts.
Import FileHandler.

Lemma occurs_in_refl (s : string) : occurs_in s s.
Proof.
  exists "", "". change (s = s +:+ ""). induction s as [|c s IH]; [done|].
  change (String c s = String c (s +:+ "")). by rewrite <- IH.
Qed.

Lemma occurs_in_app (small before after : string) :
  occurs_in small (before +:+ small +:+ after).
Proof. by exists before, after. Qed.

Lemma occurs_in_trans (a b c : string) :
  occurs_in a b → occurs_in b c → occurs_in a c.
Proof.
  intros (p1 & q1 & ->) (p2 & q2 & ->).
  exists (p2 +:+ p1), (q1 +:+ q2). by rewrite !append_assoc.
Qed.

Lemma occurs_in_line (sep x : string) (lines : list string) :
  x ∈ lines → occurs_in x (String.concat sep lines).
Proof.
  induction lines as [|a [|b rest] IH]; intros Hin.
  - by apply elem_of_nil in Hin.
  - apply elem_of_cons in Hin as [->|Hin]; [apply occurs_in_refl|].
    by apply elem_of_nil in Hin.
  - change (String.concat sep (a :: b :: rest))
      with (a +:+ sep +:+ String.concat sep (b :: rest)).
    apply elem_of_cons in Hin as [->|Hin].
    + exists "", (sep +:+ String.concat sep (b :: rest)). done.
    + destruct (IH Hin) as (before & after & ->).
      exists (a +:+ sep +:+ before), after. by rewrite !append_assoc.
Qed.

Lemma markdown_chapters_line (chapters : list chapter_value) :
  ∀ i k chapter x,
    chapters !! k = Some chapter →
    x ∈ markdown_chapter (i + k) chapter →
    x ∈ markdown_chapters i chapters.
Proof.
  induction chapters as [|ch rest IH]; intros i k chapter x Hk Hx; [done|].
  simpl. apply elem_of_app. destruct k as [|k]; simpl in Hk.
  - injection Hk as ->. left. by rewrite Nat.add_0_r in Hx.
  - right. apply (IH (S i) k chapter x Hk).
    by replace (S i + k) with (i + S k) by lia.
Qed.

Lemma plain_chapters_line (chapters : list chapter_value) :
  ∀ i k chapter x,
    chapters !! k = Some chapter →
    x ∈ plain_chapter (i + k) chapter →
    x ∈ plain_chapters i chapters.
Proof.
  induction chapters as [|ch rest IH]; intros i k chapter x Hk Hx; [done|].
  simpl. apply elem_of_app. destruct k as [|k]; simpl in Hk.
  - injection Hk as ->. left. by rewrite Nat.add_0_r in Hx.
  - right. apply (IH (S i) k chapter x Hk).
    by replace (S i + k) with (i + S k) by lia.
Qed.

Lemma concat_app (sep : string) (l1 l2 : list string) :
  l1 ≠ [] → l2 ≠ [] →
  String.concat sep (l1 ++ l2)
  = String.concat sep l1 +:+ sep +:+ String.concat sep l2.
Proof.
  intros Hl1 Hl2. induction l1 as [|a [|b rest] IH]; [done| |].
  - destruct l2 as [|c l2]; [done|]. reflexivity.
  - change (String.concat sep ((a :: b :: rest) ++ l2))
      with (a +:+ sep +:+ String.concat sep ((b :: rest) ++ l2)).
    change (String.concat sep (a :: b :: rest))
      with (a +:+ sep +:+ String.concat sep (b :: rest)).
    rewrite IH by done. by rewrite !append_assoc.
Qed.

(** Consecutive lines of a text, joined, occur in the joined text. *)
Lemma occurs_in_block (sep : string) (before block after : list string) :
  block ≠ [] →
  occurs_in (String.concat sep block)
            (String.concat sep (before ++ block ++ after)).
Proof.
  intros Hblock.
  assert (occurs_in (String.concat sep block)
                    (String.concat sep (block ++ after))) as Htail.
  { destruct after as [|x after]; [rewrite app_nil_r; apply occurs_in_refl|].
    rewrite concat_app by done. by exists "", (sep +:+ String.concat sep (x :: after)). }
  destruct before as [|y before]; [exact Htail|].
  rewrite concat_app; [|done|by destruct block].
  eapply occurs_in_trans; [exact Htail|].
  exists (String.concat sep (y :: before) +:+ sep), "".
  rewrite !append_assoc.
  destruct (occurs_in_refl (String.concat sep (block ++ after)))
    as (e1 & e2 & Heq).
  f_equal. f_equal.
  clear. generalize (String.concat sep (block ++ after)). intros t.
  induction t as [|c t IH]; [done|].
  change (String c t = String c (t +:+ "")). by rewrite <- IH.
Qed.

Lemma markdown_chapters_split (chapters : list chapter_value) :
  ∀ i k chapter,
    chapters !! k = Some chapter →
    ∃ before after,
      markdown_chapters i chapters
      = before ++ markdown_chapter (i + k) chapter ++ after.
Proof.
  induction chapters as [|ch rest IH]; intros i k chapter Hk; [done|].
  destruct k as [|k]; simpl in Hk.
  - injection Hk as ->. exists [], (markdown_chapters (S i) rest).
    by rewrite Nat.add_0_r.
  - destruct (IH (S i) k chapter Hk) as (before & after & Hrest).
    exists (markdown_chapter i ch ++ before), after. simpl.
    rewrite Hrest, <- app_assoc. by replace (S i + k) with (i + S k) by lia.
Qed.

Lemma plain_chapters_split (chapters : list chapter_value) :
  ∀ i k chapter,
    chapters !! k = Some chapter →
    ∃ before after,
      plain_chapters i chapters
      = before ++ plain_chapter (i + k) chapter ++ after.
Proof.
  induction chapters as [|ch rest IH]; intros i k chapter Hk; [done|].
  destruct k as [|k]; simpl in Hk.
  - injection Hk as ->. exists [], (plain_chapters (S i) rest).
    by rewrite Nat.add_0_r.
  - destruct (IH (S i) k chapter Hk) as (before & after & Hrest).
    exists (plain_chapter i ch ++ before), after. simpl.
    rewrite Hrest, <- app_assoc. by replace (S i + k) with (i + S k) by lia.
Qed.

(** X20: neither renderer drops a chapter or separates it from its heading.
    For every chapter dictionary of the data, at whatever position and
    whatever the other fields hold, both renderings contain the chapter as
    one block: the heading that numbers the chapter by its position, counted
    from 1, and names its title; on the next line the period, when there is
    one, followed by an empty line; and directly below that the chapter's
    content. *)
Theorem rendering_keeps_chapters
    (data : autobiography_data) (chapters : list chapter_value) (k : nat)
    (title period : option string) (content : string) :
  d_chapters data = Some chapters →
  chapters !! k = Some (ChapterDict title (Some content) period) →
  let number := str_nat (S k) in
  let chapter_title := default ("제" +:+ number +:+ "장") title in
  let chapter_period := default "" period in
  occurs_in
    ("## 제" +:+ number +:+ "장: " +:+ chapter_title +:+ nl +:+
     (if truthy_str chapter_period
      then "*" +:+ chapter_period +:+ "*" +:+ nl +:+ nl else "") +:+
     content)
    (_to_markdown data) ∧
  occurs_in
    ("[제" +:+ number +:+ "장: " +:+ chapter_title +:+ "]" +:+ nl +:+
     (if truthy_str chapter_period
      then "(" +:+ chapter_period +:+ ")" +:+ nl +:+ nl else "") +:+
     content)
    (_to_plain_text data).
Proof.
  intros Hchapters Hk number chapter_title chapter_period. split.
  - destruct (markdown_chapters_split chapters 1 k _ Hk)
      as (before & after & Hsplit).
    unfold _to_markdown, markdown_lines. rewrite Hchapters. simpl default.
    rewrite Hsplit. unfold markdown_chapter.
    fold number. fold chapter_title. fold chapter_period.
    destruct (truthy_str chapter_period).
    + match goal with |- occurs_in ?block _ =>
        replace block with
          (String.concat nl
             ["## 제" +:+ number +:+ "장: " +:+ chapter_title;
              "*" +:+ chapter_period +:+ "*" +:+ nl; content])
          by (cbn [String.concat]; by rewrite !append_assoc)
      end.
      match goal with |- occurs_in _ (String.concat nl (?l1 ++ ?l2 ++
          (before ++ ([?h] ++ [?pl] ++ [?c; ?e]) ++ after) ++ ?rest)) =>
        replace (l1 ++ l2 ++ (before ++ ([h] ++ [pl] ++ [c; e]) ++ after)
                 ++ rest)
          with ((l1 ++ l2 ++ before) ++ [h; pl; c] ++ (e :: after ++ rest))
          by (simpl; by rewrite <- !app_assoc)
      end.
      by apply occurs_in_block.
    + match goal with |- occurs_in ?block _ =>
        replace block with
          (String.concat nl
             ["## 제" +:+ number +:+ "장: " +:+ chapter_title; content])
          by (cbn [String.concat]; by rewrite !append_assoc)
      end.
      match goal with |- occurs_in _ (String.concat nl (?l1 ++ ?l2 ++
          (before ++ ([?h] ++ [] ++ [?c; ?e]) ++ after) ++ ?rest)) =>
        replace (l1 ++ l2 ++ (before ++ ([h] ++ [] ++ [c; e]) ++ after)
                 ++ rest)
          with ((l1 ++ l2 ++ before) ++ [h; c] ++ (e :: after ++ rest))
          by (simpl; by rewrite <- !app_assoc)
      end.
      by apply occurs_in_block.
  - destruct (plain_chapters_split chapters 1 k _ Hk)
      as (before & after & Hsplit).
    unfold _to_plain_text, plain_lines. rewrite Hchapters. simpl default.
    rewrite Hsplit. unfold plain_chapter.
    fold number. fold chapter_title. fold chapter_period.
    destruct (truthy_str chapter_period).
    + match goal with |- occurs_in ?block _ =>
        replace block with
          (String.concat nl
             ["[제" +:+ number +:+ "장: " +:+ chapter_title +:+ "]";
              "(" +:+ chapter_period +:+ ")" +:+ nl; content])
          by (cbn [String.concat]; by rewrite !append_assoc)
      end.
      match goal with |- occurs_in _ (String.concat nl (?l1 ++ ?l2 ++
          (before ++ (([?h] ++ [?pl] ++ [?c]) ++ [?e]) ++ after) ++ ?rest)) =>
        replace (l1 ++ l2 ++ (before ++ (([h] ++ [pl] ++ [c]) ++ [e]) ++ after)
                 ++ rest)
          with ((l1 ++ l2 ++ before) ++ [h; pl; c] ++ (e :: after ++ rest))
          by (simpl; by rewrite <- !app_assoc)
      end.
      by apply occurs_in_block.
    + match goal with |- occurs_in ?block _ =>
        replace block with
          (String.concat nl
             ["[제" +:+ number +:+ "장: " +:+ chapter_title +:+ "]"; content])
          by (cbn [String.concat]; by rewrite !append_assoc)
      end.
      match goal with |- occurs_in _ (String.concat nl (?l1 ++ ?l2 ++
          (before ++ (([?h] ++ [] ++ [?c]) ++ [?e]) ++ after) ++ ?rest)) =>
        replace (l1 ++ l2 ++ (before ++ (([h] ++ [] ++ [c]) ++ [e]) ++ after)
                 ++ rest)
          with ((l1 ++ l2 ++ before) ++ [h; c] ++ (e :: after ++ rest))
          by (simpl; by rewrite <- !app_assoc)
      end.
      by apply occurs_in_block.
Qed.

Lemma rendering_keeps_chapters_witness :
  d_chapters MoreExamples.two_chapters
  = Some [ ChapterDict (Some "Home") (Some "We lived by the sea.")
             (Some "유년기");
           ChapterDict (Some "Work") (Some "I became a teacher.")
             (Some "중년기") ] ∧
  occurs_in
    ("## 제" +:+ "2" +:+ "장: " +:+ "Work" +:+ nl +:+
     ("*" +:+ "중년기" +:+ "*" +:+ nl +:+ nl) +:+ "I became a teacher.")
    (_to_markdown MoreExamples.two_chapters).
Proof.
  split; [reflexivity|].
  destruct (rendering_keeps_chapters MoreExamples.two_chapters
              [ ChapterDict (Some "Home") (Some "We lived by the sea.")
                  (Some "유년기");
                ChapterDict (Some "Work") (Some "I became a teacher.")
                  (Some "중년기") ]
              1 (Some "Work") (Some "중년기") "I became a teacher."
              eq_refl eq_refl) as (Hmd & _).
  exact Hmd.
Defined.
End RenderFacts.


(** * Concurrency does not show *)

Section OrderFacts.
Import Orchestrator.

(** X21: the order in which the five concurrent extraction calls finish has
    no effect on a run: the nodes run, the final state and the answer of
    [run_autobiography_generation] are the same for every completion
    order. *)
Theorem run_independent_of_completion_order
    (env : services) (order : list nat) (text : string) :
  run_graph (with_completion_order env order) text = run_graph env text ∧
  run_autobiography_generation (with_completion_order env order) text
  = run_autobiography_generation env text.
Proof.
  assert (run_graph (with_completion_order env order) text
          = run_graph env text) as Hrun.
  { rewrite !run_graph_closed.
    change (analyze_body (with_completion_order env order))
      with (analyze_body env).
    destruct (analyze_body env (initial_state text)) as [analysed|msg];
      [|done].
    destruct (chat_model_init env) as [msg|] eqn:Hchat.
    - unfold write_chapters_body, create_chain. simpl. by rewrite Hchat.
    - rewrite (write_chapters_body_ok env analysed Hchat).
      rewrite (write_chapters_body_ok (with_completion_order env order)
                 analysed Hchat).
      rewrite (write_chapters_node_ok env analysed Hchat).
      rewrite (write_chapters_node_ok (with_completion_order env order)
                 analysed Hchat).
      reflexivity. }
  split; [exact Hrun|].
  unfold run_autobiography_generation. by rewrite Hrun.
Qed.
End OrderFacts.
